(** * Label Studio synchronisation: a shallow embedding of
    [pixeltable/datatransfer/label_studio.py]

    The development follows the source file top to bottom: Python values and
    exceptions, the XML config parser, the task enumerator, the pull merger
    and the push reconciler.  Remote calls, table calls and log output are
    recorded in an explicit world that is threaded through a small
    state-and-exception monad. *)

From stdpp Require Import gmap strings list fin_maps pretty.
From Stdlib Require Import ZArith Ascii.
From Stdlib Require String.

Set Warnings "-register-all,-clear-no-such-hyp".

Local Open Scope Z_scope.
Local Open Scope stdpp_scope.

(** ** Python values and exceptions *)

(** Values that travel through rows, task payloads and update records
    (JSON-shaped Python objects). *)
Inductive PyVal :=
| VNone
| VBool (b : bool)
| VInt (z : Z)
| VStr (s : string)
| VList (l : list PyVal)
| VDict (d : list (string * PyVal)).

(** The exceptions the source can raise.  [Error] is [excs.Error], the one
    exception class of the package: the schema errors and validation errors
    of the design are all raised as [excs.Error] and differ by message. *)
Inductive Exn :=
| Error (msg : string)
| AssertionError
| IndexError
| KeyError (key : string)
| AttributeError
| TypeError
| StopIteration
| ParseError.

Inductive Result (A : Type) :=
| Ok (a : A)
| Raise (e : Exn).
Arguments Ok {A} a.
Arguments Raise {A} e.

Definition result_bind {A B} (r : Result A) (k : A → Result B) : Result B :=
  match r with
  | Ok a => k a
  | Raise e => Raise e
  end.

(** ** Strings *)

Module Str.

(** [str.lower()] on the ASCII range.  Outside ASCII Python's [lower] never
    produces one of the ASCII letters that occur in the tags compared
    against below, so the comparisons agree. *)
Definition lower_ascii (c : ascii) : ascii :=
  let n := nat_of_ascii c in
  if ((65 <=? n)%nat && (n <=? 90)%nat)%bool then ascii_of_nat (n + 32) else c.

Fixpoint lower (s : string) : string :=
  match s with
  | EmptyString => EmptyString
  | String c s' => String (lower_ascii c) (lower s')
  end.

(** [s.startswith(p)] *)
Definition startswith (p s : string) : bool := String.prefix p s.

(** [s[0]], raising [IndexError] on the empty string. *)
Definition head (s : string) : Result ascii :=
  match s with
  | EmptyString => Raise IndexError
  | String c _ => Ok c
  end.

(** [s[1:]], the empty string when [s] is empty. *)
Definition tail (s : string) : string :=
  match s with
  | EmptyString => EmptyString
  | String _ s' => s'
  end.

End Str.

(** ** Column types *)

Inductive TypeKind := StringKind | ImageKind | VideoKind | AudioKind | JsonKind.

Record ColumnType := mkColumnType { kind : TypeKind; nullable : bool }.

Definition StringType := mkColumnType StringKind false.
Definition ImageType := mkColumnType ImageKind false.
Definition VideoType := mkColumnType VideoKind false.
Definition AudioType := mkColumnType AudioKind false.
Definition JsonType (nullable : bool) := mkColumnType JsonKind nullable.

(** ** Module constants *)

Definition _PAGE_SIZE : nat := 100.

Definition _LS_TAG_MAP : gmap string ColumnType :=
  <["audio" := AudioType]>
    (<["video" := VideoType]>
       (<["image" := ImageType]>
          (<["text" := StringType]> ∅))).

Definition ANNOTATIONS_COLUMN : string := "annotations".

(** ** XML elements, as [ElementTree] hands them over *)

Inductive Element := mkElement {
  tag : string;
  attrib : gmap string string;
  children : list Element
}.

(** ** Generators and [dict] *)

(** A generator run to its end: what it yielded, and the exception that
    ended it when it did not finish normally. *)
Record Gen (A : Type) := mkGen { yielded : list A; raised : option Exn }.
Arguments mkGen {A} yielded raised.
Arguments yielded {A} g.
Arguments raised {A} g.

(** [dict(pairs)]: pairs are inserted in order, a later key overwrites. *)
Definition py_dict {V} (pairs : list (string * V)) : gmap string V :=
  foldl (λ d kv, <[kv.1 := kv.2]> d) ∅ pairs.

(** [dict(g)] for a generator [g]: the exception of [g] propagates. *)
Definition dict_of_gen {V} (g : Gen (string * V)) : Result (gmap string V) :=
  match raised g with
  | Some e => Raise e
  | None => Ok (py_dict (yielded g))
  end.

(** ** Config parser *)

Definition root_error : string := "Root of Label Studio config must be a `View`".

Definition unsupported_error (tag : string) : string :=
  "Unsupported Label Studio data type: `" +:+ tag +:+ "`".

(** One iteration of the loop of [_extract_vars_from_project_config]:
    [Ok None] when the element is passed over, [Ok (Some pair)] when a pair is
    yielded. *)
Definition extract_element (element : Element)
  : Result (option (string * ColumnType)) :=
  match attrib element !! "value" with
  | None => Ok None
  | Some value =>
      result_bind (Str.head value) (λ c,
        if Ascii.eqb c "$" then
          match _LS_TAG_MAP !! Str.lower (tag element) with
          | None => Raise (Error (unsupported_error (tag element)))
          | Some element_type => Ok (Some (Str.tail value, element_type))
          end
        else Ok None)
  end.

Fixpoint extract_elements (elements : list Element) : Gen (string * ColumnType) :=
  match elements with
  | [] => mkGen [] None
  | element :: rest =>
      match extract_element element with
      | Raise e => mkGen [] (Some e)
      | Ok None => extract_elements rest
      | Ok (Some item) =>
          let g := extract_elements rest in
          mkGen (item :: yielded g) (raised g)
      end
  end.

Definition _extract_vars_from_project_config (root : Element)
  : Gen (string * ColumnType) :=
  extract_elements (children root).

Section ConfigParser.

(** [ElementTree.fromstring], the library's XML parser. *)
Variable fromstring : string → Result Element.

Definition _parse_project_config (config : string)
  : Result (gmap string ColumnType) :=
  result_bind (fromstring config) (λ root,
    if negb (String.eqb (Str.lower (tag root)) "view") then
      Raise (Error root_error)
    else if negb (String.eqb (tag root) "View") then
      Raise AssertionError
    else dict_of_gen (_extract_vars_from_project_config root)).

End ConfigParser.

(** ** Remote side: tasks, pages and the calls of the remote adapter *)

(** The [rowid] entry of [task['meta']]: missing, JSON null, or a row
    coordinate. *)
Inductive MetaRowid :=
| RowidAbsent
| RowidNull
| RowidVal (rowid : list Z).

Record Task := mkTask {
  task_id : Z;
  data : list (string * PyVal);
  meta_rowid : MetaRowid;
  annotations : list PyVal
}.

Record PageResult := mkPageResult {
  end_pagination : bool;
  tasks : list Task
}.

(** What a task record holds under ['data'].  The general push path stores
    [zip(r_push_cols, row.vals)] there: the iterator object itself, holding
    the two lists it was built from, not a [dict] made from it.  A [dict]
    is what a record read from JSON holds. *)
Inductive TaskData :=
| DataDict (d : list (string * PyVal))
| DataZip (names : list string) (values : list PyVal).

(** A task record as the general push path builds it. *)
Record NewTask := mkNewTask {
  new_data : TaskData;
  new_meta_rowid : list Z
}.

(** [json.dumps] knows how to write a [dict] of JSON-shaped values; a [zip]
    object is not among the types it writes. *)
Definition json_encodable (d : TaskData) : bool :=
  match d with
  | DataDict _ => true
  | DataZip _ _ => false
  end.

Inductive RemoteCall :=
| GetParams
| GetPaginatedTasks (page page_size : nat)
| ImportTasksFile (file : string)
| ImportTasks (new_tasks : list NewTask)
| UpdateTask (id : Z) (meta_rowid : list Z).

(** The remote project behind [self.project], taken as already resolved.
    [import_file_ids] is the list of ids [import_tasks(file)] answers with,
    given the calls issued so far.  A request that reaches the service is
    taken to return. *)
Record Project := mkProject {
  title : string;
  label_config : string;
  get_paginated_tasks : nat → nat → PageResult;
  import_file_ids : list RemoteCall → string → list Z
}.

(** ** Local side: the table adapter *)

Inductive ColExpr :=
| ColRef (col_name : string)
| LocalPath (col_name : string)
| FileUrl (col_name : string).

Record Row := mkRow { rowid : list Z; vals : list PyVal }.

Record Column := mkColumn { col_type : ColumnType; is_stored : bool }.

Inductive TableCall :=
| TGetName
| TColumnTypes
| TSelect (selection : list ColExpr)
| TBatchUpdate (updates : list (gmap string PyVal)).

(** What the source uses of a [Table].  [select_exec t sel] is the result
    of [_exec()] on [t.select] of the expressions [sel]: one row per table
    row, carrying its rowid and one value per expression. *)
Class TableAdapter (Table : Type) := {
  get_name : Table → string;
  columns : Table → gmap string Column;
  rowids : Table → list (list Z);
  select_exec : Table → list ColExpr → list Row;
  batch_update : Table → list (gmap string PyVal) → Table;
  select_rowids : ∀ t sel, rowid <$> select_exec t sel = rowids t;
  select_vals_length : ∀ t sel row,
    row ∈ select_exec t sel → length (vals row) = length sel
}.

(** ** The world and its monad *)

Inductive LogEvent :=
| InfoSyncing (project_title table_name : string) (push pull : bool)
| WarnSkipped (unknown_task_count : nat) (project_title : string)
| InfoUpdating (table_name annotations_column : string) (n : nat)
| PrintSynced (annotations_count n : nat) (repr : string)
| PrintCreated (tasks_created : nat) (repr : string).

Record World (Table : Type) := mkWorld {
  remote_calls : list RemoteCall;
  table_calls : list TableCall;
  log : list LogEvent;
  tbl : Table
}.
Arguments mkWorld {Table} remote_calls table_calls log tbl.
Arguments remote_calls {Table} w.
Arguments table_calls {Table} w.
Arguments log {Table} w.
Arguments tbl {Table} w.

(** A computation runs from a world to a world and either returns or raises;
    what was done before an exception stays done. *)
Definition M (Table A : Type) : Type := World Table → World Table * Result A.

#[global] Instance M_ret {Table} : MRet (M Table) :=
  λ A a w, (w, Ok a).

#[global] Instance M_bind {Table} : MBind (M Table) :=
  λ A B k m w,
    match m w with
    | (w', Ok a) => k a w'
    | (w', Raise e) => (w', Raise e)
    end.

Definition raise {Table A} (e : Exn) : M Table A := λ w, (w, Raise e).

Definition lift {Table A} (r : Result A) : M Table A := λ w, (w, r).

Definition remote {Table} (c : RemoteCall) : M Table unit :=
  λ w, (mkWorld (remote_calls w ++ [c]) (table_calls w) (log w) (tbl w), Ok tt).

Definition table_call {Table} (c : TableCall) : M Table unit :=
  λ w, (mkWorld (remote_calls w) (table_calls w ++ [c]) (log w) (tbl w), Ok tt).

Definition emit {Table} (ev : LogEvent) : M Table unit :=
  λ w, (mkWorld (remote_calls w) (table_calls w) (log w ++ [ev]) (tbl w), Ok tt).

Definition get_world {Table} : M Table (World Table) := λ w, (w, Ok w).

(** [project.import_tasks(tasks)] on a list of task records.  The client
    posts the list as the JSON body of one request, and the body is encoded
    before anything is sent: a record that [json.dumps] cannot write makes
    the call raise [TypeError] with no request issued. *)
Definition import_tasks {Table} (new_tasks : list NewTask) : M Table unit :=
  if forallb (λ task, json_encodable (new_data task)) new_tasks
  then remote (ImportTasks new_tasks)
  else raise TypeError.

Definition set_tbl {Table} (t : Table) : M Table unit :=
  λ w, (mkWorld (remote_calls w) (table_calls w) (log w) t, Ok tt).

(** [for x in l: f x] *)
Fixpoint for_each {Table A} (f : A → M Table unit) (l : list A) : M Table unit :=
  match l with
  | [] => mret tt
  | x :: rest => f x;; for_each f rest
  end.

(** [[f x for x in l]] *)
Fixpoint map_m {Table A B} (f : A → M Table B) (l : list A) : M Table (list B) :=
  match l with
  | [] => mret []
  | x :: rest => y ← f x; ys ← map_m f rest; mret (y :: ys)
  end.

Fixpoint map_result {A B} (f : A → Result B) (l : list A) : Result (list B) :=
  match l with
  | [] => Ok []
  | x :: rest =>
      result_bind (f x) (λ y,
        result_bind (map_result f rest) (λ ys, Ok (y :: ys)))
  end.

(** ** Python helpers *)

(** [l[i]] *)
Definition list_get {A} (l : list A) (i : nat) : Result A :=
  match l !! i with
  | Some x => Ok x
  | None => Raise IndexError
  end.

(** [l[-1]] *)
Definition list_last {A} (l : list A) : Result A :=
  match last l with
  | Some x => Ok x
  | None => Raise IndexError
  end.

(** [d[k]] for a dict *)
Definition dict_get {V} (d : gmap string V) (k : string) : Result V :=
  match d !! k with
  | Some v => Ok v
  | None => Raise (KeyError k)
  end.

(** A [dict[str, str]] in insertion order, as its list of items (keys are
    distinct); [items_get d k] is [d[k]]. *)
Fixpoint items_get (d : list (string * string)) (k : string) : Result string :=
  match d with
  | [] => Raise (KeyError k)
  | (k', v) :: rest => if String.eqb k' k then Ok v else items_get rest k
  end.

(** [next(k for k, v in d.items() if v == x)] *)
Fixpoint next_key_of (d : list (string * string)) (x : string) : Result string :=
  match d with
  | [] => Raise StopIteration
  | (k, v) :: rest => if String.eqb v x then Ok k else next_key_of rest x
  end.

(** [v.startswith(p)]: only a [str] has the method. *)
Definition py_startswith (v : PyVal) (p : string) : Result bool :=
  match v with
  | VStr s => Ok (Str.startswith p s)
  | _ => Raise AttributeError
  end.

(** [Path(v)] *)
Definition py_path (v : PyVal) : Result string :=
  match v with
  | VStr s => Ok s
  | _ => Raise TypeError
  end.

(** [more_itertools.batched(l, n)]: consecutive chunks of [n] items, the last
    one possibly shorter. *)
Fixpoint batched_aux {A} (fuel n : nat) (l : list A) : list (list A) :=
  match fuel, l with
  | S fuel', _ :: _ => take n l :: batched_aux fuel' n (drop n l)
  | _, _ => []
  end.

Definition batched {A} (l : list A) (n : nat) : list (list A) :=
  batched_aux (length l) n l.

(** ** [LabelStudioProject] *)

Definition not_stored_error (col_name : string) : string :=
  "Media column linked to a `LabelStudioProject` is not a stored column: `"
    +:+ col_name +:+ "`".

Definition local_media_error : string :=
  "Cannot use locally stored media files in a `LabelStudioProject` with more than one "
    +:+ "field. (This is a limitation of Label Studio; see warning here: "
    +:+ "https://labelstud.io/guide/tasks.html)".

(** [task['meta']['rowid']] *)
Definition meta_rowid_item (task : Task) : Result PyVal :=
  match meta_rowid task with
  | RowidAbsent => Raise (KeyError "rowid")
  | RowidNull => Ok VNone
  | RowidVal r => Ok (VList (VInt <$> r))
  end.

(** [tuple(task['meta']['rowid'])] *)
Definition meta_rowid_tuple (task : Task) : Result (list Z) :=
  match meta_rowid task with
  | RowidAbsent => Raise (KeyError "rowid")
  | RowidNull => Raise TypeError
  | RowidVal r => Ok r
  end.

(** The inner loop of [_get_all_tasks] over one page: the tasks yielded and
    the running count of unrecognized tasks. *)
Fixpoint page_loop (page_tasks : list Task) (unknown_task_count : nat)
  : list Task * nat :=
  match page_tasks with
  | [] => ([], unknown_task_count)
  | task :: rest =>
      match meta_rowid task with
      | RowidVal _ =>
          let '(ys, n) := page_loop rest unknown_task_count in (task :: ys, n)
      | _ => page_loop rest (S unknown_task_count)
      end
  end.

(** The element of the update list built for one task. *)
Definition update_record (annotations_column : string) (task : Task)
  : Result (gmap string PyVal) :=
  result_bind (meta_rowid_item task) (λ r,
    Ok (py_dict
          [("_rowid", r);
           (annotations_column,
            if (0 <? length (annotations task))%nat
            then VList (annotations task) else VNone)])).

Section LabelStudioProject.

Context {Table : Type} `{TableAdapter Table}.

(** [ColumnType.is_media_type] and [ElementTree.fromstring] *)
Variable is_media_type : ColumnType → bool.
Variable fromstring : string → Result Element.

(** [self.project] *)
Variable project : Project.

Local Abbreviation M := (M Table).

(** [self.project.get_params()] *)
Definition get_params : M Project :=
  remote GetParams;; mret project.

Definition project_title : M string :=
  params ← get_params; mret (title params).

(** [__repr__] *)
Definition repr : M string :=
  params ← get_params;
  mret ("LabelStudioProject `" +:+ title params +:+ "`").

Definition get_push_columns : M (gmap string ColumnType) :=
  params ← get_params;
  lift (_parse_project_config fromstring (label_config params)).

(** Table accessors: [t.get_name()], [t.column_types()], [t[col_name]],
    the execution of a select, [t.batch_update(updates)]. *)
Definition t_get_name : M string :=
  table_call TGetName;; w ← get_world; mret (get_name (tbl w)).

Definition t_column_types : M (gmap string ColumnType) :=
  table_call TColumnTypes;; w ← get_world; mret (col_type <$> columns (tbl w)).

Definition t_getitem (col_name : string) : M Column :=
  w ← get_world;
  match columns (tbl w) !! col_name with
  | Some col => mret col
  | None => raise AttributeError
  end.

Definition t_select (selection : list ColExpr) : M (list Row) :=
  table_call (TSelect selection);;
  w ← get_world; mret (select_exec (tbl w) selection).

Definition t_batch_update (updates : list (gmap string PyVal)) : M unit :=
  table_call (TBatchUpdate updates);;
  w ← get_world; set_tbl (batch_update (tbl w) updates).

(** *** Task enumerator *)

(** The [while True] loop of [_get_all_tasks], run for at most [fuel] page
    requests; [None] when the fuel runs out before the service signals the
    end of pagination. *)
Fixpoint pages_loop (fuel page unknown_task_count : nat)
  : M (option (list Task * nat)) :=
  match fuel with
  | O => mret None
  | S fuel' =>
      remote (GetPaginatedTasks page _PAGE_SIZE);;
      let result := get_paginated_tasks project page _PAGE_SIZE in
      if end_pagination result then mret (Some ([], unknown_task_count))
      else
        let '(ys, n) := page_loop (tasks result) unknown_task_count in
        r ← pages_loop fuel' (S page) n;
        mret (match r with
              | Some (ys', n') => Some (ys ++ ys', n')
              | None => None
              end)
  end.

(** [list(self._get_all_tasks())] *)
Definition _get_all_tasks (fuel : nat) : M (option (list Task)) :=
  r ← pages_loop fuel 1 0;
  match r with
  | None => mret None
  | Some (ys, unknown_task_count) =>
      (if (0 <? unknown_task_count)%nat
       then t ← project_title; emit (WarnSkipped unknown_task_count t)
       else mret tt);;
      mret (Some ys)
  end.

(** *** Pull merger *)

Definition _update_table_from_tasks
    (col_mapping : list (string * string)) (tasks : list Task) : M unit :=
  if negb (bool_decide (ANNOTATIONS_COLUMN ∈ col_mapping.*2)) then
    raise AssertionError
  else
    annotations_column ← lift (next_key_of col_mapping ANNOTATIONS_COLUMN);
    updates ← lift (map_result (update_record annotations_column) tasks);
    if (0 <? length updates)%nat then
      name ← t_get_name;
      emit (InfoUpdating name annotations_column (length updates));;
      t_batch_update updates;;
      let annotations_count := sum_list ((λ task, length (annotations task)) <$> tasks) in
      r ← repr;
      emit (PrintSynced annotations_count (length updates) r)
    else mret tt.

(** *** Push reconciler *)

(** The comprehension computing [t_push_cols]: its condition calls
    [self.get_push_columns()] once per item of [col_mapping]. *)
Fixpoint select_push_cols (items : list (string * string)) : M (list string) :=
  match items with
  | [] => mret []
  | (t_col_name, r_col_name) :: rest =>
      push_columns ← get_push_columns;
      cols ← select_push_cols rest;
      mret (match push_columns !! r_col_name with
            | Some _ => t_col_name :: cols
            | None => cols
            end)
  end.

(** The body of the loop checking that media columns are stored. *)
Definition check_stored (t_col_types : gmap string ColumnType) (col_name : string)
  : M unit :=
  ty ← lift (dict_get t_col_types col_name);
  if is_media_type ty then
    col ← t_getitem col_name;
    if negb (is_stored col) then raise (Error (not_stored_error col_name))
    else mret tt
  else mret tt.

(** The single-media path: the body of the loop over the rows, threading
    [tasks_created]. *)
Definition upload_row (row_ids_in_ls : gset (list Z)) (tasks_created : nat) (row : Row)
  : M nat :=
  if bool_decide (rowid row ∉ row_ids_in_ls) then
    file ← lift (result_bind (list_last (vals row)) py_path);
    w ← get_world;
    remote (ImportTasksFile file);;
    task_id ← lift (list_get (import_file_ids project (remote_calls w) file) 0);
    remote (UpdateTask task_id (rowid row));;
    mret (S tasks_created)
  else mret tasks_created.

Fixpoint upload_rows (row_ids_in_ls : gset (list Z)) (tasks_created : nat)
    (rows : list Row) : M nat :=
  match rows with
  | [] => mret tasks_created
  | row :: rest =>
      n ← upload_row row_ids_in_ls tasks_created row;
      upload_rows row_ids_in_ls n rest
  end.

(** The general path: one entry of [selection]. *)
Definition select_expr (t_col_types : gmap string ColumnType) (col_name : string)
  : M ColExpr :=
  ty ← lift (dict_get t_col_types col_name);
  _ ← t_getitem col_name;
  mret (if is_media_type ty then FileUrl col_name else ColRef col_name).

(** The general path: the loop over [range(len(row.vals))], from index [i]
    on, over the values not yet visited. *)
Fixpoint validate_vals (t_push_cols : list string) (i : nat) (rest : list PyVal)
  : M unit :=
  match rest with
  | [] => mret tt
  | v :: rest' =>
      col_name ← lift (list_get t_push_cols i);
      col ← t_getitem col_name;
      (if is_media_type (col_type col) then
         is_local ← lift (py_startswith v "file://");
         if is_local : bool then raise (Error local_media_error) else mret tt
       else mret tt : M unit);;
      validate_vals t_push_cols (S i) rest'
  end.

(** The general path: the body of the loop over the rows of a page, giving
    the task record appended to [tasks]. *)
Definition make_task (t_push_cols r_push_cols : list string) (row : Row)
  : M NewTask :=
  validate_vals t_push_cols 0 (vals row);;
  mret (mkNewTask (DataZip r_push_cols (vals row)) (rowid row)).

Definition push_page (t_push_cols r_push_cols : list string) (page : list Row)
  : M unit :=
  new_tasks ← map_m (make_task t_push_cols r_push_cols) page;
  import_tasks new_tasks.

Definition _create_tasks_from_table
    (col_mapping : list (string * string)) (existing_tasks : list Task) : M unit :=
  ids ← lift (map_result meta_rowid_tuple existing_tasks);
  let row_ids_in_ls : gset (list Z) := list_to_set ids in
  t_col_types ← t_column_types;
  t_push_cols ← select_push_cols col_mapping;
  r_push_cols ← lift (map_result (items_get col_mapping) t_push_cols);
  for_each (check_stored t_col_types) t_push_cols;;
  single_media ←
    match t_push_cols return M bool with
    | [col_name] =>
        ty ← lift (dict_get t_col_types col_name); mret (is_media_type ty)
    | _ => mret false
    end;
  if single_media : bool then
    col_name ← lift (list_get t_push_cols 0);
    _ ← t_getitem col_name;
    rows ← t_select [ColRef col_name; LocalPath col_name];
    tasks_created ← upload_rows row_ids_in_ls 0 rows;
    r ← repr;
    emit (PrintCreated tasks_created r)
  else
    selection ← map_m (select_expr t_col_types) t_push_cols;
    rows ← t_select selection;
    let new_rows := filter (λ row, rowid row ∉ row_ids_in_ls) rows in
    for_each (push_page t_push_cols r_push_cols) (batched new_rows _PAGE_SIZE).

(** *** [sync] *)

Definition sync (fuel : nat) (col_mapping : list (string * string))
    (push pull : bool) : M (option unit) :=
  t ← project_title;
  name ← t_get_name;
  emit (InfoSyncing t name push pull);;
  r ← _get_all_tasks fuel;
  match r with
  | None => mret None
  | Some tasks =>
      (if pull then _update_table_from_tasks col_mapping tasks else mret tt);;
      (if push then _create_tasks_from_table col_mapping tasks else mret tt);;
      mret (Some tt)
  end.

End LabelStudioProject.

(** ** Vocabulary of the properties *)

(** The variable a child element declares, in the words of the design: its
    "value" attribute begins with the sigil; the name is the attribute
    without the sigil.  Paired with the element's tag. *)
Definition declared_var (e : Element) : option (string * string) :=
  match attrib e !! "value" with
  | Some v => if Str.startswith "$" v then Some (Str.tail v, tag e) else None
  | None => None
  end.

Definition declared_vars (root : Element) : list (string * string) :=
  omap declared_var (children root).

(** The type the fixed table gives a tag, letter case ignored. *)
Definition tag_type (tg : string) : option ColumnType :=
  _LS_TAG_MAP !! Str.lower tg.

(** A child element the parser gets past: no "value" attribute, a "value"
    that is not empty and carries no sigil, or a sigil and a mapped tag. *)
Definition element_passes (e : Element) : Prop :=
  match attrib e !! "value" with
  | None => True
  | Some v => v ≠ EmptyString ∧ (Str.startswith "$" v = true → is_Some (tag_type (tag e)))
  end.

(** A task carries a [meta.rowid]. *)
Definition has_rowid (task : Task) : bool :=
  match meta_rowid task with
  | RowidVal _ => true
  | _ => false
  end.

(** The rowids of the tasks a sequence of remote calls created: those of a
    bulk create, and those tagged onto an uploaded file's task. *)
Definition call_created_rowids (c : RemoteCall) : list (list Z) :=
  match c with
  | ImportTasks new_tasks => new_meta_rowid <$> new_tasks
  | UpdateTask _ r => [r]
  | _ => []
  end.

Definition created_rowids (calls : list RemoteCall) : list (list Z) :=
  concat (call_created_rowids <$> calls).

(** The number of tasks a sequence of remote calls created. *)
Definition call_created_count (c : RemoteCall) : nat :=
  match c with
  | ImportTasks new_tasks => length new_tasks
  | ImportTasksFile _ => 1
  | _ => 0
  end.

Definition created_count (calls : list RemoteCall) : nat :=
  sum_list (call_created_count <$> calls).

(** Calls that create or update a task. *)
Definition is_create_or_update (c : RemoteCall) : bool :=
  match c with
  | ImportTasksFile _ | ImportTasks _ | UpdateTask _ _ => true
  | _ => false
  end.

Definition is_batch_update (c : TableCall) : bool :=
  match c with
  | TBatchUpdate _ => true
  | _ => false
  end.


(** The paginated-tasks service of [project] serves the pages [pages], in
    this order from page 1 on, and signals the end of pagination on the
    request after the last of them. *)
Definition serves (project : Project) (pages : list (list Task)) : Prop :=
  (∀ i page_tasks, pages !! i = Some page_tasks →
     end_pagination (get_paginated_tasks project (S i) _PAGE_SIZE) = false
     ∧ tasks (get_paginated_tasks project (S i) _PAGE_SIZE) = page_tasks)
  ∧ end_pagination
      (get_paginated_tasks project (S (length pages)) _PAGE_SIZE) = true.

(** The number of tasks of the pages that lack a [meta.rowid]. *)
Definition dropped_count (pages : list (list Task)) : nat :=
  length (filter (λ task, ¬ has_rowid task) (concat pages)).

(** The page requests of a full scan of [n] pages. *)
Definition page_requests (first n : nat) : list RemoteCall :=
  (λ page, GetPaginatedTasks page _PAGE_SIZE) <$> seq first (S n).

(** ** Vocabulary of the push properties *)

(** A value that is a local-file reference. *)
Definition is_local_file (v : PyVal) : bool :=
  match v with
  | VStr s => Str.startswith "file://" s
  | _ => false
  end.

Definition is_str (v : PyVal) : bool :=
  match v with
  | VStr _ => true
  | _ => false
  end.

(** A value the test for local files lets through: a string that does not
    begin with [file://]. *)
Definition is_remote_ref (v : PyVal) : bool :=
  is_str v && negb (is_local_file v).

(** The test for local files over the media values it visits, in order:
    the first value that is not a string has no [startswith], the first
    string that begins with [file://] is refused. *)
Fixpoint media_check (vs : list PyVal) : Result unit :=
  match vs with
  | [] => Ok tt
  | v :: rest =>
      result_bind (py_startswith v "file://") (λ is_local : bool,
        if is_local then Raise (Error local_media_error) else media_check rest)
  end.

(** The rowids the enumerated tasks carry (the set S). *)
Definition remote_rowids (existing_tasks : list Task) : list (list Z) :=
  omap (λ task, match meta_rowid task with
                | RowidVal r => Some r
                | _ => None
                end) existing_tasks.

(** The local rowids without a remote counterpart (L minus S), in table
    order. *)
Definition missing_rowids {Table : Type} `{TableAdapter Table}
    (t : Table) (existing_tasks : list Task) : list (list Z) :=
  filter (λ rid, rid ∉ remote_rowids existing_tasks) (rowids t).

(** The push column set: the items of the column mapping whose remote name
    the project's schema declares. *)
Definition push_cols (push_columns : gmap string ColumnType)
    (col_mapping : list (string * string)) : list (string * string) :=
  filter (λ kv, is_Some (push_columns !! kv.2)) col_mapping.

Section PushVocabulary.

Context {Table : Type} `{TableAdapter Table}.
Variable is_media_type : ColumnType → bool.
Variable t : Table.

(** The column [c] of the table is backed by a media type. *)
Definition column_is_media (c : string) : bool :=
  match columns t !! c with
  | Some col => is_media_type (col_type col)
  | None => false
  end.

(** The column [c] is a media column that is not stored. *)
Definition column_not_stored (c : string) : bool :=
  match columns t !! c with
  | Some col => is_media_type (col_type col) && negb (is_stored col)
  | None => false
  end.

(** Exactly one push column, and it is a media column. *)
Definition single_media (t_push_cols : list string) : bool :=
  match t_push_cols with
  | [c] => column_is_media c
  | _ => false
  end.

(** What the general path selects: the URL projection of a media column,
    the value of any other column. *)
Definition push_selection (t_push_cols : list string) : list ColExpr :=
  (λ c, if column_is_media c then FileUrl c else ColRef c) <$> t_push_cols.

(** The media-column projections of a row, in the order in which the
    validation loop visits them. *)
Definition media_vals (t_push_cols : list string) (row : Row) : list PyVal :=
  (filter (λ cv, Is_true (column_is_media cv.1)) (zip t_push_cols (vals row))).*2.

(** The rows the general path has left to push. *)
Definition new_rows (t_push_cols : list string) (existing_tasks : list Task)
  : list Row :=
  filter (λ row, rowid row ∉ remote_rowids existing_tasks)
    (select_exec t (push_selection t_push_cols)).

(** What the general path ends with, given the rows it has left to push:
    it returns when there is none; otherwise the first batch decides, by the
    test for local files or, when the batch passes it, by the bulk create. *)
Definition general_outcome (t_push_cols : list string) (rows : list Row)
  : Result unit :=
  match rows with
  | [] => Ok tt
  | _ :: _ =>
      match media_check (take _PAGE_SIZE rows ≫= media_vals t_push_cols) with
      | Ok _ => Raise TypeError
      | Raise e => Raise e
      end
  end.

End PushVocabulary.

(** The task record of a row: under ['data'] the [zip] object over the
    remote field names and the row's projected values, and the row's rowid
    as meta. *)
Definition task_of_row (r_push_cols : list string) (row : Row) : NewTask :=
  mkNewTask (DataZip r_push_cols (vals row)) (rowid row).

(** The world [w] after the further remote calls [calls]. *)
Definition add_remote {Table : Type} (w : World Table) (calls : list RemoteCall)
  : World Table :=
  mkWorld (remote_calls w ++ calls) (table_calls w) (log w) (tbl w).

(** The world [w] after the further table calls [calls]. *)
Definition add_table_calls {Table : Type} (w : World Table) (calls : list TableCall)
  : World Table :=
  mkWorld (remote_calls w) (table_calls w ++ calls) (log w) (tbl w).

(** The bulk create call for a page of rows. *)
Definition import_page (r_push_cols : list string) (page : list Row) : RemoteCall :=
  ImportTasks (task_of_row r_push_cols <$> page).

(** Case analysis on the run of a bind: [lem] is the inversion lemma of
    bind. *)
Ltac bind_inv_with lem H :=
  let w1 := fresh "w" in
  let a := fresh "a" in
  let e := fresh "e" in
  let Hm := fresh "Hm" in
  let Hr := fresh "Hr" in
  apply lem in H as [(w1 & a & Hm & H)|(e & Hm & Hr)];
  [|first [ match type of Hr with ?x = _ => is_var x; subst x end
          | injection Hr as ->
          | idtac ]].

(** What a push leaves behind, whatever its outcome [r]: the remote calls
    [new] it added create tasks for an initial part of the missing rowids,
    in order; for all of them when the push returns; and there is no create
    or update call among them when no rowid is missing.  The table is not
    touched. *)
Definition push_outcome {Table : Type} `{TableAdapter Table}
    (existing_tasks : list Task) (w w' : World Table) (r : Result unit)
    (new : list RemoteCall) : Prop :=
  remote_calls w' = remote_calls w ++ new
  ∧ tbl w' = tbl w
  ∧ created_rowids new `prefix_of` missing_rowids (tbl w) existing_tasks
  ∧ (missing_rowids (tbl w) existing_tasks = [] →
     Forall (λ c, is_create_or_update c = false) new)
  ∧ (r = Ok tt →
     created_rowids new = missing_rowids (tbl w) existing_tasks
     ∧ created_count new = length (missing_rowids (tbl w) existing_tasks)).

(** The world after the part of a push that reads only: the column types
    were asked for once and the project parameters once per item of the
    column mapping. *)
Definition after_push_reads {Table : Type} (col_mapping : list (string * string))
    (w : World Table) : World Table :=
  add_remote (add_table_calls w [TColumnTypes])
    (replicate (length col_mapping) GetParams).

(** The world after the general path has selected its rows. *)
Definition after_general_select {Table : Type} `{TableAdapter Table}
    (is_media_type : ColumnType → bool) (col_mapping : list (string * string))
    (t_push_cols : list string) (w : World Table) : World Table :=
  add_table_calls (after_push_reads col_mapping w)
    [TSelect (push_selection is_media_type (tbl w) t_push_cols)].

(** Closing a decidable goal by evaluation. *)
Ltac by_decide := apply (bool_decide_unpack _); vm_compute; exact I.

(** Unfolding the monad's operations. *)
Ltac unfold_m :=
  unfold mbind, mret, M_bind, M_ret, raise, lift, remote, table_call, emit,
    get_world, set_tbl.

Ltac unfold_m_in H :=
  unfold mbind, mret, M_bind, M_ret, raise, lift, remote, table_call, emit,
    get_world, set_tbl in H.

(** The world a pull leaves behind, given the update list it computed: [w]
    itself when the list is empty. *)
Definition after_pull {Table : Type} `{TableAdapter Table} (project : Project)
    (col : string) (tasks : list Task)
    (updates : list (gmap string PyVal)) (w : World Table) : World Table :=
  match updates with
  | [] => w
  | _ =>
      mkWorld (remote_calls w ++ [GetParams])
        (table_calls w ++ [TGetName; TBatchUpdate updates])
        (log w ++ [InfoUpdating (get_name (tbl w)) col (length updates);
                   PrintSynced
                     (sum_list ((λ task, length (annotations task)) <$> tasks))
                     (length updates)
                     ("LabelStudioProject `" +:+ title project +:+ "`")])
        (batch_update (tbl w) updates)
  end.

(** ** A table adapter over a list of rows *)

(** A table held as a list of rows, each with its rowid and its cells, a cell
    for every projection of every column. *)
Record ListTable := mkListTable {
  lt_name : string;
  lt_columns : gmap string Column;
  lt_rows : list (list Z * (ColExpr → PyVal))
}.

(** The row coordinate an update record carries under its "_rowid" key. *)
Definition record_rowid (u : gmap string PyVal) : option (list Z) :=
  match u !! "_rowid" with
  | Some (VList l) =>
      mapM (λ v, match v with VInt z => Some z | _ => None end) l
  | _ => None
  end.

(** One update record applied to one row: the columns the record names are
    overwritten when the rowids agree. *)
Definition lt_apply (row : list Z * (ColExpr → PyVal)) (u : gmap string PyVal)
  : list Z * (ColExpr → PyVal) :=
  if decide (record_rowid u = Some row.1) then
    (row.1,
     λ e, match e with
          | ColRef c => default (row.2 e) (u !! c)
          | _ => row.2 e
          end)
  else row.

#[global] Instance list_table_adapter : TableAdapter ListTable.
Proof.
  refine {|
    get_name := lt_name;
    columns := lt_columns;
    rowids := λ t, (lt_rows t).*1;
    select_exec := λ t sel, (λ r, mkRow r.1 (r.2 <$> sel)) <$> lt_rows t;
    batch_update := λ t updates,
      mkListTable (lt_name t) (lt_columns t)
        ((λ r, foldl lt_apply r updates) <$> lt_rows t)
  |}.
  - intros t sel. by rewrite <- list_fmap_compose.
  - intros t sel row [r [-> _]]%list_elem_of_fmap. simpl. apply length_fmap.
Defined.

(** ** Sample inputs *)

Module Sample.

(** The config of the design's example, and the tree the XML parser gives
    for it. *)
Definition config_prompt_img : string :=
  "<View><Text value='$prompt'/><Image value='$img'/></View>".

Definition tree_prompt_img : Element :=
  mkElement "View" ∅
    [mkElement "Text" {["value" := "$prompt"]} [];
     mkElement "Image" {["value" := "$img"]} []].

(** A root tagged in lower case. *)
Definition tree_lower_view : Element :=
  mkElement "view" ∅ [mkElement "Text" {["value" := "$prompt"]} []].

(** A child whose "value" attribute is empty. *)
Definition tree_empty_value : Element :=
  mkElement "View" ∅ [mkElement "Text" {["value" := EmptyString]} []].

(** A parser that answers [root] whatever the string. *)
Definition parses_to (root : Element) : string → Result Element :=
  λ _, Ok root.

(** Remote tasks: two pages, two of the four tasks without a usable
    [meta.rowid]. *)
Definition task_1 : Task := mkTask 11 [] (RowidVal [1]) [].
Definition task_anon : Task := mkTask 12 [] RowidAbsent [].
Definition task_null : Task := mkTask 13 [] RowidNull [VStr "a"].
Definition task_4 : Task := mkTask 14 [] (RowidVal [4]) [VStr "a"; VStr "b"].

Definition two_pages : list (list Task) :=
  [[task_1; task_anon]; [task_null; task_4]].

Definition paged_service (pages : list (list Task)) (page page_size : nat)
  : PageResult :=
  match page with
  | O => mkPageResult true []
  | S i =>
      match pages !! i with
      | Some page_tasks => mkPageResult false page_tasks
      | None => mkPageResult true []
      end
  end.

Definition project_with (config : string) (pages : list (list Task)) : Project :=
  mkProject "demo" config (paged_service pages)
    (λ calls _, [Z.of_nat (length calls)]).

(** Media kinds. *)
Definition is_media (ty : ColumnType) : bool :=
  match kind ty with
  | ImageKind | VideoKind | AudioKind => true
  | _ => false
  end.

(** Cells of a row: a value, a cached local path and a public URL per
    column. *)
Definition cells (n : string) : ColExpr → PyVal :=
  λ e, match e with
       | ColRef c => VStr (c +:+ "-" +:+ n)
       | LocalPath c => VStr ("/media/" +:+ c +:+ "-" +:+ n)
       | FileUrl c => VStr ("https://host/" +:+ c +:+ "-" +:+ n)
       end.

(** Cells of a row whose media live in local files only. *)
Definition local_cells (n : string) : ColExpr → PyVal :=
  λ e, match e with
       | FileUrl c => VStr ("file:///media/" +:+ c +:+ "-" +:+ n)
       | _ => cells n e
       end.

Definition four_rows : list (list Z * (ColExpr → PyVal)) :=
  [([1], cells "1"); ([2], cells "2"); ([3], cells "3"); ([4], cells "4")].

Definition table_columns : gmap string Column :=
  <["clip" := mkColumn VideoType false]>
    (<["ann" := mkColumn (JsonType true) true]>
       (<["img" := mkColumn ImageType true]>
          (<["prompt" := mkColumn StringType true]> ∅))).

Definition table_4 : ListTable := mkListTable "t" table_columns four_rows.

Definition world_4 : World ListTable := mkWorld [] [] [] table_4.

(** Remote tasks for the rows 1 to 3. *)
Definition three_tasks : list Task :=
  [mkTask 21 [] (RowidVal [1]) [];
   mkTask 22 [] (RowidVal [2]) [VStr "a"];
   mkTask 23 [] (RowidVal [3]) []].

Definition mapping_prompt_img : list (string * string) :=
  [("prompt", "prompt"); ("img", "img"); ("ann", "annotations")].

(** The schema the config of the design's example declares. *)
Definition schema_prompt_img : gmap string ColumnType :=
  <["img" := ImageType]> {["prompt" := StringType]}.

(** A config that declares a text and a video variable, the column mapping
    for it, and its schema. *)
Definition tree_prompt_clip : Element :=
  mkElement "View" ∅
    [mkElement "Text" {["value" := "$prompt"]} [];
     mkElement "Video" {["value" := "$clip"]} []].

Definition mapping_prompt_clip : list (string * string) :=
  [("prompt", "prompt"); ("clip", "clip")].

Definition schema_prompt_clip : gmap string ColumnType :=
  <["clip" := VideoType]> {["prompt" := StringType]}.

(** The table of four rows, the media of row 4 in local files only. *)
Definition table_local : ListTable :=
  mkListTable "t" table_columns
    [([1], cells "1"); ([2], cells "2"); ([3], cells "3");
     ([4], local_cells "4")].

Definition world_local : World ListTable := mkWorld [] [] [] table_local.

(** The table of four rows, row 4 without a media value. *)
Definition null_cells (n : string) : ColExpr → PyVal :=
  λ e, match e with
       | ColRef "img" | LocalPath "img" | FileUrl "img" => VNone
       | _ => cells n e
       end.

Definition table_null : ListTable :=
  mkListTable "t" table_columns
    [([1], cells "1"); ([2], cells "2"); ([3], cells "3");
     ([4], null_cells "4")].

Definition world_null : World ListTable := mkWorld [] [] [] table_null.

End Sample.

(** ** The project handle *)

(** The rest of the class: the object's own state and its serialization.
    The functions above run against the project once it is resolved; the
    resolution itself is [LSHandle.project]. *)
Module LSHandle.

(** What [ls_client.get_project] does with a request: it answers with the
    project, raises [HTTPError], or raises something else. *)
Inductive ClientResult :=
| Found (p : Project)
| HTTPError
| OtherError (e : Exn).

(** The object: [self.project_id] and the memo [self._project]. *)
Record Handle := mkHandle { project_id : PyVal; _project : option Project }.

(** [__init__] *)
Definition init (project_id : PyVal) : Handle := mkHandle project_id None.

Section Client.

(** [ls_client.get_project], given the ids requested so far, and the
    formatting of a value inside an f-string. *)
Variable get_project : list PyVal → PyVal → ClientResult.
Variable py_str : PyVal → string.

Definition locate_error (project_id : PyVal) : string :=
  "Could not locate Label Studio project: " +:+ py_str project_id +:+ " "
    +:+ "(cannot connect to server or project no longer exists)".

(** The [project] property, on the object and the list of ids requested
    from the client so far. *)
Definition project (self : Handle) (requests : list PyVal)
  : Handle * list PyVal * Result Project :=
  match _project self with
  | None =>
      match get_project requests (project_id self) with
      | Found p =>
          (mkHandle (project_id self) (Some p),
           requests ++ [project_id self], Ok p)
      | HTTPError =>
          (self, requests ++ [project_id self],
           Raise (Error (locate_error (project_id self))))
      | OtherError e => (self, requests ++ [project_id self], Raise e)
      end
  | Some p => (self, requests, Ok p)
  end.

(** [n] accesses to the property in a row: the object and the requests
    after them, and the results in order. *)
Fixpoint accesses (n : nat) (self : Handle) (requests : list PyVal)
  : Handle * list PyVal * list (Result Project) :=
  match n with
  | O => (self, requests, [])
  | S n' =>
      let '(self1, requests1, r) := project self requests in
      let '(self2, requests2, rs) := accesses n' self1 requests1 in
      (self2, requests2, r :: rs)
  end.

End Client.

Definition to_dict (self : Handle) : gmap string PyVal :=
  {["project_id" := project_id self]}.

Definition from_dict (md : gmap string PyVal) : Result Handle :=
  result_bind (dict_get md "project_id") (λ v, Ok (init v)).

End LSHandle.

Definition get_pull_columns : gmap string ColumnType :=
  {[ANNOTATIONS_COLUMN := JsonType true]}.

(** ** Vocabulary of the further properties *)

(** An element without its children. *)
Definition prune (e : Element) : Element := mkElement (tag e) (attrib e) [].

Definition is_page_request (c : RemoteCall) : bool :=
  match c with
  | GetPaginatedTasks _ _ => true
  | _ => false
  end.

(** The world after a full scan of the pages [pages]. *)
Definition after_scan {Table : Type} (project : Project)
    (pages : list (list Task)) (w : World Table) : World Table :=
  mkWorld
    (remote_calls w ++ page_requests 1 (length pages)
       ++ (if (0 <? dropped_count pages)%nat then [GetParams] else []))
    (table_calls w)
    (log w ++ (if (0 <? dropped_count pages)%nat
               then [WarnSkipped (dropped_count pages) (title project)]
               else []))
    (tbl w).

(** The world in which [sync] starts its scan. *)
Definition after_sync_start {Table : Type} `{TableAdapter Table}
    (project : Project) (push pull : bool) (w : World Table) : World Table :=
  mkWorld (remote_calls w ++ [GetParams]) (table_calls w ++ [TGetName])
    (log w ++ [InfoSyncing (title project) (get_name (tbl w)) push pull])
    (tbl w).

(** The local path a row of the single-media path carries: its last
    value. *)
Definition local_path_of (row : Row) : option string :=
  match last (vals row) with
  | Some (VStr file) => Some file
  | _ => None
  end.

(** The two calls the single-media path makes for a row. *)
Definition upload_calls (file : string) (id : Z) (row : Row) : list RemoteCall :=
  [ImportTasksFile file; UpdateTask id (rowid row)].

(** The remote calls of the single-media path for the rows [rows], issued
    after the calls [history]: for each row in turn an upload of the row's
    local path, answered with at least one task id, and then an update that
    tags the task of the first id with the row's rowid. *)
Inductive uploads (project : Project)
  : list RemoteCall → list Row → list RemoteCall → Prop :=
| uploads_nil history : uploads project history [] []
| uploads_cons history row rows file id ids rest :
    local_path_of row = Some file →
    import_file_ids project history file = id :: ids →
    uploads project (history ++ upload_calls file id row) rows rest →
    uploads project history (row :: rows) (upload_calls file id row ++ rest).

(** ** Further sample inputs *)

Module MoreSamples.

(** A service whose first response already signals the end of pagination
    and still carries a task. *)
Definition project_ending : Project :=
  mkProject "demo" "<View/>"
    (λ _ _, mkPageResult true [Sample.task_1])
    (λ calls _, [Z.of_nat (length calls)]).

(** A service that never signals the end of pagination. *)
Definition project_endless : Project :=
  mkProject "demo" "<View/>"
    (λ _ _, mkPageResult false [Sample.task_1])
    (λ calls _, [Z.of_nat (length calls)]).

(** A service that answers an upload with no task id. *)
Definition project_no_ids : Project :=
  mkProject "demo" "<View/>" (Sample.paged_service []) (λ _ _, []).

Definition tree_img : Element :=
  mkElement "View" ∅ [mkElement "Image" {["value" := "$img"]} []].

Definition mapping_img : list (string * string) := [("img", "img")].

Definition schema_img : gmap string ColumnType := {["img" := ImageType]}.

(** A client that fails on the first request and finds the project from
    the second on. *)
Definition flaky_client (p : Project) : list PyVal → PyVal → LSHandle.ClientResult :=
  λ requests _,
    match requests with
    | [] => LSHandle.HTTPError
    | _ => LSHandle.Found p
    end.

Definition str_of (v : PyVal) : string :=
  match v with
  | VInt z => pretty z
  | _ => "?"
  end.

(** One page with a task for each of the rowids 1 to 4. *)
(** A table of a hundred and one rows; the media of the last row live in a
    local file only. *)
Definition table_101 : ListTable :=
  mkListTable "t" Sample.table_columns
    (((λ i, ([Z.of_nat i], Sample.cells "n")) <$> seq 1 100)
       ++ [([101], Sample.local_cells "n")]).

Definition world_101 : World ListTable := mkWorld [] [] [] table_101.

(** A table of two rows: the first without a media value, the media of the
    second in a local file only. *)
Definition table_null_local : ListTable :=
  mkListTable "t" Sample.table_columns
    [([1], Sample.null_cells "1"); ([2], Sample.local_cells "2")].

Definition world_null_local : World ListTable :=
  mkWorld [] [] [] table_null_local.

Definition page_all : list (list Task) :=
  [Sample.three_tasks ++ [Sample.task_4]].

End MoreSamples.

(** * Properties *)

(** ** Generic facts *)

Lemma py_dict_snoc {V} (l : list (string * V)) k v :
  py_dict (l ++ [(k, v)]) = <[k := v]> (py_dict l).
Proof. unfold py_dict. by rewrite foldl_app. Qed.

Lemma py_dict_lookup_app {V} (l1 l2 : list (string * V)) k :
  k ∉ l2.*1 → py_dict (l1 ++ l2) !! k = py_dict l1 !! k.
Proof.
  induction l2 as [|[k' v'] l2 IH] using rev_ind; intros Hk.
  - by rewrite app_nil_r.
  - rewrite fmap_app in Hk. apply not_elem_of_app in Hk as [Hk1 Hk2].
    rewrite app_assoc, py_dict_snoc.
    rewrite lookup_insert_ne; [by apply IH|].
    intros ->. apply Hk2. simpl. by left.
Qed.

Lemma py_dict_lookup_last {V} (pre post : list (string * V)) k v :
  k ∉ post.*1 → py_dict (pre ++ (k, v) :: post) !! k = Some v.
Proof.
  intros Hk. rewrite (cons_middle (k, v)), app_assoc.
  rewrite py_dict_lookup_app by done.
  rewrite py_dict_snoc. apply lookup_insert_eq.
Qed.

Lemma dom_py_dict {V} (l : list (string * V)) :
  dom (py_dict l) = list_to_set l.*1.
Proof.
  induction l as [|[k v] l IH] using rev_ind; [done|].
  rewrite py_dict_snoc, dom_insert_L, IH, fmap_app, list_to_set_app_L.
  simpl. set_solver.
Qed.

Lemma lower_View : Str.lower "View" = "view".
Proof. reflexivity. Qed.

(** ** Config parser *)

Section ConfigParserProperties.

Variable fromstring : string → Result Element.

Lemma parse_accepted config root :
  fromstring config = Ok root → tag root = "View" →
  _parse_project_config fromstring config
  = dict_of_gen (_extract_vars_from_project_config root).
Proof.
  intros Hp Ht. unfold _parse_project_config. rewrite Hp. simpl.
  rewrite Ht. reflexivity.
Qed.

(** The two tests on the root, one after the other.  A root whose tag is
    exactly [View] is accepted and parsing goes on to variable extraction; a
    root whose tag differs from [view] even when letter case is ignored fails
    with the schema error; a root whose tag matches only up to letter case
    passes the first test and then breaks the assertion that follows it. *)
Theorem parse_root_policy config root :
  fromstring config = Ok root →
  (tag root = "View" →
   _parse_project_config fromstring config
   = dict_of_gen (_extract_vars_from_project_config root))
  ∧ (Str.lower (tag root) ≠ "view" →
     _parse_project_config fromstring config = Raise (Error root_error))
  ∧ (Str.lower (tag root) = "view" → tag root ≠ "View" →
     _parse_project_config fromstring config = Raise AssertionError).
Proof.
  intros Hp. split; [by apply parse_accepted|].
  unfold _parse_project_config. rewrite Hp. simpl. split.
  - intros Hne. apply String.eqb_neq in Hne. by rewrite Hne.
  - intros Heq Hne. apply String.eqb_eq in Heq. apply String.eqb_neq in Hne.
    by rewrite Heq, Hne.
Qed.

End ConfigParserProperties.

(** C3.  A root tagged [view] matches the required tag up to letter case;
    it passes the test that compares in lower case and then breaks the
    assertion [root.tag == 'View'], so parsing raises [AssertionError]
    instead of going on to variable extraction. *)
Lemma parse_lower_view_rejected :
  Str.lower (tag Sample.tree_lower_view) = "view"
  ∧ _parse_project_config (Sample.parses_to Sample.tree_lower_view) "<view/>"
    = Raise AssertionError.
Proof. split; reflexivity. Qed.

Lemma parse_root_policy_witness :
  _parse_project_config (Sample.parses_to Sample.tree_prompt_img)
    Sample.config_prompt_img
  = dict_of_gen (_extract_vars_from_project_config Sample.tree_prompt_img).
Proof.
  apply (parse_root_policy (Sample.parses_to Sample.tree_prompt_img)
           Sample.config_prompt_img Sample.tree_prompt_img);
    reflexivity.
Defined.

(** *** Variable extraction *)

Lemma startswith_sigil c s :
  Str.startswith "$" (String c s) = Ascii.eqb c "$".
Proof.
  unfold Str.startswith.
  destruct c as [[] [] [] [] [] [] [] []]; try reflexivity.
  by destruct s.
Qed.

(** Away from empty "value" attributes, one iteration of the extraction loop
    does what the design says of the element. *)
Lemma extract_element_declared e :
  attrib e !! "value" ≠ Some EmptyString →
  extract_element e
  = match declared_var e with
    | None => Ok None
    | Some (name, tg) =>
        match tag_type tg with
        | Some ty => Ok (Some (name, ty))
        | None => Raise (Error (unsupported_error tg))
        end
    end.
Proof.
  intros Hne. unfold extract_element, declared_var, tag_type.
  destruct (attrib e !! "value") as [[|c s]|]; [done| |done].
  rewrite startswith_sigil. simpl.
  destruct (Ascii.eqb c "$"); [|done].
  by destruct (_LS_TAG_MAP !! Str.lower (tag e)).
Qed.

(** The generator over the declared variables alone. *)
Lemma extract_elements_all_mapped els :
  Forall (λ e, attrib e !! "value" ≠ Some EmptyString) els →
  Forall (λ nt, is_Some (tag_type nt.2)) (omap declared_var els) →
  raised (extract_elements els) = None
  ∧ Forall2 (λ (nt : string * string) (item : string * ColumnType),
               item.1 = nt.1 ∧ tag_type nt.2 = Some item.2)
      (omap declared_var els) (yielded (extract_elements els)).
Proof.
  induction 1 as [|e els Hne _ IH]; intros Hall; simpl.
  - split; [done|constructor].
  - rewrite (extract_element_declared e Hne). simpl in Hall.
    destruct (declared_var e) as [[name tg]|]; [|by apply IH].
    apply Forall_cons in Hall as [[ty Hty] Hall]. simpl in Hty.
    rewrite Hty. simpl. destruct (IH Hall) as [Hr Hy].
    split; [done|]. by constructor.
Qed.

Lemma Forall2_declared_split (vars : list (string * string))
    (items : list (string * ColumnType)) pre name tg post :
  Forall2 (λ nt item, item.1 = nt.1 ∧ tag_type nt.2 = Some item.2) vars items →
  vars = pre ++ (name, tg) :: post →
  ∃ ipre ty ipost,
    items = ipre ++ (name, ty) :: ipost
    ∧ tag_type tg = Some ty ∧ ipost.*1 = post.*1.
Proof.
  intros HF ->.
  apply Forall2_app_inv_l in HF as (ipre & irest & _ & HF & ->).
  apply Forall2_cons_inv_l in HF as ([n ty] & ipost & [Hn Hty] & HF & ->).
  simpl in *. subst n. exists ipre, ty, ipost. split_and!; [done..|].
  clear -HF. induction HF as [|?? ?? [Hx _] _ IH]; [done|]. simpl. by f_equal.
Qed.

Section ConfigParserVariables.

Variable fromstring : string → Result Element.

Lemma element_passes_extract e :
  element_passes e → ∃ o, extract_element e = Ok o.
Proof.
  unfold element_passes. intros Hpass.
  assert (attrib e !! "value" ≠ Some EmptyString) as Hne.
  { destruct (attrib e !! "value"); [|done]. destruct Hpass. congruence. }
  rewrite (extract_element_declared e Hne). unfold declared_var.
  destruct (attrib e !! "value") as [v|]; [|by eexists].
  destruct Hpass as [_ Hmapped].
  destruct (Str.startswith "$" v); [|by eexists].
  destruct (Hmapped eq_refl) as [ty ->]. by eexists.
Qed.

Lemma extract_elements_passes pre rest :
  Forall element_passes pre →
  raised (extract_elements (pre ++ rest)) = raised (extract_elements rest).
Proof.
  induction 1 as [|e pre Hpass _ IH]; [done|]. simpl.
  destruct (element_passes_extract e Hpass) as [[item|] ->]; by simpl.
Qed.

(** A child that declares a variable under a tag outside the table stops
    the extraction with the error naming its tag. *)
Lemma extract_element_unmapped e :
  is_Some (declared_var e) → tag_type (tag e) = None →
  extract_element e = Raise (Error (unsupported_error (tag e))).
Proof.
  intros [nt Hvar] Htag.
  assert (attrib e !! "value" ≠ Some EmptyString) as Hne.
  { unfold declared_var in Hvar. by destruct (attrib e !! "value") as [[|c v]|]. }
  rewrite (extract_element_declared e Hne).
  unfold declared_var in Hvar |- *.
  destruct (attrib e !! "value") as [v|]; [|done].
  destruct (Str.startswith "$" v); [|done]. by rewrite Htag.
Qed.

(** C8 (as amended).  For a tree with an accepted root: when no child has an
    empty "value" attribute and every declared variable has a mapped tag,
    parsing returns a mapping whose keys are exactly the declared names, each
    name mapped to the type of the tag of its last declaration, the tag
    looked up ignoring letter case; when a child declares a variable under
    an unmapped tag and the children before it are parsed without error,
    parsing raises the error naming that tag, whatever the children after it
    are. *)
Theorem parse_config_vars config root :
  fromstring config = Ok root →
  tag root = "View" →
  (Forall (λ e, attrib e !! "value" ≠ Some EmptyString) (children root) →
   Forall (λ nt, is_Some (tag_type nt.2)) (declared_vars root) →
   ∃ d, _parse_project_config fromstring config = Ok d
        ∧ dom d = list_to_set (declared_vars root).*1
        ∧ ∀ pre name tg post,
            declared_vars root = pre ++ (name, tg) :: post →
            name ∉ post.*1 →
            d !! name = tag_type tg)
  ∧ (∀ pre e post,
       children root = pre ++ e :: post →
       Forall element_passes pre →
       is_Some (declared_var e) →
       tag_type (tag e) = None →
       _parse_project_config fromstring config
       = Raise (Error (unsupported_error (tag e)))).
Proof.
  intros Hp Ht. rewrite (parse_accepted fromstring config root Hp Ht).
  unfold _extract_vars_from_project_config, dict_of_gen, declared_vars.
  split.
  - intros Hne Hall.
    destruct (extract_elements_all_mapped _ Hne Hall) as [Hr Hy].
    rewrite Hr. eexists. split; [done|]. split.
    + rewrite dom_py_dict. f_equal.
      clear -Hy. induction Hy as [|?? ?? [Hx _] _ IH]; [done|].
      simpl. by f_equal.
    + intros pre name tg post Hvars Hlast.
      destruct (Forall2_declared_split _ _ _ _ _ _ Hy Hvars)
        as (ipre & ty & ipost & -> & -> & Hpost).
      apply py_dict_lookup_last. by rewrite Hpost.
  - intros pre e post -> Hpre Hvar Htag.
    rewrite (extract_elements_passes pre (e :: post) Hpre). simpl.
    by rewrite (extract_element_unmapped e Hvar Htag).
Qed.

Lemma extract_elements_raised els e :
  raised (extract_elements els) = Some e →
  e = IndexError ∨ ∃ tg, e = Error (unsupported_error tg).
Proof.
  induction els as [|el els IH]; [done|]. simpl.
  destruct (extract_element el) as [[item|]|e'] eqn:Hel; simpl; [done..|].
  intros [= ->]. unfold extract_element in Hel.
  destruct (attrib el !! "value") as [[|c s]|]; simplify_eq/=; [by left|].
  destruct (Ascii.eqb c "$"); [|done].
  destruct (_LS_TAG_MAP !! Str.lower (tag el)); simplify_eq. right. by eexists.
Qed.

(** C10.  With an accepted root: when no child has an empty "value"
    attribute, parsing returns a mapping or raises the unsupported-type
    error; when a child with an empty "value" attribute is reached (the
    children before it pass), reading the first character is out of range:
    parsing raises [IndexError], so the element is not skipped and the error
    is not a schema error. *)
Theorem parse_empty_value_index_error config root :
  fromstring config = Ok root →
  tag root = "View" →
  (Forall (λ e, attrib e !! "value" ≠ Some EmptyString) (children root) →
   (∃ d, _parse_project_config fromstring config = Ok d)
   ∨ (∃ tg, _parse_project_config fromstring config
            = Raise (Error (unsupported_error tg))))
  ∧ (∀ pre e post,
       children root = pre ++ e :: post →
       Forall element_passes pre →
       attrib e !! "value" = Some EmptyString →
       _parse_project_config fromstring config = Raise IndexError
       ∧ (∀ d, _parse_project_config fromstring config ≠ Ok d)
       ∧ (∀ msg, _parse_project_config fromstring config ≠ Raise (Error msg))).
Proof.
  intros Hp Ht. rewrite (parse_accepted fromstring config root Hp Ht).
  unfold _extract_vars_from_project_config, dict_of_gen. split.
  - intros Hne.
    destruct (raised (extract_elements (children root))) as [e|] eqn:Hr;
      [|left; by eexists].
    right. destruct (extract_elements_raised _ _ Hr) as [->|[tg ->]];
      [|by eexists].
    exfalso. clear -Hne Hr.
    induction Hne as [|el els Hel _ IH]; [done|]. simpl in Hr.
    rewrite (extract_element_declared el Hel) in Hr.
    destruct (declared_var el) as [[name tg]|]; [|by apply IH].
    destruct (tag_type tg); simpl in Hr; [by apply IH|done].
  - intros pre e post -> Hpre Hempty.
    rewrite (extract_elements_passes pre (e :: post) Hpre). simpl.
    unfold extract_element. rewrite Hempty. simpl. done.
Qed.

End ConfigParserVariables.

Lemma parse_config_vars_witness :
  ∃ d, _parse_project_config (Sample.parses_to Sample.tree_prompt_img)
         Sample.config_prompt_img = Ok d
       ∧ d !! "prompt" = Some StringType ∧ d !! "img" = Some ImageType
       ∧ dom d = {["prompt"; "img"]}.
Proof.
  destruct (parse_config_vars (Sample.parses_to Sample.tree_prompt_img)
              Sample.config_prompt_img Sample.tree_prompt_img)
    as [Hok _].
  - reflexivity.
  - reflexivity.
  - destruct Hok as (d & Hd & Hdom & Hlook).
    + repeat constructor; by vm_compute.
    + apply (bool_decide_unpack _). by vm_compute.
    + exists d. split; [exact Hd|]. split_and!.
      * apply (Hlook [] "prompt" "Text" [("img", "Image")]); [reflexivity|].
        vm_compute. set_solver.
      * apply (Hlook [("prompt", "Text")] "img" "Image" []); [reflexivity|].
        vm_compute. set_solver.
      * rewrite Hdom. vm_compute. set_solver.
Defined.

(** C8, the claim as stated fails: the root is accepted and its one child
    declares no variable, so the mapping of the declared variables is the
    empty one; parsing returns no mapping, it raises [IndexError] at the
    empty "value" attribute. *)
Lemma parse_empty_value_no_mapping :
  tag Sample.tree_empty_value = "View"
  ∧ declared_vars Sample.tree_empty_value = []
  ∧ _parse_project_config (Sample.parses_to Sample.tree_empty_value) "<View/>"
    = Raise IndexError
  ∧ ∀ d, _parse_project_config (Sample.parses_to Sample.tree_empty_value)
           "<View/>" ≠ Ok d.
Proof. split_and!; [reflexivity..|done]. Qed.

Lemma parse_empty_value_index_error_witness :
  _parse_project_config (Sample.parses_to Sample.tree_empty_value) "<View/>"
  = Raise IndexError.
Proof.
  destruct (parse_empty_value_index_error
              (Sample.parses_to Sample.tree_empty_value) "<View/>"
              Sample.tree_empty_value eq_refl eq_refl) as [_ Hidx].
  apply (Hidx [] _ [] eq_refl); [constructor|reflexivity].
Defined.

(** ** Task enumerator *)

Lemma page_loop_filter page_tasks n :
  page_loop page_tasks n
  = (filter (λ task, has_rowid task) page_tasks,
     n + length (filter (λ task, ¬ has_rowid task) page_tasks))%nat.
Proof.
  revert n. induction page_tasks as [|task rest IH]; intros n; simpl.
  - by rewrite Nat.add_0_r.
  - rewrite !filter_cons.
    destruct (has_rowid task) eqn:Hh; unfold has_rowid in Hh;
      destruct (meta_rowid task); simplify_eq; rewrite IH; simpl;
      f_equal; lia.
Qed.

Section EnumeratorProperties.

Context {Table : Type}.
Variable project : Project.

Lemma pages_loop_scan (pages : list (list Task)) :
  ∀ (first n fuel : nat) (w : World Table),
    (∀ i page_tasks, pages !! i = Some page_tasks →
       end_pagination (get_paginated_tasks project (first + i) _PAGE_SIZE) = false
       ∧ tasks (get_paginated_tasks project (first + i) _PAGE_SIZE) = page_tasks) →
    end_pagination
      (get_paginated_tasks project (first + length pages) _PAGE_SIZE) = true →
    (length pages < fuel)%nat →
    pages_loop project fuel first n w
    = (mkWorld (remote_calls w ++ page_requests first (length pages))
         (table_calls w) (log w) (tbl w),
       Ok (Some (filter (λ task, has_rowid task) (concat pages),
                 (n + dropped_count pages)%nat))).
Proof.
  induction pages as [|page_tasks pages IH]; intros first n fuel w Hpages Hend Hfuel;
    (destruct fuel as [|fuel]; [simpl in Hfuel; lia|]); simpl.
  - unfold_m. simpl. rewrite Nat.add_0_r in Hend. rewrite Hend.
    unfold dropped_count. simpl. by rewrite Nat.add_0_r.
  - unfold_m. simpl.
    destruct (Hpages 0%nat page_tasks eq_refl) as [Hnot Htasks].
    rewrite Nat.add_0_r in Hnot, Htasks. rewrite Hnot, Htasks.
    rewrite page_loop_filter.
    rewrite (IH (S first) _ fuel).
    + simpl. unfold page_requests, dropped_count. simpl.
      rewrite <- app_assoc. simpl. rewrite !filter_app, length_app.
      by rewrite Nat.add_assoc.
    + intros i p Hi. replace (S first + i)%nat with (first + S i)%nat by lia.
      by apply Hpages.
    + simpl in Hend. by replace (S first + length pages)%nat
        with (first + S (length pages))%nat by lia.
    + simpl in Hfuel. lia.
Qed.

(** C2.  When the service serves the pages [pages] and then signals the end
    of pagination, the enumerator, given room for one request more than
    there are pages, returns exactly the tasks of the pages that carry a
    [meta.rowid], in page order and in the order within each page; the count
    of dropped tasks is the number of tasks without a [meta.rowid], and the
    log gains one warning carrying that count when it is positive and
    nothing when it is zero. *)
Theorem get_all_tasks_yields (pages : list (list Task)) (fuel : nat) (w : World Table) :
  serves project pages →
  (length pages < fuel)%nat →
  ∃ w',
    _get_all_tasks project fuel w
    = (w', Ok (Some (filter (λ task, has_rowid task) (concat pages))))
    ∧ log w'
      = log w ++ (if (0 <? dropped_count pages)%nat
                  then [WarnSkipped (dropped_count pages) (title project)]
                  else [])
    ∧ remote_calls w'
      = remote_calls w ++ page_requests 1 (length pages)
          ++ (if (0 <? dropped_count pages)%nat then [GetParams] else [])
    ∧ table_calls w' = table_calls w
    ∧ tbl w' = tbl w.
Proof.
  intros [Hpages Hend] Hfuel. unfold _get_all_tasks.
  unfold mbind at 1, M_bind at 1.
  rewrite (pages_loop_scan pages 1 0 fuel w); [|done..]. simpl.
  destruct (0 <? dropped_count pages)%nat; unfold project_title, get_params;
    unfold_m; simpl; eexists; (split; [reflexivity|]); simpl;
    rewrite ?app_nil_r, <- ?app_assoc; done.
Qed.

End EnumeratorProperties.

Lemma get_all_tasks_yields_witness :
  ∃ w', _get_all_tasks (Sample.project_with "<View/>" Sample.two_pages) 3
          (mkWorld [] [] [] tt)
        = (w', Ok (Some [Sample.task_1; Sample.task_4]))
        ∧ log w' = [WarnSkipped 2 "demo"].
Proof.
  destruct (get_all_tasks_yields
              (Sample.project_with "<View/>" Sample.two_pages)
              Sample.two_pages 3 (mkWorld [] [] [] tt))
    as (w' & Hrun & Hlog & _).
  - split; [|reflexivity].
    intros [|[|i]] page_tasks Hi; simplify_eq/=; done.
  - simpl. lia.
  - exists w'. split; [exact Hrun|exact Hlog].
Defined.

(** ** Pull merger *)

Lemma next_key_of_values (col_mapping : list (string * string)) x :
  x ∈ col_mapping.*2 →
  ∃ col, next_key_of col_mapping x = Ok col ∧ (col, x) ∈ col_mapping.
Proof.
  induction col_mapping as [|[k v] rest IH]; simpl; intros Hin.
  - by apply elem_of_nil in Hin.
  - destruct (String.eqb_spec v x) as [->|Hne].
    + exists k. split; [done|]. by left.
    + apply elem_of_cons in Hin as [Heq|Hin]; [by simplify_eq/=|].
      destruct (IH Hin) as (col & Hcol & Hmem). exists col.
      split; [done|]. by right.
Qed.

(** The value the annotations column gets for a task. *)
Lemma update_record_rowid col task r :
  meta_rowid task = RowidVal r →
  update_record col task
  = Ok (<[col := match annotations task with
                 | [] => VNone
                 | _ => VList (annotations task)
                 end]> {["_rowid" := VList (VInt <$> r)]}).
Proof.
  intros Hr. unfold update_record, meta_rowid_item. rewrite Hr. simpl.
  unfold py_dict. simpl. rewrite insert_empty. by destruct (annotations task).
Qed.

Lemma map_result_update_records col (tasks : list Task) :
  Forall (λ task, has_rowid task) tasks →
  ∃ updates,
    map_result (update_record col) tasks = Ok updates
    ∧ Forall2 (λ task u, update_record col task = Ok u) tasks updates.
Proof.
  induction 1 as [|task tasks Hrow _ (updates & Hmap & Hall)]; simpl.
  - exists []. split; [done|constructor].
  - unfold has_rowid in Hrow.
    destruct (meta_rowid task) as [| |r] eqn:Hr; try done.
    rewrite (update_record_rowid col task r Hr), Hmap. simpl.
    eexists. split; [done|]. constructor; [|done].
    by apply update_record_rowid.
Qed.

Lemma map_result_length {A B} (f : A → Result B) l l' :
  map_result f l = Ok l' → length l' = length l.
Proof.
  revert l'. induction l as [|x l IH]; intros l'; simpl; [by intros [= <-]|].
  destruct (f x); simpl; [|done].
  destruct (map_result f l) as [ys|]; simpl; [|done].
  intros [= <-]. simpl. f_equal. by apply IH.
Qed.

Section PullProperties.

Context {Table : Type} `{TableAdapter Table}.
Variable project : Project.

Lemma pull_run col_mapping tasks col updates (w : World Table) :
  ANNOTATIONS_COLUMN ∈ col_mapping.*2 →
  next_key_of col_mapping ANNOTATIONS_COLUMN = Ok col →
  map_result (update_record col) tasks = Ok updates →
  _update_table_from_tasks project col_mapping tasks w
  = (after_pull project col tasks updates w, Ok tt).
Proof.
  intros Hann Hcol Hupd. unfold _update_table_from_tasks.
  rewrite bool_decide_eq_true_2 by done. simpl.
  unfold_m. rewrite Hcol, Hupd.
  destruct updates as [|u updates]; [done|]. simpl.
  unfold t_get_name, t_batch_update, repr, get_params. unfold_m. simpl.
  by rewrite <- !app_assoc.
Qed.

End PullProperties.

Section PullClaims.

Context {Table : Type} `{TableAdapter Table}.
Variable project : Project.

(** C4.  For tasks that came out of the enumerator (each carries a rowid),
    with the annotations field among the values of the column mapping and no
    local column called [_rowid]: the update list has one record per task,
    in order; the record holds the task's rowid under [_rowid] and, under the
    annotations column, [None] when the task has no annotations and the
    literal list otherwise, and nothing else; the list does not depend on
    the world, so a second pull right after the first hands the table
    adapter the same update list. *)
Theorem pull_update_set col_mapping (tasks : list Task) :
  ANNOTATIONS_COLUMN ∈ col_mapping.*2 →
  "_rowid" ∉ col_mapping.*1 →
  Forall (λ task, has_rowid task) tasks →
  ∃ col updates,
    (col, ANNOTATIONS_COLUMN) ∈ col_mapping
    ∧ Forall2
        (λ task (u : gmap string PyVal),
           ∃ r, meta_rowid task = RowidVal r
                ∧ u !! "_rowid" = Some (VList (VInt <$> r))
                ∧ u !! col = Some (match annotations task with
                                   | [] => VNone
                                   | _ => VList (annotations task)
                                   end)
                ∧ dom u = {["_rowid"; col]})
        tasks updates
    ∧ ∀ w : World Table, ∃ w1 w2,
        _update_table_from_tasks project col_mapping tasks w = (w1, Ok tt)
        ∧ _update_table_from_tasks project col_mapping tasks w1 = (w2, Ok tt)
        ∧ table_calls w1
          = table_calls w ++ match tasks with
                             | [] => []
                             | _ => [TGetName; TBatchUpdate updates]
                             end
        ∧ table_calls w2
          = table_calls w1 ++ match tasks with
                              | [] => []
                              | _ => [TGetName; TBatchUpdate updates]
                              end.
Proof.
  intros Hann Hres Hrows.
  destruct (next_key_of_values col_mapping _ Hann) as (col & Hcol & Hmem).
  destruct (map_result_update_records col tasks Hrows) as (updates & Hmap & Hall).
  assert (col ≠ "_rowid") as Hne.
  { intros ->. apply Hres. apply list_elem_of_fmap. by exists ("_rowid", ANNOTATIONS_COLUMN). }
  exists col, updates. split; [done|]. split.
  - clear Hmap. induction Hall as [|task u tasks updates Hu _ IH]; [constructor|].
    apply Forall_cons in Hrows as [Hrow Hrows].
    constructor; [|by apply IH].
    unfold has_rowid in Hrow.
    destruct (meta_rowid task) as [| |r] eqn:Hr; try done.
    rewrite (update_record_rowid col task r Hr) in Hu. simplify_eq.
    exists r. split; [done|]. split_and!.
    + rewrite lookup_insert_ne by done. apply lookup_singleton_eq.
    + apply lookup_insert_eq.
    + rewrite dom_insert_L, dom_singleton_L. set_solver.
  - intros w.
    exists (after_pull project col tasks updates w),
      (after_pull project col tasks updates
         (after_pull project col tasks updates w)).
    rewrite !(pull_run project col_mapping tasks col updates) by done.
    split; [done|]. split; [done|].
    apply map_result_length in Hmap.
    destruct tasks, updates; simplify_eq/=; by rewrite ?app_nil_r.
Qed.

(** C9.  Once the update list is computed, the pull merger calls
    [batch_update] exactly once, with that list, when the list is not empty;
    when it is empty it makes no table call at all and leaves the world, the
    table included, as it was. *)
Theorem pull_batch_update_once col_mapping tasks col updates (w : World Table) :
  ANNOTATIONS_COLUMN ∈ col_mapping.*2 →
  next_key_of col_mapping ANNOTATIONS_COLUMN = Ok col →
  map_result (update_record col) tasks = Ok updates →
  ∃ w' new_calls,
    _update_table_from_tasks project col_mapping tasks w = (w', Ok tt)
    ∧ table_calls w' = table_calls w ++ new_calls
    ∧ (updates ≠ [] →
       filter (λ c, is_batch_update c) new_calls = [TBatchUpdate updates]
       ∧ tbl w' = batch_update (tbl w) updates)
    ∧ (updates = [] → new_calls = [] ∧ w' = w).
Proof.
  intros Hann Hcol Hmap.
  rewrite (pull_run project col_mapping tasks col updates) by done.
  destruct updates as [|u updates].
  - exists w, []. simpl. by rewrite app_nil_r.
  - eexists _, [TGetName; TBatchUpdate (u :: updates)].
    split; [done|]. split; [done|]. split; [|done]. intros _. by split.
Qed.

End PullClaims.

Lemma pull_update_set_witness :
  ∃ w1,
    _update_table_from_tasks (Sample.project_with "<View/>" [])
      Sample.mapping_prompt_img Sample.three_tasks Sample.world_4
    = (w1, Ok tt)
    ∧ table_calls w1
      = [TGetName;
         TBatchUpdate
           [<["ann" := VNone]> {["_rowid" := VList [VInt 1]]};
            <["ann" := VList [VStr "a"]]> {["_rowid" := VList [VInt 2]]};
            <["ann" := VNone]> {["_rowid" := VList [VInt 3]]}]].
Proof.
  destruct (pull_update_set (Sample.project_with "<View/>" [])
              Sample.mapping_prompt_img Sample.three_tasks)
    as (col & updates & Hcol & Hall & Hrun).
  - apply (bool_decide_unpack _). by vm_compute.
  - apply (bool_decide_unpack _). by vm_compute.
  - apply (bool_decide_unpack _). by vm_compute.
  - destruct (Hrun Sample.world_4) as (w1 & w2 & Hw1 & _).
    exists w1. split; [exact Hw1|].
    vm_compute in Hw1. by injection Hw1 as <-.
Defined.

Lemma pull_batch_update_once_witness :
  ∃ w' new_calls,
    _update_table_from_tasks (Sample.project_with "<View/>" [])
      Sample.mapping_prompt_img [] Sample.world_4 = (w', Ok tt)
    ∧ table_calls w' = table_calls Sample.world_4 ++ new_calls
    ∧ new_calls = [] ∧ w' = Sample.world_4.
Proof.
  destruct (pull_batch_update_once (Sample.project_with "<View/>" [])
              Sample.mapping_prompt_img [] "ann" [] Sample.world_4)
    as (w' & new_calls & Hrun & Hcalls & _ & Hempty).
  - apply (bool_decide_unpack _). by vm_compute.
  - reflexivity.
  - reflexivity.
  - exists w', new_calls. destruct (Hempty eq_refl) as [-> ->]. done.
Defined.

(** ** Push reconciler *)

(** *** The monad *)

Lemma bind_ok {Table A B} (m : M Table A) (k : A → M Table B) w w1 a :
  m w = (w1, Ok a) → (m ≫= k) w = k a w1.
Proof. intros Hm. unfold mbind, M_bind. by rewrite Hm. Qed.

Lemma bind_raise {Table A B} (m : M Table A) (k : A → M Table B) w w1 e :
  m w = (w1, Raise e) → (m ≫= k) w = (w1, Raise e).
Proof. intros Hm. unfold mbind, M_bind. by rewrite Hm. Qed.

Lemma bind_inv {Table A B} (m : M Table A) (k : A → M Table B) w w' r :
  (m ≫= k) w = (w', r) →
  (∃ w1 a, m w = (w1, Ok a) ∧ k a w1 = (w', r))
  ∨ (∃ e, m w = (w', Raise e) ∧ r = Raise e).
Proof.
  unfold mbind, M_bind. destruct (m w) as [w1 [a|e]]; intros Hk.
  - left. by exists w1, a.
  - right. exists e. by simplify_eq.
Qed.

Lemma lift_inv {Table A} (x : Result A) (w w' : World Table) r :
  lift x w = (w', r) → w' = w ∧ r = x.
Proof. unfold lift. by intros [= <- <-]. Qed.

Lemma ret_inv {Table A} (a : A) (w w' : World Table) r :
  (mret a : M Table A) w = (w', r) → w' = w ∧ r = Ok a.
Proof. unfold mret, M_ret. by intros [= <- <-]. Qed.

Lemma add_remote_nil {Table} (w : World Table) : add_remote w [] = w.
Proof. destruct w. unfold add_remote. simpl. by rewrite app_nil_r. Qed.

Lemma add_remote_app {Table} (w : World Table) c1 c2 :
  add_remote (add_remote w c1) c2 = add_remote w (c1 ++ c2).
Proof. unfold add_remote. simpl. by rewrite app_assoc. Qed.

Lemma created_rowids_app c1 c2 :
  created_rowids (c1 ++ c2) = created_rowids c1 ++ created_rowids c2.
Proof. unfold created_rowids. by rewrite fmap_app, concat_app. Qed.

Lemma sum_list_append (l1 l2 : list nat) :
  sum_list (l1 ++ l2) = (sum_list l1 + sum_list l2)%nat.
Proof. induction l1 as [|x l1 IH]; simpl; [done|]. rewrite IH. lia. Qed.

Lemma created_count_app c1 c2 :
  created_count (c1 ++ c2) = (created_count c1 + created_count c2)%nat.
Proof. unfold created_count. by rewrite fmap_app, sum_list_append. Qed.

Lemma created_rowids_get_params k :
  created_rowids (replicate k GetParams) = [].
Proof. induction k; [done|]. simpl. by unfold created_rowids in *. Qed.

Lemma created_count_get_params k :
  created_count (replicate k GetParams) = 0%nat.
Proof. induction k; [done|]. simpl. by unfold created_count in *. Qed.

(** *** The steps of the push, whatever their outcome *)

Section PushSteps.

Context {Table : Type} `{TableAdapter Table}.
Variable is_media_type : ColumnType → bool.
Variable fromstring : string → Result Element.
Variable project : Project.

Lemma t_getitem_inv c (w w' : World Table) r :
  t_getitem c w = (w', r) → w' = w.
Proof.
  unfold t_getitem. unfold_m. simpl.
  destruct (columns (tbl w) !! c); by intros [= <- _].
Qed.

Lemma t_getitem_ok c col (w : World Table) :
  columns (tbl w) !! c = Some col → t_getitem c w = (w, Ok col).
Proof. intros Hc. unfold t_getitem. unfold_m. simpl. by rewrite Hc. Qed.

Lemma check_stored_inv tct c (w w' : World Table) r :
  check_stored is_media_type tct c w = (w', r) → w' = w.
Proof.
  unfold check_stored. intros Hrun.
  bind_inv_with @bind_inv Hrun; apply lift_inv in Hm as [-> Hm]; [|done].
  destruct (is_media_type a); [|by apply ret_inv in Hrun as [-> _]].
  bind_inv_with @bind_inv Hrun; apply t_getitem_inv in Hm0 as ->; [|done].
  destruct (negb (is_stored a0)); [by injection Hrun as <- _|].
  by apply ret_inv in Hrun as [-> _].
Qed.

Lemma for_each_quiet {A} (f : A → M Table unit) l :
  (∀ x w w' r, f x w = (w', r) → w' = w) →
  ∀ w w' r, for_each f l w = (w', r) → w' = w.
Proof.
  intros Hf. induction l as [|x l IH]; intros w w' r Hrun; simpl in Hrun.
  - by apply ret_inv in Hrun as [-> _].
  - bind_inv_with @bind_inv Hrun; apply Hf in Hm as ->; [by eapply IH|done].
Qed.

Lemma map_m_quiet {A B} (f : A → M Table B) l :
  (∀ x w w' r, f x w = (w', r) → w' = w) →
  ∀ w w' r, map_m f l w = (w', r) → w' = w.
Proof.
  intros Hf. induction l as [|x l IH]; intros w w' r Hrun; simpl in Hrun.
  - by apply ret_inv in Hrun as [-> _].
  - bind_inv_with @bind_inv Hrun; apply Hf in Hm as ->; [|done].
    bind_inv_with @bind_inv Hrun; apply IH in Hm as ->; [|done].
    by apply ret_inv in Hrun as [-> _].
Qed.

Lemma select_expr_inv tct c (w w' : World Table) r :
  select_expr is_media_type tct c w = (w', r) → w' = w.
Proof.
  unfold select_expr. intros Hrun.
  bind_inv_with @bind_inv Hrun; apply lift_inv in Hm as [-> Hm]; [|done].
  bind_inv_with @bind_inv Hrun; apply t_getitem_inv in Hm0 as ->; [|done].
  by apply ret_inv in Hrun as [-> _].
Qed.

Lemma validate_vals_inv cols rest :
  ∀ i (w w' : World Table) r,
    validate_vals is_media_type cols i rest w = (w', r) → w' = w.
Proof.
  induction rest as [|v rest IH]; intros i w w' r Hrun; simpl in Hrun.
  - by apply ret_inv in Hrun as [-> _].
  - unfold t_getitem in Hrun. unfold_m_in Hrun. simpl in Hrun.
    repeat case_match; simplify_eq/=; try done; solve [eauto].
Qed.

Lemma make_task_inv cols r_cols row (w w' : World Table) r :
  make_task is_media_type cols r_cols row w = (w', r) →
  w' = w ∧ ∀ task, r = Ok task → task = task_of_row r_cols row.
Proof.
  unfold make_task. intros Hrun.
  bind_inv_with @bind_inv Hrun; apply validate_vals_inv in Hm as ->; [|done].
  apply ret_inv in Hrun as [-> ->]. split; [done|]. by intros task [= <-].
Qed.

Lemma map_m_make_task_inv cols r_cols page :
  ∀ (w w' : World Table) r,
    map_m (make_task is_media_type cols r_cols) page w = (w', r) →
    w' = w ∧ ∀ new_tasks, r = Ok new_tasks → new_tasks = task_of_row r_cols <$> page.
Proof.
  induction page as [|row page IH]; intros w w' r Hrun; simpl in Hrun.
  - apply ret_inv in Hrun as [-> ->]. split; [done|]. by intros ? [= <-].
  - bind_inv_with @bind_inv Hrun; apply make_task_inv in Hm as [-> Htask]; [|done].
    bind_inv_with @bind_inv Hrun; apply IH in Hm as [-> Htasks]; [|done].
    apply ret_inv in Hrun as [-> ->]. split; [done|].
    intros ? [= <-]. simpl. by rewrite (Htask _ eq_refl), (Htasks _ eq_refl).
Qed.

(** The bulk create of the records of a page of rows: the records hold
    [zip] objects, so the call raises as soon as there is a record. *)
Lemma import_tasks_page r_cols (page : list Row) (w : World Table) :
  import_tasks (task_of_row r_cols <$> page) w
  = match page with
    | [] => (add_remote w [import_page r_cols page], Ok tt)
    | _ :: _ => (w, Raise TypeError)
    end.
Proof. by destruct page. Qed.

Lemma push_page_inv cols r_cols page (w w' : World Table) r :
  push_page is_media_type cols r_cols page w = (w', r) →
  (r = Ok tt ∧ page = [] ∧ w' = add_remote w [import_page r_cols page])
  ∨ (∃ e, r = Raise e ∧ w' = w).
Proof.
  unfold push_page. intros Hrun.
  bind_inv_with @bind_inv Hrun; apply map_m_make_task_inv in Hm as [-> Htasks].
  - rewrite (Htasks _ eq_refl), import_tasks_page in Hrun.
    destruct page; injection Hrun as <- <-; [by left|right; by eexists].
  - right. by exists e.
Qed.

Lemma for_each_push_page_inv cols r_cols pages :
  ∀ (w w' : World Table) r,
    for_each (push_page is_media_type cols r_cols) pages w = (w', r) →
    ∃ done rest,
      pages = done ++ rest
      ∧ w' = add_remote w (import_page r_cols <$> done)
      ∧ (r = Ok tt → rest = [])
      ∧ (∀ e, r = Raise e → rest ≠ []).
Proof.
  induction pages as [|page pages IH]; intros w w' r Hrun; simpl in Hrun.
  - apply ret_inv in Hrun as [-> ->]. exists [], []. simpl.
    by rewrite add_remote_nil.
  - bind_inv_with @bind_inv Hrun;
      apply push_page_inv in Hm as [(? & _ & ->)|(e' & ? & ->)]; simplify_eq.
    + destruct (IH _ _ _ Hrun) as (done & rest & -> & -> & Hok & Hraise).
      exists (page :: done), rest. simpl. by rewrite add_remote_app.
    + exists [], (page :: pages). simpl. rewrite add_remote_nil.
      split_and!; done.
Qed.

(** Pages with a row in each: the first bulk create raises, so the loop
    over the pages leaves no trace and returns only when there is no page. *)
Lemma for_each_push_page_stops cols r_cols (pages : list (list Row)) :
  Forall (λ page, page ≠ []) pages →
  ∀ (w w' : World Table) r,
    for_each (push_page is_media_type cols r_cols) pages w = (w', r) →
    w' = w ∧ (r = Ok tt → pages = []).
Proof.
  intros Hne w w' r Hrun. destruct pages as [|page pages].
  - by apply ret_inv in Hrun as [-> _].
  - apply Forall_cons in Hne as [Hpage _]. simpl in Hrun.
    bind_inv_with @bind_inv Hrun;
      apply push_page_inv in Hm as [(_ & ? & _)|(e' & ? & ->)]; simplify_eq.
    done.
Qed.

Lemma get_push_columns_inv (w w' : World Table) r :
  get_push_columns fromstring project w = (w', r) →
  w' = add_remote w [GetParams]
  ∧ r = _parse_project_config fromstring (label_config project).
Proof.
  unfold get_push_columns, get_params. unfold_m. simpl.
  by intros [= <- <-].
Qed.

Lemma select_push_cols_inv items :
  ∀ (w w' : World Table) r,
    select_push_cols fromstring project items w = (w', r) →
    ∃ k, w' = add_remote w (replicate k GetParams).
Proof.
  induction items as [|[c rc] items IH]; intros w w' r Hrun; simpl in Hrun.
  - apply ret_inv in Hrun as [-> _]. exists 0%nat. by rewrite add_remote_nil.
  - bind_inv_with @bind_inv Hrun; apply get_push_columns_inv in Hm as [-> _];
      [|by exists 1%nat].
    bind_inv_with @bind_inv Hrun; apply IH in Hm as [k ->].
    + apply ret_inv in Hrun as [-> _]. exists (S k). by rewrite add_remote_app.
    + exists (S k). by rewrite add_remote_app.
Qed.

End PushSteps.

Lemma filter_cons_app {A} (P : A → Prop) `{∀ x, Decision (P x)} x (l : list A) :
  filter P (x :: l) = (if decide (P x) then [x] else []) ++ filter P l.
Proof. rewrite filter_cons. by destruct (decide (P x)). Qed.

Lemma filter_none {A} (P : A → Prop) `{∀ x, Decision (P x)} (l : list A) :
  (∀ x, x ∈ l → ¬ P x) → filter P l = [].
Proof.
  induction l as [|x l IH]; intros Hl; [done|].
  rewrite filter_cons_False; [|apply Hl; by left].
  apply IH. intros y Hy. apply Hl. by right.
Qed.

Lemma filter_fmap_rowid (P : list Z → Prop) `{∀ x, Decision (P x)}
    (Q : Row → Prop) `{∀ row, Decision (Q row)} (rows : list Row) :
  (∀ row, Q row ↔ P (rowid row)) →
  rowid <$> filter Q rows = filter P (rowid <$> rows).
Proof.
  intros HQ. induction rows as [|row rows IH]; [done|].
  rewrite fmap_cons, !filter_cons.
  destruct (decide (Q row)) as [Hq|Hq], (decide (P (rowid row))) as [Hp|Hp];
    rewrite ?fmap_cons, IH; try done; exfalso; naive_solver.
Qed.

Section UploadSteps.

Context {Table : Type}.
Variable project : Project.

Lemma upload_row_inv (S : gset (list Z)) n row (w w' : World Table) r :
  upload_row project S n row w = (w', r) →
  ∃ new,
    w' = add_remote w new
    ∧ created_rowids new `prefix_of` (if decide (rowid row ∉ S) then [rowid row] else [])
    ∧ (rowid row ∈ S → new = [])
    ∧ (∀ n', r = Ok n' →
         created_rowids new = (if decide (rowid row ∉ S) then [rowid row] else [])
         ∧ created_count new = length (created_rowids new)
         ∧ n' = (n + created_count new)%nat).
Proof.
  unfold upload_row. destruct (decide (rowid row ∉ S)) as [Hnew|Hold].
  - rewrite bool_decide_eq_true_2 by done. unfold_m. simpl.
    destruct (result_bind (list_last (vals row)) py_path) as [file|e]; simpl.
    + destruct (list_get (import_file_ids project (remote_calls w) file) 0)
        as [task_id|e]; simpl; intros [= <- <-].
      * exists [ImportTasksFile file; UpdateTask task_id (rowid row)].
        unfold add_remote. simpl. rewrite <- app_assoc. simpl.
        split_and!; [done|done|done|]. intros n' [= <-].
        unfold created_rowids, created_count. simpl. split_and!; [done..|lia].
      * exists [ImportTasksFile file]. split_and!; [done| |done|done].
        by apply prefix_nil.
    + intros [= <- <-]. exists []. rewrite add_remote_nil.
      split_and!; [done| |done|done]. by apply prefix_nil.
  - rewrite bool_decide_eq_false_2 by done. intros [-> ->]%ret_inv.
    exists []. rewrite add_remote_nil. split_and!; [done..|].
    intros n' [= <-]. split_and!; [done..|]. unfold created_count. simpl. lia.
Qed.

Lemma upload_rows_inv (S : gset (list Z)) rows :
  ∀ n (w w' : World Table) r,
    upload_rows project S n rows w = (w', r) →
    ∃ new,
      w' = add_remote w new
      ∧ created_rowids new `prefix_of` filter (λ rid, rid ∉ S) (rowid <$> rows)
      ∧ (filter (λ rid, rid ∉ S) (rowid <$> rows) = [] → new = [])
      ∧ (∀ n', r = Ok n' →
           created_rowids new = filter (λ rid, rid ∉ S) (rowid <$> rows)
           ∧ created_count new = length (created_rowids new)
           ∧ n' = (n + created_count new)%nat).
Proof.
  induction rows as [|row rows IH]; intros n w w' r Hrun; simpl in Hrun.
  - apply ret_inv in Hrun as [-> ->]. exists []. rewrite add_remote_nil.
    split_and!; [done..|]. intros n' [= <-].
    unfold created_count. simpl. split_and!; [done..|lia].
  - rewrite fmap_cons, filter_cons_app.
    bind_inv_with @bind_inv Hrun;
      apply upload_row_inv in Hm as (new1 & -> & Hpre1 & Hold1 & Hok1).
    + destruct (Hok1 _ eq_refl) as (Hc1 & Hn1 & ->).
      apply IH in Hrun as (new2 & -> & Hpre2 & Hnil2 & Hok2).
      exists (new1 ++ new2). rewrite add_remote_app, created_rowids_app, Hc1.
      split_and!; [done|by apply prefix_app| |].
      * intros [Hnil1 Hnil]%app_eq_nil.
        rewrite (Hnil2 Hnil), app_nil_r. apply Hold1.
        destruct (decide (rowid row ∉ S)) as [|Hin]; [done|].
        by apply dec_stable in Hin.
      * intros n' ->. destruct (Hok2 _ eq_refl) as (Hc2 & Hn2 & ->).
        rewrite Hc2, created_count_app. split_and!; [done| |lia].
        rewrite length_app, <- Hc2, <- Hn2, <- Hc1. lia.
    + exists new1. split_and!; [done| | |done].
      * by apply prefix_app_r.
      * intros [Hnil1 _]%app_eq_nil. apply Hold1.
        destruct (decide (rowid row ∉ S)) as [|Hin]; [done|].
        by apply dec_stable in Hin.
Qed.

End UploadSteps.

(** *** Batches *)

Lemma batched_aux_concat {A} fuel n (l : list A) :
  (0 < n)%nat → (length l ≤ fuel)%nat → concat (batched_aux fuel n l) = l.
Proof.
  intros Hn. revert l. induction fuel as [|fuel IH]; intros l Hl.
  - destruct l; [done|simpl in Hl; lia].
  - destruct l as [|x l]; [done|].
    cbn [batched_aux concat]. rewrite IH; [apply take_drop|].
    rewrite length_drop. simpl in *. lia.
Qed.

Lemma batched_concat {A} (l : list A) n :
  (0 < n)%nat → concat (batched l n) = l.
Proof. intros Hn. by apply batched_aux_concat. Qed.

Lemma batched_aux_sizes {A} fuel n (l : list A) :
  (0 < n)%nat →
  Forall (λ b, 0 < length b ≤ n)%nat (batched_aux fuel n l).
Proof.
  intros Hn. revert l. induction fuel as [|fuel IH]; intros l; [constructor|].
  destruct l as [|x l]; [constructor|].
  cbn [batched_aux]. constructor; [|apply IH].
  rewrite length_take. simpl. lia.
Qed.

Lemma batched_aux_full {A} fuel n (l : list A) i b :
  batched_aux fuel n l !! i = Some b →
  is_Some (batched_aux fuel n l !! S i) →
  length b = n.
Proof.
  revert l i. induction fuel as [|fuel IH]; intros l i Hb Hnext; [done|].
  destruct l as [|x l]; [done|]. cbn [batched_aux] in *.
  destruct i as [|i]; [|by eapply IH].
  simpl in Hb. injection Hb as <-. simpl in Hnext.
  rewrite length_take. apply Nat.min_l.
  destruct fuel as [|fuel]; [by destruct Hnext|].
  destruct (drop n (x :: l)) as [|y l'] eqn:Hdrop; [by destruct Hnext|].
  assert (length (drop n (x :: l)) ≠ 0)%nat as Hlen by (by rewrite Hdrop).
  rewrite length_drop in Hlen. lia.
Qed.

(** Batches are consecutive, never empty, at most [n] long, and all but the
    last exactly [n] long. *)
Lemma batched_shape {A} (l : list A) n :
  (0 < n)%nat →
  concat (batched l n) = l
  ∧ Forall (λ b, 0 < length b ≤ n)%nat (batched l n)
  ∧ ∀ i b, batched l n !! i = Some b → is_Some (batched l n !! S i) →
           length b = n.
Proof.
  intros Hn. split_and!.
  - by apply batched_concat.
  - by apply batched_aux_sizes.
  - intros i b. apply batched_aux_full.
Qed.

Lemma page_size_pos : (0 < _PAGE_SIZE)%nat.
Proof. unfold _PAGE_SIZE. lia. Qed.

Lemma created_rowids_import_pages r_cols (pages : list (list Row)) :
  created_rowids (import_page r_cols <$> pages) = rowid <$> concat pages.
Proof.
  unfold created_rowids. induction pages as [|page pages IH]; [done|].
  rewrite !fmap_cons. cbn [concat]. rewrite IH, fmap_app. f_equal.
  unfold import_page. simpl. by rewrite <- list_fmap_compose.
Qed.

Lemma created_count_import_pages r_cols (pages : list (list Row)) :
  created_count (import_page r_cols <$> pages) = length (concat pages).
Proof.
  unfold created_count. induction pages as [|page pages IH]; [done|].
  rewrite !fmap_cons. cbn [concat]. rewrite length_app, <- IH.
  unfold import_page at 1. simpl. by rewrite length_fmap.
Qed.

Lemma map_result_meta_rowids tasks ids :
  map_result meta_rowid_tuple tasks = Ok ids → ids = remote_rowids tasks.
Proof.
  revert ids. induction tasks as [|task tasks IH]; intros ids; simpl.
  - by intros [= <-].
  - unfold meta_rowid_tuple at 1, remote_rowids. simpl.
    destruct (meta_rowid task); simpl; try done.
    destruct (map_result meta_rowid_tuple tasks); simpl; [|done].
    intros [= <-]. f_equal. by apply IH.
Qed.

(** *** The push as a whole, whatever its outcome *)

Section PushOutcome.

Context {Table : Type} `{TableAdapter Table}.
Variable is_media_type : ColumnType → bool.
Variable fromstring : string → Result Element.
Variable project : Project.

Lemma t_column_types_run (w : World Table) :
  t_column_types w
  = (add_table_calls w [TColumnTypes], Ok (col_type <$> columns (tbl w))).
Proof. reflexivity. Qed.

Lemma t_select_run sel (w : World Table) :
  t_select sel w = (add_table_calls w [TSelect sel], Ok (select_exec (tbl w) sel)).
Proof. reflexivity. Qed.

Lemma repr_run (w : World Table) :
  repr project w
  = (add_remote w [GetParams],
     Ok ("LabelStudioProject `" +:+ title project +:+ "`")).
Proof. reflexivity. Qed.

Lemma filter_missing (t : Table) existing_tasks sel :
  rowid <$> filter (λ row, rowid row ∉ (list_to_set (remote_rowids existing_tasks) : gset (list Z)))
              (select_exec t sel)
  = missing_rowids t existing_tasks.
Proof.
  rewrite (filter_fmap_rowid
             (λ rid, rid ∉ (list_to_set (remote_rowids existing_tasks)
                            : gset (list Z)))) by done.
  rewrite select_rowids. unfold missing_rowids.
  apply list_filter_iff. intros rid. by rewrite elem_of_list_to_set.
Qed.

Lemma filter_missing_rowids (t : Table) existing_tasks sel :
  filter (λ rid, rid ∉ (list_to_set (remote_rowids existing_tasks) : gset (list Z)))
    (rowid <$> select_exec t sel)
  = missing_rowids t existing_tasks.
Proof.
  rewrite select_rowids. unfold missing_rowids.
  apply list_filter_iff. intros rid. by rewrite elem_of_list_to_set.
Qed.

Lemma push_outcome_intro existing_tasks (w w' : World Table) r k new_c tail :
  remote_calls w' = remote_calls w ++ replicate k GetParams ++ new_c ++ tail →
  tbl w' = tbl w →
  Forall (λ c, c = GetParams) tail →
  created_rowids new_c `prefix_of` missing_rowids (tbl w) existing_tasks →
  (missing_rowids (tbl w) existing_tasks = [] → new_c = []) →
  (r = Ok tt →
   created_rowids new_c = missing_rowids (tbl w) existing_tasks
   ∧ created_count new_c = length (missing_rowids (tbl w) existing_tasks)) →
  push_outcome existing_tasks w w' r (replicate k GetParams ++ new_c ++ tail).
Proof.
  intros Hcalls Htbl Htail Hpre Hnil Hok.
  assert (created_rowids tail = [] ∧ created_count tail = 0%nat) as [Ht1 Ht2].
  { clear -Htail. induction Htail as [|c tail -> _ [IH1 IH2]]; [done|].
    split; [exact IH1|exact IH2]. }
  unfold push_outcome.
  rewrite !created_rowids_app, !created_count_app, created_rowids_get_params,
    created_count_get_params, Ht1, Ht2, app_nil_r, Nat.add_0_r. simpl.
  split_and!; [done..| |done].
  intros Hmiss. rewrite (Hnil Hmiss). simpl.
  apply Forall_app. split.
  - apply Forall_forall. by intros c [-> _]%elem_of_replicate.
  - eapply Forall_impl; [exact Htail|]. by intros c ->.
Qed.

Lemma push_outcome_reads existing_tasks (w : World Table) e tc k :
  push_outcome existing_tasks w
    (add_remote (add_table_calls w tc) (replicate k GetParams)) (Raise e)
    (replicate k GetParams ++ [] ++ []).
Proof.
  apply push_outcome_intro; try done.
  - simpl. by rewrite !app_nil_r.
  - apply prefix_nil.
Qed.

Lemma push_outcome_nothing existing_tasks (w : World Table) e :
  push_outcome existing_tasks w w (Raise e) (replicate 0 GetParams ++ [] ++ []).
Proof.
  apply push_outcome_intro; try done.
  - simpl. by rewrite !app_nil_r.
  - apply prefix_nil.
Qed.

Lemma push_inv col_mapping existing_tasks (w w' : World Table) r :
  _create_tasks_from_table is_media_type fromstring project
    col_mapping existing_tasks w = (w', r) →
  ∃ new, push_outcome existing_tasks w w' r new.
Proof.
  unfold _create_tasks_from_table. intros Hrun.
  bind_inv_with @bind_inv Hrun; apply lift_inv in Hm as [-> Hids].
  2:{ eexists. apply push_outcome_nothing. }
  symmetry in Hids. apply map_result_meta_rowids in Hids as ->.
  rewrite (bind_ok _ _ _ _ _ (t_column_types_run w)) in Hrun.
  bind_inv_with @bind_inv Hrun; apply select_push_cols_inv in Hm as [k ->].
  2:{ eexists. apply push_outcome_reads. }
  rename a into t_push_cols.
  bind_inv_with @bind_inv Hrun; apply lift_inv in Hm as [-> Hr].
  2:{ eexists. apply push_outcome_reads. }
  rename a into r_push_cols.
  bind_inv_with @bind_inv Hrun;
    apply (for_each_quiet _ _ (check_stored_inv is_media_type _)) in Hm as ->.
  2:{ eexists. apply push_outcome_reads. }
  bind_inv_with @bind_inv Hrun.
  2:{ destruct t_push_cols as [|c [|c' cols]]; try done.
      bind_inv_with @bind_inv Hm; apply lift_inv in Hm0 as [-> ?]; [done|].
      eexists. apply push_outcome_reads. }
  assert (w0 = add_remote (add_table_calls w [TColumnTypes]) (replicate k GetParams))
    as ->.
  { destruct t_push_cols as [|c [|c' cols]];
      try (by apply ret_inv in Hm as [-> _]).
    bind_inv_with @bind_inv Hm; apply lift_inv in Hm0 as [-> ?]; [|done].
    by apply ret_inv in Hm as [-> _]. }
  clear Hm. destruct a0.
  - (* the single-media path *)
    bind_inv_with @bind_inv Hrun; apply lift_inv in Hm as [-> _];
      [|eexists; apply push_outcome_reads].
    bind_inv_with @bind_inv Hrun; apply t_getitem_inv in Hm as ->;
      [|eexists; apply push_outcome_reads].
    rewrite (bind_ok _ _ _ _ _ (t_select_run _ _)) in Hrun.
    bind_inv_with @bind_inv Hrun;
      apply upload_rows_inv in Hm as (new_u & -> & Hpre & Hnil & Hok);
      simpl in Hpre, Hnil, Hok; rewrite filter_missing_rowids in Hpre, Hnil, Hok.
    + rewrite (bind_ok _ _ _ _ _ (repr_run _)) in Hrun.
      unfold emit in Hrun. injection Hrun as <- <-.
      destruct (Hok _ eq_refl) as (Hc & Hn & _).
      exists (replicate k GetParams ++ new_u ++ [GetParams]).
      apply push_outcome_intro;
        [simpl; by rewrite <- !app_assoc|done|repeat constructor|done|done|].
      intros _. split; [done|]. by rewrite Hn, Hc.
    + exists (replicate k GetParams ++ new_u ++ []).
      apply push_outcome_intro; try done.
      simpl. by rewrite app_nil_r, <- !app_assoc.
  - (* the general path *)
    bind_inv_with @bind_inv Hrun;
      apply (map_m_quiet _ _ (select_expr_inv is_media_type _)) in Hm as ->;
      [|eexists; apply push_outcome_reads].
    rewrite (bind_ok _ _ _ _ _ (t_select_run _ _)) in Hrun.
    apply for_each_push_page_inv in Hrun as (done & rest & Hpages & -> & Hok & _).
    simpl in Hpages.
    pose proof (batched_concat
                  (filter (λ row, rowid row ∉ (list_to_set (remote_rowids existing_tasks) : gset (list Z)))
                     (select_exec (tbl w) a0))
                  _PAGE_SIZE page_size_pos) as Hcat.
    rewrite Hpages in Hcat.
    pose proof (filter_missing (tbl w) existing_tasks a0) as Hmiss.
    rewrite <- Hcat in Hmiss.
    exists (replicate k GetParams ++ (import_page r_push_cols <$> done) ++ []).
    apply push_outcome_intro; try done.
    + simpl. by rewrite app_nil_r, <- !app_assoc.
    + rewrite created_rowids_import_pages, <- Hmiss, concat_app, fmap_app.
      by apply prefix_app_r.
    + intros Hnil. rewrite Hnil in Hmiss. apply fmap_nil_inv in Hmiss.
      rewrite concat_app in Hmiss. apply app_eq_nil in Hmiss as [Hdone _].
      assert (Forall (λ b : list Row, 0 < length b ≤ _PAGE_SIZE)%nat (done ++ rest))
        as Hsz.
      { rewrite <- Hpages. apply batched_aux_sizes, page_size_pos. }
      apply Forall_app in Hsz as [Hsz _].
      destruct done as [|b done]; [done|].
      apply Forall_cons in Hsz as [Hb _]. simpl in Hdone.
      apply app_eq_nil in Hdone as [-> _]. simpl in Hb. lia.
    + intros ->. rewrite (Hok eq_refl), app_nil_r in Hmiss.
      rewrite created_rowids_import_pages, created_count_import_pages.
      split; [done|]. by rewrite <- Hmiss, length_fmap.
Qed.

(** X23.  Whatever the outcome of a push, the tasks it created carry an
    initial part of the local rowids that have no remote counterpart, in
    table order: the rowid of a created task is a local rowid that no
    enumerated task carries, no rowid gets two tasks when the local rowids
    are distinct, and there is no create or update call at all when every
    local rowid already has a remote counterpart. *)
Theorem push_creates_only_missing col_mapping existing_tasks (w w' : World Table) r :
  _create_tasks_from_table is_media_type fromstring project
    col_mapping existing_tasks w = (w', r) →
  ∃ new,
    remote_calls w' = remote_calls w ++ new
    ∧ created_rowids new `prefix_of` missing_rowids (tbl w) existing_tasks
    ∧ (∀ rid, rid ∈ created_rowids new →
              rid ∈ rowids (tbl w) ∧ rid ∉ remote_rowids existing_tasks)
    ∧ (NoDup (rowids (tbl w)) → NoDup (created_rowids new))
    ∧ (rowids (tbl w) ⊆ remote_rowids existing_tasks →
       Forall (λ c, is_create_or_update c = false) new).
Proof.
  intros Hrun.
  destruct (push_inv _ _ _ _ _ Hrun) as (new & Hcalls & _ & Hpre & Hnil & _).
  exists new. split_and!; [done..| | |].
  - intros rid Hin. destruct Hpre as [rest Hpre].
    assert (rid ∈ missing_rowids (tbl w) existing_tasks) as Hmiss.
    { rewrite Hpre. apply elem_of_app. by left. }
    unfold missing_rowids in Hmiss. apply list_elem_of_filter in Hmiss. tauto.
  - intros Hnd. destruct Hpre as [rest Hpre].
    assert (NoDup (missing_rowids (tbl w) existing_tasks)) as Hmiss
      by (by apply NoDup_filter).
    rewrite Hpre in Hmiss. by apply NoDup_app in Hmiss as [? _].
  - intros Hsub. apply Hnil. unfold missing_rowids.
    apply filter_none. intros rid Hin Hnot. by apply Hnot, Hsub.
Qed.

End PushOutcome.

Lemma push_creates_only_missing_witness :
  ∃ w' r,
    _create_tasks_from_table Sample.is_media
      (Sample.parses_to MoreSamples.tree_img)
      (Sample.project_with "<View/>" [])
      MoreSamples.mapping_img Sample.three_tasks Sample.world_4
    = (w', r)
    ∧ created_rowids (remote_calls w') = [[4]]
    ∧ ∀ rid, rid ∈ created_rowids (remote_calls w') →
             rid ∈ [[1]; [2]; [3]; [4]] ∧ rid ∉ [[1]; [2]; [3]].
Proof.
  destruct (push_creates_only_missing Sample.is_media
              (Sample.parses_to MoreSamples.tree_img)
              (Sample.project_with "<View/>" [])
              MoreSamples.mapping_img Sample.three_tasks Sample.world_4
              _ _ (surjective_pairing _))
    as (new & Hcalls & _ & Hin & _).
  eexists _, _. split; [apply surjective_pairing|]. split; [by vm_compute|].
  rewrite Hcalls. exact Hin.
Defined.

(** C1.  The design's own example: rows 1 to 4, remote tasks for the rows 1
    to 3, a text and an image column pushed.  Row 4 is the one row without a
    remote counterpart; the push takes the general path and raises
    [TypeError] at the bulk create, so no task is created for row 4. *)
Lemma push_example_creates_nothing :
  missing_rowids Sample.table_4 Sample.three_tasks = [[4]]
  ∧ ∃ w',
      _create_tasks_from_table Sample.is_media
        (Sample.parses_to Sample.tree_prompt_img)
        (Sample.project_with Sample.config_prompt_img [])
        Sample.mapping_prompt_img Sample.three_tasks Sample.world_4
      = (w', Raise TypeError)
      ∧ remote_calls w' = [GetParams; GetParams; GetParams]
      ∧ created_rowids (remote_calls w') = []
      ∧ created_count (remote_calls w') = 0%nat.
Proof. split; [by vm_compute|]. eexists. split_and!; by vm_compute. Qed.

(** *** The steps of the push on inputs that pass its checks *)

Lemma map_result_meta_rowids_ok (tasks : list Task) :
  Forall (λ task, has_rowid task) tasks →
  map_result meta_rowid_tuple tasks = Ok (remote_rowids tasks).
Proof.
  induction 1 as [|task tasks Hrow _ IH]; [done|]. simpl.
  unfold has_rowid in Hrow. unfold meta_rowid_tuple at 1, remote_rowids.
  simpl. destruct (meta_rowid task); try done. simpl.
  unfold remote_rowids in IH. by rewrite IH.
Qed.

Lemma items_get_elem_of (d : list (string * string)) k v :
  NoDup d.*1 → (k, v) ∈ d → items_get d k = Ok v.
Proof.
  induction d as [|[k' v'] d IH]; intros Hnd Hin; [by apply elem_of_nil in Hin|].
  simpl in *. apply NoDup_cons in Hnd as [Hk' Hnd].
  apply elem_of_cons in Hin as [Heq|Hin].
  - simplify_eq. by rewrite String.eqb_refl.
  - destruct (String.eqb_spec k' k) as [->|_]; [|by apply IH].
    exfalso. apply Hk'. apply list_elem_of_fmap. by exists (k, v).
Qed.

Lemma items_get_is_ok (d : list (string * string)) k :
  k ∈ d.*1 → ∃ v, items_get d k = Ok v.
Proof.
  induction d as [|[k' v'] d IH]; intros Hin; [by apply elem_of_nil in Hin|].
  simpl in *. destruct (String.eqb_spec k' k) as [->|Hne]; [by eexists|].
  apply elem_of_cons in Hin as [?|Hin]; [done|]. by apply IH.
Qed.

Lemma map_result_items_get (d : list (string * string)) (sub : list (string * string)) :
  NoDup d.*1 → sub ⊆ d → map_result (items_get d) sub.*1 = Ok sub.*2.
Proof.
  intros Hnd. induction sub as [|[k v] sub IH]; intros Hsub; [done|].
  rewrite !fmap_cons. cbn [map_result fst snd].
  rewrite (items_get_elem_of d k v Hnd) by (apply Hsub; by left).
  cbn [result_bind]. rewrite IH; [done|]. intros x Hx. apply Hsub. by right.
Qed.

Lemma map_result_items_get_ok (d : list (string * string)) (ks : list string) :
  ks ⊆ d.*1 → ∃ vs, map_result (items_get d) ks = Ok vs.
Proof.
  induction ks as [|k ks IH]; intros Hsub; [by eexists|]. simpl.
  destruct (items_get_is_ok d k) as [v ->]; [apply Hsub; by left|]. simpl.
  destruct IH as [vs ->]; [intros x Hx; apply Hsub; by right|]. by eexists.
Qed.

Lemma push_cols_subseteq pc col_mapping : push_cols pc col_mapping ⊆ col_mapping.
Proof. intros x Hx. unfold push_cols in Hx. by apply list_elem_of_filter in Hx as [_ ?]. Qed.

Section PushForward.

Context {Table : Type} `{TableAdapter Table}.
Variable is_media_type : ColumnType → bool.
Variable fromstring : string → Result Element.
Variable project : Project.

Lemma select_push_cols_ok pc items (w : World Table) :
  _parse_project_config fromstring (label_config project) = Ok pc →
  select_push_cols fromstring project items w
  = (add_remote w (replicate (length items) GetParams),
     Ok (push_cols pc items).*1).
Proof.
  intros Hpc. revert w. induction items as [|[c rc] items IH]; intros w.
  - simpl. unfold_m. by rewrite add_remote_nil.
  - cbn [select_push_cols]. unfold get_push_columns, get_params.
    unfold_m. simpl. rewrite Hpc.
    change {| remote_calls := remote_calls w ++ [GetParams];
              table_calls := table_calls w; log := log w; tbl := tbl w |}
      with (add_remote w [GetParams]).
    rewrite IH, add_remote_app. simpl. unfold push_cols.
    rewrite filter_cons. simpl.
    destruct (pc !! rc) eqn:Hrc.
    + rewrite decide_True by (by eexists). done.
    + rewrite decide_False by (by intros [? ?]). done.
Qed.

Lemma check_stored_ok c (w : World Table) :
  is_Some (columns (tbl w) !! c) →
  column_not_stored is_media_type (tbl w) c = false →
  check_stored is_media_type (col_type <$> columns (tbl w)) c w = (w, Ok tt).
Proof.
  intros [col Hc] Hstored. unfold column_not_stored in Hstored.
  rewrite Hc in Hstored. unfold check_stored, dict_get, t_getitem.
  rewrite lookup_fmap, Hc. unfold_m. simpl.
  destruct (is_media_type (col_type col)); [|done].
  rewrite Hc. simpl in Hstored. by rewrite Hstored.
Qed.

Lemma check_stored_fail c (w : World Table) :
  column_not_stored is_media_type (tbl w) c = true →
  check_stored is_media_type (col_type <$> columns (tbl w)) c w
  = (w, Raise (Error (not_stored_error c))).
Proof.
  intros Hstored. unfold column_not_stored in Hstored.
  destruct (columns (tbl w) !! c) as [col|] eqn:Hc; [|done].
  apply andb_true_iff in Hstored as [Hmedia Hstored].
  unfold check_stored, dict_get, t_getitem.
  rewrite lookup_fmap, Hc. unfold_m. simpl. by rewrite Hmedia, Hc, Hstored.
Qed.

Lemma check_loop_ok cols (w : World Table) :
  Forall (λ c, is_Some (columns (tbl w) !! c)) cols →
  Forall (λ c, column_not_stored is_media_type (tbl w) c = false) cols →
  for_each (check_stored is_media_type (col_type <$> columns (tbl w))) cols w
  = (w, Ok tt).
Proof.
  induction 1 as [|c cols Hc _ IH]; intros Hall; [done|].
  apply Forall_cons in Hall as [Hs Hall]. simpl.
  by rewrite (bind_ok _ _ _ _ _ (check_stored_ok c w Hc Hs)), IH.
Qed.

Lemma check_loop_fail cols (w : World Table) :
  Forall (λ c, is_Some (columns (tbl w) !! c)) cols →
  Exists (λ c, column_not_stored is_media_type (tbl w) c = true) cols →
  ∃ c, c ∈ cols
       ∧ column_not_stored is_media_type (tbl w) c = true
       ∧ for_each (check_stored is_media_type (col_type <$> columns (tbl w))) cols w
         = (w, Raise (Error (not_stored_error c))).
Proof.
  induction 1 as [|c cols Hc _ IH]; intros Hex; [by apply Exists_nil in Hex|].
  destruct (column_not_stored is_media_type (tbl w) c) eqn:Hs.
  - exists c. split; [by left|]. split; [done|]. simpl.
    by rewrite (bind_raise _ _ _ _ _ (check_stored_fail c w Hs)).
  - apply Exists_cons in Hex as [Hbad|Hex]; [congruence|].
    destruct (IH Hex) as (c' & Hin & Hbad & Hrun).
    exists c'. split; [by right|]. split; [done|]. simpl.
    by rewrite (bind_ok _ _ _ _ _ (check_stored_ok c w Hc Hs)).
Qed.

Lemma bind_lift_ok {A B} (a : A) (k : A → M Table B) (w : World Table) :
  (lift (Ok a) ≫= k) w = k a w.
Proof. reflexivity. Qed.

(** The push up to the loop that checks that media columns are stored. *)
Lemma push_reads_run col_mapping existing_tasks pc (w : World Table) :
  Forall (λ task, has_rowid task) existing_tasks →
  _parse_project_config fromstring (label_config project) = Ok pc →
  ∃ r_push_cols,
    map_result (items_get col_mapping) (push_cols pc col_mapping).*1
    = Ok r_push_cols
    ∧ (NoDup col_mapping.*1 → r_push_cols = (push_cols pc col_mapping).*2)
    ∧ _create_tasks_from_table is_media_type fromstring project
        col_mapping existing_tasks w
      = (let row_ids_in_ls : gset (list Z) :=
           list_to_set (remote_rowids existing_tasks) in
         let t_col_types := col_type <$> columns (tbl w) in
         let t_push_cols := (push_cols pc col_mapping).*1 in
         for_each (check_stored is_media_type t_col_types) t_push_cols;;
         single_media ←
           match t_push_cols return M Table bool with
           | [col_name] =>
               ty ← lift (dict_get t_col_types col_name); mret (is_media_type ty)
           | _ => mret false
           end;
         if single_media : bool then
           col_name ← lift (list_get t_push_cols 0);
           _ ← t_getitem col_name;
           rows ← t_select [ColRef col_name; LocalPath col_name];
           tasks_created ← upload_rows project row_ids_in_ls 0 rows;
           r ← repr project;
           emit (PrintCreated tasks_created r)
         else
           selection ← map_m (select_expr is_media_type t_col_types) t_push_cols;
           rows ← t_select selection;
           let new_rows := filter (λ row, rowid row ∉ row_ids_in_ls) rows in
           for_each (push_page is_media_type t_push_cols r_push_cols)
             (batched new_rows _PAGE_SIZE))
          (after_push_reads col_mapping w).
Proof.
  intros Hrows Hpc.
  destruct (map_result_items_get_ok col_mapping (push_cols pc col_mapping).*1)
    as [r_push_cols Hr].
  { intros c [kv [-> Hkv]]%list_elem_of_fmap. apply list_elem_of_fmap.
    exists kv. split; [done|]. by apply push_cols_subseteq in Hkv. }
  exists r_push_cols. split; [done|]. split.
  - intros Hnd.
    rewrite (map_result_items_get col_mapping _ Hnd (push_cols_subseteq _ _)) in Hr.
    by injection Hr.
  - unfold _create_tasks_from_table.
    rewrite (map_result_meta_rowids_ok _ Hrows), bind_lift_ok.
    rewrite (bind_ok _ _ _ _ _ (t_column_types_run w)).
    rewrite (bind_ok _ _ _ _ _ (select_push_cols_ok pc col_mapping _ Hpc)).
    rewrite Hr, bind_lift_ok. reflexivity.
Qed.

(** C7 (as amended).  When some push column is a media column that is not
    stored (the push columns being columns of the table), the push raises
    the error naming such a column; the only remote calls it has made by
    then read the project parameters, one per item of the column mapping, so
    it made no create call and no update call, and the table is as it
    was. *)
Theorem push_unstored_media_fails col_mapping existing_tasks pc (w : World Table) :
  Forall (λ task, has_rowid task) existing_tasks →
  _parse_project_config fromstring (label_config project) = Ok pc →
  Forall (λ c, is_Some (columns (tbl w) !! c)) (push_cols pc col_mapping).*1 →
  Exists (λ c, column_not_stored is_media_type (tbl w) c = true)
    (push_cols pc col_mapping).*1 →
  ∃ c w' new,
    c ∈ (push_cols pc col_mapping).*1
    ∧ column_not_stored is_media_type (tbl w) c = true
    ∧ _create_tasks_from_table is_media_type fromstring project
        col_mapping existing_tasks w
      = (w', Raise (Error (not_stored_error c)))
    ∧ remote_calls w' = remote_calls w ++ new
    ∧ new = replicate (length col_mapping) GetParams
    ∧ Forall (λ call, is_create_or_update call = false) new
    ∧ tbl w' = tbl w.
Proof.
  intros Hrows Hpc Hcols Hbad.
  destruct (push_reads_run col_mapping existing_tasks pc w Hrows Hpc)
    as (r_push_cols & _ & _ & ->).
  destruct (check_loop_fail _ (after_push_reads col_mapping w) Hcols Hbad)
    as (c & Hin & Hc & Hloop).
  exists c, (after_push_reads col_mapping w),
    (replicate (length col_mapping) GetParams).
  split_and!; try done.
  - cbv zeta. by rewrite (bind_raise _ _ _ _ _ Hloop).
  - apply Forall_forall. by intros call [-> _]%elem_of_replicate.
Qed.

End PushForward.

(** *** The general path *)

Lemma media_check_app vs1 vs2 :
  media_check (vs1 ++ vs2)
  = result_bind (media_check vs1) (λ _, media_check vs2).
Proof.
  induction vs1 as [|v vs1 IH]; [done|]. simpl.
  destruct v; try done. simpl. by destruct (Str.startswith _ _).
Qed.

Lemma media_check_ok vs :
  Forall (λ v, is_remote_ref v = true) vs → media_check vs = Ok tt.
Proof.
  induction 1 as [|v vs Hv _ IH]; [done|]. simpl.
  destruct v; try done. unfold is_remote_ref in Hv. simpl in *.
  by destruct (Str.startswith _ _).
Qed.

Lemma media_check_local pre v post :
  Forall (λ u, is_remote_ref u = true) pre → is_local_file v = true →
  media_check (pre ++ v :: post) = Raise (Error local_media_error).
Proof.
  intros Hpre Hv. rewrite media_check_app, (media_check_ok _ Hpre). simpl.
  destruct v; try done. simpl in *. by rewrite Hv.
Qed.

Section GeneralPath.

Context {Table : Type} `{TableAdapter Table}.
Variable is_media_type : ColumnType → bool.
Variable t : Table.

Lemma single_media_run cols (w : World Table) :
  Forall (λ c, is_Some (columns t !! c)) cols →
  (match cols return M Table bool with
   | [col_name] =>
       ty ← lift (dict_get (col_type <$> columns t) col_name);
       mret (is_media_type ty)
   | _ => mret false
   end) w
  = (w, Ok (single_media is_media_type t cols)).
Proof.
  intros Hex. destruct cols as [|c [|c' cols']]; try done.
  apply Forall_cons in Hex as [[col Hc] _].
  unfold single_media, column_is_media, dict_get. rewrite lookup_fmap, Hc.
  reflexivity.
Qed.

Lemma select_expr_run c (w : World Table) :
  tbl w = t → is_Some (columns t !! c) →
  select_expr is_media_type (col_type <$> columns t) c w
  = (w, Ok (if column_is_media is_media_type t c then FileUrl c else ColRef c)).
Proof.
  intros Ht [col Hc]. unfold select_expr, dict_get, t_getitem, column_is_media.
  rewrite lookup_fmap. unfold_m. by rewrite Ht, Hc.
Qed.

Lemma select_exprs_run cols (w : World Table) :
  tbl w = t →
  Forall (λ c, is_Some (columns t !! c)) cols →
  map_m (select_expr is_media_type (col_type <$> columns t)) cols w
  = (w, Ok (push_selection is_media_type t cols)).
Proof.
  intros Ht. induction 1 as [|c cols Hc _ IH]; [done|].
  cbn [map_m].
  rewrite (bind_ok _ _ _ _ _ (select_expr_run c w Ht Hc)).
  by rewrite (bind_ok _ _ _ _ _ IH).
Qed.

(** The validation loop over the values of a row is the test for local
    files over the row's media values. *)
Lemma validate_vals_run cols rest :
  Forall (λ c, is_Some (columns t !! c)) cols →
  ∀ i (w : World Table),
    tbl w = t →
    (i + length rest ≤ length cols)%nat →
    validate_vals is_media_type cols i rest w
    = (w, media_check
            (filter (λ cv, Is_true (column_is_media is_media_type t cv.1))
               (zip (drop i cols) rest)).*2).
Proof.
  intros Hex. induction rest as [|v rest IH]; intros i w Ht Hlen.
  - simpl. by destruct (drop i cols).
  - simpl in Hlen. destruct (cols !! i) as [c|] eqn:Hci.
    2:{ apply lookup_ge_None in Hci. lia. }
    rewrite (drop_S _ _ _ Hci). cbn [zip zip_with validate_vals].
    assert (is_Some (columns t !! c)) as [col Hc].
    { apply (proj1 (Forall_forall _ _) Hex c). by eapply list_elem_of_lookup_2. }
    assert (column_is_media is_media_type t c = is_media_type (col_type col))
      as Hmedia by (unfold column_is_media; by rewrite Hc).
    unfold list_get, t_getitem. rewrite Hci. unfold_m. rewrite Ht, Hc.
    rewrite filter_cons. cbn [fst]. rewrite Hmedia.
    specialize (IH (S i) w Ht ltac:(lia)).
    destruct (is_media_type (col_type col)); simpl.
    + destruct v; try done. simpl.
      destruct (Str.startswith "file://" s); [done|]. exact IH.
    + exact IH.
Qed.

Variable cols r_cols : list string.
Hypothesis cols_exist : Forall (λ c, is_Some (columns t !! c)) cols.

Lemma make_task_run row (w : World Table) :
  tbl w = t → (length (vals row) ≤ length cols)%nat →
  make_task is_media_type cols r_cols row w
  = (w, result_bind (media_check (media_vals is_media_type t cols row))
          (λ _, Ok (task_of_row r_cols row))).
Proof.
  intros Ht Hlen. unfold make_task, mbind, M_bind.
  rewrite (validate_vals_run cols (vals row) cols_exist 0 w Ht); [|done].
  unfold media_vals. simpl. by destruct (media_check _) as [[]|].
Qed.

Lemma make_tasks_run page (w : World Table) :
  tbl w = t → Forall (λ row, length (vals row) ≤ length cols)%nat page →
  map_m (make_task is_media_type cols r_cols) page w
  = (w, result_bind (media_check (page ≫= media_vals is_media_type t cols))
          (λ _, Ok (task_of_row r_cols <$> page))).
Proof.
  intros Ht. induction 1 as [|row page Hrow _ IH]; [done|].
  cbn [map_m]. unfold mbind at 1 2, M_bind.
  rewrite (make_task_run row w Ht Hrow). rewrite bind_cons, media_check_app.
  destruct (media_check (media_vals is_media_type t cols row)) as [[]|];
    [|done].
  cbn [result_bind]. rewrite IH.
  by destruct (media_check _) as [[]|].
Qed.

(** A page with a row in it never gets past its bulk create. *)
Lemma push_page_run row page (w : World Table) :
  tbl w = t → Forall (λ row, length (vals row) ≤ length cols)%nat (row :: page) →
  push_page is_media_type cols r_cols (row :: page) w
  = (w, match media_check ((row :: page) ≫= media_vals is_media_type t cols) with
        | Ok _ => Raise TypeError
        | Raise e => Raise e
        end).
Proof.
  intros Ht Hpage. unfold push_page, mbind, M_bind.
  rewrite (make_tasks_run _ w Ht Hpage).
  by destruct (media_check _) as [[]|].
Qed.

Lemma push_pages_run (rows : list Row) (w : World Table) :
  tbl w = t → Forall (λ row, length (vals row) ≤ length cols)%nat rows →
  for_each (push_page is_media_type cols r_cols) (batched rows _PAGE_SIZE) w
  = (w, general_outcome is_media_type t cols rows).
Proof.
  intros Ht Hrows. destruct rows as [|row rows]; [done|].
  unfold batched, general_outcome. cbn [length batched_aux for_each].
  unfold _PAGE_SIZE at 1 3. cbn [take].
  unfold mbind, M_bind. rewrite push_page_run; [|done|].
  - by destruct (media_check _) as [[]|].
  - apply Forall_cons in Hrows as [Hrow Hrows]. constructor; [done|].
    by apply Forall_take.
Qed.

End GeneralPath.

Section GeneralPush.

Context {Table : Type} `{TableAdapter Table}.
Variable is_media_type : ColumnType → bool.
Variable fromstring : string → Result Element.
Variable project : Project.

Lemma new_rows_lengths cols existing_tasks (t : Table) :
  Forall (λ row, length (vals row) ≤ length cols)%nat
    (new_rows is_media_type t cols existing_tasks).
Proof.
  apply Forall_forall. intros row Hrow.
  unfold new_rows in Hrow. apply list_elem_of_filter in Hrow as [_ Hrow].
  apply select_vals_length in Hrow. rewrite Hrow.
  unfold push_selection. by rewrite length_fmap.
Qed.

(** The general path as a whole: the reads, the selection of the rows, and
    then what the first batch of the rows left to push decides. *)
Lemma push_general_run col_mapping existing_tasks pc (w : World Table) :
  Forall (λ task, has_rowid task) existing_tasks →
  _parse_project_config fromstring (label_config project) = Ok pc →
  Forall (λ c, is_Some (columns (tbl w) !! c)) (push_cols pc col_mapping).*1 →
  Forall (λ c, column_not_stored is_media_type (tbl w) c = false)
    (push_cols pc col_mapping).*1 →
  single_media is_media_type (tbl w) (push_cols pc col_mapping).*1 = false →
  _create_tasks_from_table is_media_type fromstring project
    col_mapping existing_tasks w
  = (after_general_select is_media_type col_mapping (push_cols pc col_mapping).*1 w,
     general_outcome is_media_type (tbl w) (push_cols pc col_mapping).*1
       (new_rows is_media_type (tbl w) (push_cols pc col_mapping).*1
          existing_tasks)).
Proof.
  intros Hrows Hpc Hcols Hstored Hsingle.
  destruct (push_reads_run is_media_type fromstring project
              col_mapping existing_tasks pc w Hrows Hpc)
    as (r_push_cols & _ & _ & ->).
  cbv zeta.
  rewrite (bind_ok _ _ _ _ _
             (check_loop_ok is_media_type _ (after_push_reads col_mapping w)
                Hcols Hstored)).
  rewrite (bind_ok _ _ _ _ _
             (single_media_run is_media_type (tbl w) _
                (after_push_reads col_mapping w) Hcols)).
  rewrite Hsingle.
  rewrite (bind_ok _ _ _ _ _
             (select_exprs_run is_media_type (tbl w) _
                (after_push_reads col_mapping w) eq_refl Hcols)).
  rewrite (bind_ok _ _ _ _ _ (t_select_run _ _)).
  cbn [tbl after_push_reads add_remote add_table_calls].
  rewrite (list_filter_iff
             (λ row, rowid row ∉ (list_to_set (remote_rowids existing_tasks)
                                  : gset (list Z)))
             (λ row, rowid row ∉ remote_rowids existing_tasks))
    by (intros row; by rewrite elem_of_list_to_set).
  apply (push_pages_run is_media_type (tbl w) _ _ Hcols).
  - reflexivity.
  - apply new_rows_lengths.
Qed.

End GeneralPush.

Section GeneralPushProperties.

Context {Table : Type} `{TableAdapter Table}.
Variable is_media_type : ColumnType → bool.
Variable fromstring : string → Result Element.
Variable project : Project.

(** X24.  On the general path (the push columns exist, are stored where
    they are media columns, and are not a single media column) the push
    creates nothing: its only remote calls are the reads of the project
    parameters, it returns exactly when no row is left to push, and when the
    first batch of the rows left to push passes the test for local files it
    raises [TypeError] at the bulk create of that batch. *)
Theorem push_general_creates_nothing col_mapping existing_tasks pc
    (w : World Table) :
  Forall (λ task, has_rowid task) existing_tasks →
  _parse_project_config fromstring (label_config project) = Ok pc →
  push_cols pc col_mapping ≠ [] →
  Forall (λ c, is_Some (columns (tbl w) !! c)) (push_cols pc col_mapping).*1 →
  Forall (λ c, column_not_stored is_media_type (tbl w) c = false)
    (push_cols pc col_mapping).*1 →
  single_media is_media_type (tbl w) (push_cols pc col_mapping).*1 = false →
  ∃ w' r,
    _create_tasks_from_table is_media_type fromstring project
      col_mapping existing_tasks w = (w', r)
    ∧ remote_calls w'
      = remote_calls w ++ replicate (length col_mapping) GetParams
    ∧ tbl w' = tbl w
    ∧ (r = Ok tt
       ↔ new_rows is_media_type (tbl w) (push_cols pc col_mapping).*1
           existing_tasks = [])
    ∧ (new_rows is_media_type (tbl w) (push_cols pc col_mapping).*1
         existing_tasks ≠ [] →
       Forall (λ v, is_remote_ref v = true)
         (take _PAGE_SIZE
            (new_rows is_media_type (tbl w) (push_cols pc col_mapping).*1
               existing_tasks)
          ≫= media_vals is_media_type (tbl w) (push_cols pc col_mapping).*1) →
       r = Raise TypeError).
Proof.
  intros Hrows Hpc _ Hcols Hstored Hsingle.
  eexists _, _. split.
  { by apply push_general_run. }
  split; [done|]. split; [done|].
  unfold general_outcome.
  destruct (new_rows _ _ _ _) as [|row rows]; [done|].
  split.
  - split; [|done]. by destruct (media_check _) as [[]|].
  - intros _ Hpass. by rewrite (media_check_ok _ Hpass).
Qed.

(** X25.  On the general path, when the first media projection that is not
    a remote reference, among those of the first batch of the rows left to
    push taken in the order of the rows and of the push columns, is a
    local-file reference, the push raises the validation error; its only
    remote calls are the reads of the project parameters, so no create call
    was issued. *)
Theorem push_local_media_first col_mapping existing_tasks pc (w : World Table)
    (pre post : list PyVal) (v : PyVal) :
  Forall (λ task, has_rowid task) existing_tasks →
  _parse_project_config fromstring (label_config project) = Ok pc →
  push_cols pc col_mapping ≠ [] →
  Forall (λ c, is_Some (columns (tbl w) !! c)) (push_cols pc col_mapping).*1 →
  Forall (λ c, column_not_stored is_media_type (tbl w) c = false)
    (push_cols pc col_mapping).*1 →
  single_media is_media_type (tbl w) (push_cols pc col_mapping).*1 = false →
  take _PAGE_SIZE
    (new_rows is_media_type (tbl w) (push_cols pc col_mapping).*1 existing_tasks)
  ≫= media_vals is_media_type (tbl w) (push_cols pc col_mapping).*1
  = pre ++ v :: post →
  Forall (λ u, is_remote_ref u = true) pre →
  is_local_file v = true →
  ∃ w',
    _create_tasks_from_table is_media_type fromstring project
      col_mapping existing_tasks w = (w', Raise (Error local_media_error))
    ∧ remote_calls w'
      = remote_calls w ++ replicate (length col_mapping) GetParams
    ∧ tbl w' = tbl w.
Proof.
  intros Hrows Hpc _ Hcols Hstored Hsingle Hscan Hpre Hv.
  exists (after_general_select is_media_type col_mapping
            (push_cols pc col_mapping).*1 w).
  split; [|split; reflexivity].
  rewrite (push_general_run is_media_type fromstring project col_mapping
             existing_tasks pc w Hrows Hpc Hcols Hstored Hsingle).
  f_equal. unfold general_outcome.
  destruct (new_rows _ _ _ _) as [|row rows] eqn:Hnew.
  { rewrite take_nil in Hscan. by destruct pre. }
  by rewrite Hscan, (media_check_local _ _ _ Hpre Hv).
Qed.

End GeneralPushProperties.

(** ** The claims on sample inputs *)

Lemma push_general_creates_nothing_witness :
  ∃ w',
    _create_tasks_from_table Sample.is_media
      (Sample.parses_to Sample.tree_prompt_img)
      (Sample.project_with Sample.config_prompt_img [])
      Sample.mapping_prompt_img Sample.three_tasks Sample.world_4
    = (w', Raise TypeError)
    ∧ remote_calls w' = [GetParams; GetParams; GetParams].
Proof.
  destruct (push_general_creates_nothing Sample.is_media
              (Sample.parses_to Sample.tree_prompt_img)
              (Sample.project_with Sample.config_prompt_img [])
              Sample.mapping_prompt_img Sample.three_tasks
              Sample.schema_prompt_img Sample.world_4)
    as (w' & r & Hrun & Hcalls & _ & _ & Hraise).
  - by_decide.
  - by vm_compute.
  - by vm_compute.
  - by_decide.
  - by_decide.
  - by vm_compute.
  - exists w'. rewrite Hcalls. split; [|reflexivity].
    rewrite Hrun, Hraise; [done|by vm_compute|].
    repeat constructor.
Defined.

Lemma push_local_media_first_witness :
  ∃ w',
    _create_tasks_from_table Sample.is_media
      (Sample.parses_to Sample.tree_prompt_img)
      (Sample.project_with Sample.config_prompt_img [])
      Sample.mapping_prompt_img Sample.three_tasks Sample.world_local
    = (w', Raise (Error local_media_error))
    ∧ remote_calls w' = [GetParams; GetParams; GetParams].
Proof.
  destruct (push_local_media_first Sample.is_media
              (Sample.parses_to Sample.tree_prompt_img)
              (Sample.project_with Sample.config_prompt_img [])
              Sample.mapping_prompt_img Sample.three_tasks
              Sample.schema_prompt_img Sample.world_local
              [] [] (VStr "file:///media/img-4"))
    as (w' & Hrun & Hcalls & _).
  - by_decide.
  - by vm_compute.
  - by vm_compute.
  - by_decide.
  - by_decide.
  - by vm_compute.
  - by vm_compute.
  - constructor.
  - reflexivity.
  - exists w'. rewrite Hcalls. split; [exact Hrun|reflexivity].
Defined.

(** C5.  Four rows left to push on the general path, every one passing the
    test for local files: the record built for a row holds under ['data']
    the [zip] object, which is not a mapping and which the client cannot
    encode; the bulk create of the one batch raises [TypeError], and no
    batch is submitted. *)
Lemma push_general_bulk_create_raises :
  (make_task Sample.is_media ["prompt"; "img"] ["prompt"; "img"]
     (mkRow [1] [VStr "prompt-1"; VStr "https://host/img-1"]) Sample.world_4).2
  = Ok (mkNewTask
          (DataZip ["prompt"; "img"] [VStr "prompt-1"; VStr "https://host/img-1"])
          [1])
  ∧ json_encodable
      (DataZip ["prompt"; "img"] [VStr "prompt-1"; VStr "https://host/img-1"])
    = false
  ∧ ∃ w',
      _create_tasks_from_table Sample.is_media
        (Sample.parses_to Sample.tree_prompt_img)
        (Sample.project_with Sample.config_prompt_img [])
        Sample.mapping_prompt_img [] Sample.world_4
      = (w', Raise TypeError)
      ∧ remote_calls w' = [GetParams; GetParams; GetParams]
      ∧ created_count (remote_calls w') = 0%nat.
Proof.
  split; [by vm_compute|]. split; [reflexivity|].
  eexists. split_and!; by vm_compute.
Qed.

(** C6.  A hundred and one rows left to push on the general path, the image
    of the last one a local file: that row is in the second batch, and the
    push never gets to it; the first batch passes the test for local files
    and its bulk create raises [TypeError], which is not the validation
    error. *)
Lemma push_local_media_second_batch :
  (batched
     (new_rows Sample.is_media MoreSamples.table_101 ["prompt"; "img"] [])
     _PAGE_SIZE) !! 1%nat
  = Some [mkRow [101] [VStr "prompt-n"; VStr "file:///media/img-n"]]
  ∧ ∃ w',
      _create_tasks_from_table Sample.is_media
        (Sample.parses_to Sample.tree_prompt_img)
        (Sample.project_with Sample.config_prompt_img [])
        Sample.mapping_prompt_img [] MoreSamples.world_101
      = (w', Raise TypeError)
      ∧ remote_calls w' = [GetParams; GetParams; GetParams].
Proof. split; [by vm_compute|]. eexists. split; by vm_compute. Qed.

Lemma push_unstored_media_fails_witness :
  ∃ w',
    _create_tasks_from_table Sample.is_media
      (Sample.parses_to Sample.tree_prompt_clip)
      (Sample.project_with "<View/>" [])
      Sample.mapping_prompt_clip Sample.three_tasks Sample.world_4
    = (w', Raise (Error (not_stored_error "clip")))
    ∧ remote_calls w' = [GetParams; GetParams].
Proof.
  destruct (push_unstored_media_fails Sample.is_media
              (Sample.parses_to Sample.tree_prompt_clip)
              (Sample.project_with "<View/>" [])
              Sample.mapping_prompt_clip Sample.three_tasks
              Sample.schema_prompt_clip Sample.world_4)
    as (c & w' & new & Hin & Hc & Hrun & Hcalls & Hnew & _).
  - by_decide.
  - by vm_compute.
  - by_decide.
  - by_decide.
  - exists w'. rewrite Hcalls, Hnew.
    assert (c = "clip") as ->.
    { vm_compute in Hin.
      apply elem_of_cons in Hin as [->|Hin]; [by vm_compute in Hc|].
      by apply list_elem_of_singleton in Hin. }
    split; [exact Hrun|]. by vm_compute.
Defined.

(** C7, the claim as stated fails: the video column of the sample table is
    a push column and is not stored; no remote call had been made before the
    push, and when the push raises the validation error it has asked the
    project for its parameters twice, once per item of the column
    mapping. *)
Lemma push_unstored_media_reads_remote :
  column_not_stored Sample.is_media Sample.table_4 "clip" = true
  ∧ remote_calls Sample.world_4 = []
  ∧ ∃ w',
      _create_tasks_from_table Sample.is_media
        (Sample.parses_to Sample.tree_prompt_clip)
        (Sample.project_with "<View/>" [])
        Sample.mapping_prompt_clip Sample.three_tasks Sample.world_4
      = (w', Raise (Error (not_stored_error "clip")))
      ∧ remote_calls w' = [GetParams; GetParams]
      ∧ remote_calls w' ≠ remote_calls Sample.world_4.
Proof.
  split; [by vm_compute|]. split; [reflexivity|].
  eexists. split_and!; [by vm_compute|by vm_compute|]. by vm_compute.
Qed.

(** On the general path a media projection that is missing, met before a
    local-file reference of the same batch, stops the push at the test for
    local files with [AttributeError]. *)
Example push_null_before_local_media :
  ∃ w',
    _create_tasks_from_table Sample.is_media
      (Sample.parses_to Sample.tree_prompt_img)
      (Sample.project_with Sample.config_prompt_img [])
      Sample.mapping_prompt_img [] MoreSamples.world_null_local
    = (w', Raise AttributeError)
    ∧ remote_calls w' = [GetParams; GetParams; GetParams].
Proof. eexists. split; by vm_compute. Qed.

(** ** Further examples *)

(** Tags are looked up ignoring letter case; a tag outside the table has no
    type. *)
Example tag_type_examples :
  tag_type "Text" = Some StringType ∧ tag_type "IMAGE" = Some ImageType
  ∧ tag_type "video" = Some VideoType ∧ tag_type "Audio" = Some AudioType
  ∧ tag_type "Choices" = None.
Proof. by vm_compute. Qed.

(** A later declaration of a variable overrides an earlier one. *)
Example parse_last_declaration_wins :
  _parse_project_config
    (Sample.parses_to
       (mkElement "View" ∅
          [mkElement "Text" {["value" := "$x"]} [];
           mkElement "Image" {["value" := "$x"]} []]))
    "<View/>"
  = Ok {["x" := ImageType]}.
Proof. by vm_compute. Qed.

(** 250 rows go out as batches of 100, 100 and 50. *)
Example batched_250 :
  length <$> batched (seq 0 250) _PAGE_SIZE = [100; 100; 50]%nat.
Proof. by vm_compute. Qed.

(** With a single media push column the push uploads one file per missing
    row and tags the task created for it. *)
Example push_single_media :
  (_create_tasks_from_table Sample.is_media
     (Sample.parses_to
        (mkElement "View" ∅ [mkElement "Image" {["value" := "$img"]} []]))
     (Sample.project_with "<View/>" [])
     [("img", "img")] Sample.three_tasks Sample.world_4).1.(remote_calls)
  = [GetParams; ImportTasksFile "/media/img-4"; UpdateTask 1 [4]; GetParams].
Proof. by vm_compute. Qed.

(** On the general path a row without a media value stops the push at the
    test for local files: [None] has no [startswith]. *)
Example push_null_media :
  ∃ w',
    _create_tasks_from_table Sample.is_media
      (Sample.parses_to Sample.tree_prompt_img)
      (Sample.project_with Sample.config_prompt_img [])
      Sample.mapping_prompt_img Sample.three_tasks Sample.world_null
    = (w', Raise AttributeError)
    ∧ remote_calls w' = [GetParams; GetParams; GetParams].
Proof. eexists. split; by vm_compute. Qed.

(** * Further properties of the code *)

(** ** Config parser *)

(** X1.  Only the direct children of the root are looked at: what the children
    themselves contain, and the attributes of the root, play no part. *)
Theorem parse_ignores_nested (root : Element) (root_attrib : gmap string string)
    (config : string) :
  _parse_project_config (λ _, Ok root) config
  = _parse_project_config
      (λ _, Ok (mkElement (tag root) root_attrib (prune <$> children root)))
      config.
Proof.
  unfold _parse_project_config. simpl.
  destruct (negb _); [done|]. destruct (negb _); [done|].
  unfold _extract_vars_from_project_config. simpl. f_equal.
  induction (children root) as [|e es IH]; [done|].
  rewrite fmap_cons. cbn [extract_elements].
  replace (extract_element (prune e)) with (extract_element e) by done.
  by rewrite IH.
Qed.

(** ** Task enumerator *)

Section EnumeratorEdges.

Context {Table : Type}.
Variable project : Project.

(** X2.  When the first response signals the end of pagination, the scan yields
    nothing after that one request and logs nothing, whatever tasks the
    response carries. *)
Theorem scan_ends_on_first_response (fuel : nat) (w : World Table) :
  end_pagination (get_paginated_tasks project 1 _PAGE_SIZE) = true →
  _get_all_tasks project (S fuel) w
  = (add_remote w [GetPaginatedTasks 1 _PAGE_SIZE], Ok (Some [])).
Proof.
  intros Hend. unfold _get_all_tasks. simpl. unfold_m. simpl.
  by rewrite Hend.
Qed.

Lemma pages_loop_no_end fuel :
  (∀ page, end_pagination (get_paginated_tasks project page _PAGE_SIZE) = false) →
  ∀ page n (w : World Table),
    pages_loop project fuel page n w
    = (add_remote w ((λ p, GetPaginatedTasks p _PAGE_SIZE) <$> seq page fuel),
       Ok None).
Proof.
  intros Hno. induction fuel as [|fuel IH]; intros page n w.
  - simpl. unfold_m. by rewrite add_remote_nil.
  - cbn [pages_loop]. unfold mbind at 1, M_bind at 1. unfold remote at 1.
    rewrite Hno. destruct (page_loop _ n) as [ys n'].
    unfold mbind, M_bind. rewrite IH. simpl. unfold add_remote. simpl.
    by rewrite <- app_assoc.
Qed.

(** X3.  When the service never signals the end of pagination, the scan has not
    returned after any number of page requests: it keeps asking for the next
    page, and logs nothing. *)
Theorem scan_never_returns (fuel : nat) (w : World Table) :
  (∀ page, end_pagination (get_paginated_tasks project page _PAGE_SIZE) = false) →
  _get_all_tasks project fuel w
  = (add_remote w ((λ p, GetPaginatedTasks p _PAGE_SIZE) <$> seq 1 fuel),
     Ok None).
Proof.
  intros Hno. unfold _get_all_tasks. unfold mbind, M_bind.
  by rewrite (pages_loop_no_end fuel Hno).
Qed.

End EnumeratorEdges.

Lemma scan_ends_on_first_response_witness :
  _get_all_tasks MoreSamples.project_ending 5 Sample.world_4
  = (add_remote Sample.world_4 [GetPaginatedTasks 1 100], Ok (Some [])).
Proof.
  apply (scan_ends_on_first_response MoreSamples.project_ending 4 Sample.world_4).
  reflexivity.
Defined.

Lemma scan_never_returns_witness :
  _get_all_tasks MoreSamples.project_endless 3 Sample.world_4
  = (add_remote Sample.world_4
       [GetPaginatedTasks 1 100; GetPaginatedTasks 2 100; GetPaginatedTasks 3 100],
     Ok None).
Proof.
  apply (scan_never_returns MoreSamples.project_endless 3 Sample.world_4).
  intros page. reflexivity.
Defined.

(** ** Pull merger *)

Lemma map_result_update_record_absent col (tasks : list Task) :
  Exists (λ task, meta_rowid task = RowidAbsent) tasks →
  map_result (update_record col) tasks = Raise (KeyError "rowid").
Proof.
  induction tasks as [|task tasks IH]; intros Hex; [by apply Exists_nil in Hex|].
  cbn [map_result]. unfold update_record at 1, meta_rowid_item.
  destruct (meta_rowid task) eqn:Hm; simpl; [done| |];
    (apply Exists_cons in Hex as [Hex|Hex]; [congruence|]);
    by rewrite (IH Hex).
Qed.

Lemma map_result_update_record_raise col (tasks : list Task) e :
  map_result (update_record col) tasks = Raise e → e = KeyError "rowid".
Proof.
  induction tasks as [|task tasks IH]; [done|].
  cbn [map_result]. unfold update_record at 1, meta_rowid_item.
  destruct (meta_rowid task); simpl; [by intros [= <-]| |];
    (destruct (map_result (update_record col) tasks); simpl; [done|]);
    intros [= <-]; by apply IH.
Qed.

Section PullEdges.

Context {Table : Type} `{TableAdapter Table}.
Variable project : Project.

(** X4.  Without the annotations field among the values of the column mapping the
    pull fails its assertion at once: nothing is called and nothing
    changes. *)
Theorem pull_without_annotations_mapping col_mapping tasks (w : World Table) :
  ANNOTATIONS_COLUMN ∉ col_mapping.*2 →
  _update_table_from_tasks project col_mapping tasks w = (w, Raise AssertionError).
Proof.
  intros Hno. unfold _update_table_from_tasks.
  by rewrite bool_decide_eq_false_2.
Qed.

(** X5.  A task without a [rowid] entry in its meta makes the pull raise
    [KeyError] while it builds the update list: the table adapter is not
    called and nothing changes, also for the tasks that do have one. *)
Theorem pull_task_without_rowid col_mapping tasks (w : World Table) :
  ANNOTATIONS_COLUMN ∈ col_mapping.*2 →
  Exists (λ task, meta_rowid task = RowidAbsent) tasks →
  _update_table_from_tasks project col_mapping tasks w
  = (w, Raise (KeyError "rowid")).
Proof.
  intros Hann Hex. unfold _update_table_from_tasks.
  rewrite bool_decide_eq_true_2 by done. simpl.
  destruct (next_key_of_values col_mapping _ Hann) as (col & Hcol & _).
  unfold_m. rewrite Hcol.
  by rewrite (map_result_update_record_absent col tasks Hex).
Qed.

Lemma pull_remote_calls col_mapping tasks (w : World Table) :
  ∃ new,
    remote_calls (_update_table_from_tasks project col_mapping tasks w).1
    = remote_calls w ++ new
    ∧ (new = [] ∨ new = [GetParams]).
Proof.
  unfold _update_table_from_tasks.
  destruct (bool_decide (ANNOTATIONS_COLUMN ∈ col_mapping.*2)) eqn:Hann; simpl.
  2:{ exists []. rewrite app_nil_r. by split; [|left]. }
  apply bool_decide_eq_true_1 in Hann.
  destruct (next_key_of_values col_mapping _ Hann) as (col & Hcol & _).
  unfold mbind at 1, M_bind at 1. unfold lift at 1. rewrite Hcol.
  unfold mbind at 1, M_bind at 1. unfold lift at 1.
  destruct (map_result (update_record col) tasks) as [updates|e] eqn:Hupd.
  2:{ exists []. rewrite app_nil_r. by split; [|left]. }
  pose proof (pull_run project col_mapping tasks col updates w Hann Hcol Hupd)
    as Hrun.
  unfold _update_table_from_tasks in Hrun.
  rewrite bool_decide_eq_true_2 in Hrun by done. simpl in Hrun.
  unfold mbind at 1, M_bind at 1 in Hrun. unfold lift at 1 in Hrun.
  rewrite Hcol in Hrun.
  unfold mbind at 1, M_bind at 1 in Hrun. unfold lift at 1 in Hrun.
  rewrite Hupd in Hrun. rewrite Hrun. simpl.
  destruct updates; simpl.
  - exists []. rewrite app_nil_r. by split; [|left].
  - exists [GetParams]. by split; [|right].
Qed.

(** X6.  Whatever its outcome, the pull sends the remote side nothing but at most
    one read of the project parameters: it never creates or updates a
    task. *)
Theorem pull_never_writes_remote col_mapping tasks (w : World Table) :
  ∃ new,
    remote_calls (_update_table_from_tasks project col_mapping tasks w).1
    = remote_calls w ++ new
    ∧ (new = [] ∨ new = [GetParams])
    ∧ (length new ≤ 1)%nat
    ∧ Forall (λ c, c = GetParams) new
    ∧ Forall (λ c, is_create_or_update c = false) new.
Proof.
  destruct (pull_remote_calls col_mapping tasks w) as (new & Hcalls & [->| ->]);
    eexists; (split; [exact Hcalls|]);
    (split; [by (left + right)|]); (split; [simpl; lia|]);
    by repeat constructor.
Qed.

(** X7.  When there are tasks to pull, the pull logs the number of rows it
    updates, which is the number of tasks, and prints the total number of
    annotations of the tasks next to it. *)
Theorem pull_reports_counts col_mapping (tasks : list Task) (w : World Table) :
  ANNOTATIONS_COLUMN ∈ col_mapping.*2 →
  Forall (λ task, has_rowid task) tasks →
  tasks ≠ [] →
  ∃ col,
    next_key_of col_mapping ANNOTATIONS_COLUMN = Ok col
    ∧ log (_update_table_from_tasks project col_mapping tasks w).1
      = log w
          ++ [InfoUpdating (get_name (tbl w)) col (length tasks);
              PrintSynced
                (sum_list ((λ task, length (annotations task)) <$> tasks))
                (length tasks)
                ("LabelStudioProject `" +:+ title project +:+ "`")].
Proof.
  intros Hann Hrows Hne.
  destruct (next_key_of_values col_mapping _ Hann) as (col & Hcol & _).
  destruct (map_result_update_records col tasks Hrows) as (updates & Hupd & _).
  exists col. split; [done|].
  rewrite (pull_run project col_mapping tasks col updates w Hann Hcol Hupd).
  pose proof (map_result_length _ _ _ Hupd) as Hlen.
  destruct updates as [|u updates]; [by destruct tasks|].
  simpl. by rewrite <- Hlen.
Qed.

(** X22.  A column mapping whose values cover the pull columns passes the
    assertion of the pull. *)
Theorem pull_columns_pass_assertion col_mapping tasks (w : World Table) :
  (∀ name, name ∈ dom get_pull_columns → name ∈ col_mapping.*2) →
  (_update_table_from_tasks project col_mapping tasks w).2
  ≠ Raise AssertionError.
Proof.
  intros Hcover.
  assert (ANNOTATIONS_COLUMN ∈ col_mapping.*2) as Hann.
  { apply Hcover. unfold get_pull_columns. rewrite dom_singleton_L. set_solver. }
  destruct (next_key_of_values col_mapping _ Hann) as (col & Hcol & _).
  destruct (map_result (update_record col) tasks) as [updates|e] eqn:Hupd.
  - by rewrite (pull_run project col_mapping tasks col updates w Hann Hcol Hupd).
  - unfold _update_table_from_tasks.
    rewrite bool_decide_eq_true_2 by done. simpl.
    unfold_m. rewrite Hcol, Hupd. simpl. intros [= ->].
    by apply map_result_update_record_raise in Hupd.
Qed.

End PullEdges.

Lemma pull_without_annotations_mapping_witness :
  _update_table_from_tasks (Sample.project_with "<View/>" [])
    MoreSamples.mapping_img Sample.three_tasks Sample.world_4
  = (Sample.world_4, Raise AssertionError).
Proof.
  apply (pull_without_annotations_mapping (Sample.project_with "<View/>" [])).
  by_decide.
Defined.

Lemma pull_task_without_rowid_witness :
  _update_table_from_tasks (Sample.project_with "<View/>" [])
    Sample.mapping_prompt_img [Sample.task_1; Sample.task_anon] Sample.world_4
  = (Sample.world_4, Raise (KeyError "rowid")).
Proof.
  apply (pull_task_without_rowid (Sample.project_with "<View/>" [])).
  - by_decide.
  - apply Exists_cons_tl, Exists_cons_hd. reflexivity.
Defined.

Lemma pull_reports_counts_witness :
  log (_update_table_from_tasks (Sample.project_with "<View/>" [])
         Sample.mapping_prompt_img Sample.three_tasks Sample.world_4).1
  = [InfoUpdating "t" "ann" 3; PrintSynced 1 3 "LabelStudioProject `demo`"].
Proof.
  destruct (pull_reports_counts (Sample.project_with "<View/>" [])
              Sample.mapping_prompt_img Sample.three_tasks Sample.world_4)
    as (col & Hcol & Hlog).
  - by_decide.
  - by_decide.
  - done.
  - rewrite Hlog. vm_compute in Hcol. by injection Hcol as <-.
Defined.

Lemma pull_columns_pass_assertion_witness :
  (_update_table_from_tasks (Sample.project_with "<View/>" [])
     Sample.mapping_prompt_img [Sample.task_anon] Sample.world_4).2
  ≠ Raise AssertionError.
Proof.
  apply (pull_columns_pass_assertion (Sample.project_with "<View/>" [])).
  intros name Hname. unfold get_pull_columns in Hname.
  rewrite dom_singleton_L in Hname. apply elem_of_singleton in Hname as ->.
  by_decide.
Defined.

(** ** Push reconciler *)

Lemma replicate_get_params_quiet k :
  Forall (λ c, is_page_request c = false) (replicate k GetParams).
Proof. apply Forall_forall. by intros c [-> _]%elem_of_replicate. Qed.

Section PushEffects.

Context {Table : Type} `{TableAdapter Table}.
Variable is_media_type : ColumnType → bool.
Variable fromstring : string → Result Element.
Variable project : Project.

Lemma upload_row_calls (S : gset (list Z)) n row (w w' : World Table) r :
  upload_row project S n row w = (w', r) →
  ∃ new, w' = add_remote w new ∧ Forall (λ c, is_page_request c = false) new.
Proof.
  unfold upload_row. unfold_m. simpl. intros Hrun.
  repeat case_match; simplify_eq/=.
  - exists [ImportTasksFile a; UpdateTask a0 (rowid row)].
    unfold add_remote. simpl. rewrite <- app_assoc. by repeat constructor.
  - exists [ImportTasksFile a]. by repeat constructor.
  - exists []. by rewrite add_remote_nil.
  - exists []. by rewrite add_remote_nil.
Qed.

Lemma upload_rows_calls (S : gset (list Z)) rows :
  ∀ n (w w' : World Table) r,
    upload_rows project S n rows w = (w', r) →
    ∃ new, w' = add_remote w new ∧ Forall (λ c, is_page_request c = false) new.
Proof.
  induction rows as [|row rows IH]; intros n w w' r Hrun; simpl in Hrun.
  - apply ret_inv in Hrun as [-> _]. exists []. by rewrite add_remote_nil.
  - bind_inv_with @bind_inv Hrun;
      apply upload_row_calls in Hm as (new1 & -> & Hq1); [|by exists new1].
    apply IH in Hrun as (new2 & -> & Hq2).
    exists (new1 ++ new2). rewrite add_remote_app. split; [done|].
    by apply Forall_app.
Qed.

Lemma push_effects col_mapping existing_tasks (w w' : World Table) r :
  _create_tasks_from_table is_media_type fromstring project
    col_mapping existing_tasks w = (w', r) →
  ∃ new tc,
    remote_calls w' = remote_calls w ++ new
    ∧ table_calls w' = table_calls w ++ tc
    ∧ tbl w' = tbl w
    ∧ Forall (λ c, is_page_request c = false) new
    ∧ Forall (λ c, is_batch_update c = false) tc.
Proof.
  unfold _create_tasks_from_table. intros Hrun.
  assert (∀ k, ∃ new tc,
            remote_calls (add_remote (add_table_calls w [TColumnTypes])
                            (replicate k GetParams))
            = remote_calls w ++ new
            ∧ table_calls (add_remote (add_table_calls w [TColumnTypes])
                             (replicate k GetParams))
              = table_calls w ++ tc
            ∧ tbl (add_remote (add_table_calls w [TColumnTypes])
                     (replicate k GetParams)) = tbl w
            ∧ Forall (λ c, is_page_request c = false) new
            ∧ Forall (λ c, is_batch_update c = false) tc) as Hreads.
  { intros k. exists (replicate k GetParams), [TColumnTypes].
    split_and!; [done..|apply replicate_get_params_quiet|by repeat constructor]. }
  bind_inv_with @bind_inv Hrun; apply lift_inv in Hm as [-> Hids].
  2:{ exists [], []. rewrite !app_nil_r. by split_and!. }
  rewrite (bind_ok _ _ _ _ _ (t_column_types_run w)) in Hrun.
  bind_inv_with @bind_inv Hrun;
    apply select_push_cols_inv in Hm as [k ->]; [|by apply Hreads].
  rename a0 into t_push_cols.
  bind_inv_with @bind_inv Hrun; apply lift_inv in Hm as [-> Hr];
    [|by apply Hreads].
  rename a0 into r_push_cols.
  bind_inv_with @bind_inv Hrun;
    apply (for_each_quiet _ _ (check_stored_inv is_media_type _)) in Hm as ->;
    [|by apply Hreads].
  bind_inv_with @bind_inv Hrun.
  2:{ destruct t_push_cols as [|c [|c' cols]]; try done.
      bind_inv_with @bind_inv Hm; apply lift_inv in Hm0 as [-> ?]; [done|].
      by apply Hreads. }
  assert (w0 = add_remote (add_table_calls w [TColumnTypes]) (replicate k GetParams))
    as ->.
  { destruct t_push_cols as [|c [|c' cols]];
      try (by apply ret_inv in Hm as [-> _]).
    bind_inv_with @bind_inv Hm; apply lift_inv in Hm0 as [-> ?]; [|done].
    by apply ret_inv in Hm as [-> _]. }
  clear Hm. destruct a1.
  - bind_inv_with @bind_inv Hrun; apply lift_inv in Hm as [-> _];
      [|by apply Hreads].
    bind_inv_with @bind_inv Hrun; apply t_getitem_inv in Hm as ->;
      [|by apply Hreads].
    rewrite (bind_ok _ _ _ _ _ (t_select_run _ _)) in Hrun.
    bind_inv_with @bind_inv Hrun;
      apply upload_rows_calls in Hm as (new_u & -> & Hq).
    + rewrite (bind_ok _ _ _ _ _ (repr_run _ _)) in Hrun.
      unfold emit in Hrun. injection Hrun as <- <-.
      exists (replicate k GetParams ++ new_u ++ [GetParams]),
        [TColumnTypes; TSelect [ColRef a1; LocalPath a1]].
      simpl. rewrite <- !app_assoc. split_and!; [done..| |by repeat constructor].
      apply Forall_app. split; [apply replicate_get_params_quiet|].
      apply Forall_app. split; [done|by repeat constructor].
    + exists (replicate k GetParams ++ new_u),
        [TColumnTypes; TSelect [ColRef a1; LocalPath a1]].
      simpl. rewrite <- !app_assoc. split_and!; [done..| |by repeat constructor].
      apply Forall_app. split; [apply replicate_get_params_quiet|done].
  - bind_inv_with @bind_inv Hrun;
      apply (map_m_quiet _ _ (select_expr_inv is_media_type _)) in Hm as ->;
      [|by apply Hreads].
    rewrite (bind_ok _ _ _ _ _ (t_select_run _ _)) in Hrun.
    apply for_each_push_page_inv in Hrun as (done & rest & Hpages & -> & _ & _).
    exists (replicate k GetParams ++ (import_page r_push_cols <$> done)),
      [TColumnTypes; TSelect a1].
    simpl. rewrite <- !app_assoc. split_and!; [done..| |by repeat constructor].
    apply Forall_app. split; [apply replicate_get_params_quiet|].
    apply Forall_forall. by intros c [page [-> _]]%list_elem_of_fmap.
Qed.

(** X8.  Whatever its outcome, the push leaves the table as it was and only reads
    from it: it asks for the column types and selects rows, and never calls
    [batch_update]. *)
Theorem push_never_writes_table col_mapping existing_tasks (w : World Table) :
  ∃ tc,
    tbl (_create_tasks_from_table is_media_type fromstring project
           col_mapping existing_tasks w).1 = tbl w
    ∧ table_calls (_create_tasks_from_table is_media_type fromstring project
                     col_mapping existing_tasks w).1
      = table_calls w ++ tc
    ∧ Forall (λ c, is_batch_update c = false) tc.
Proof.
  destruct (_create_tasks_from_table is_media_type fromstring project
              col_mapping existing_tasks w) as [w' r] eqn:Hrun.
  destruct (push_effects _ _ _ _ _ Hrun) as (new & tc & _ & Htc & Htbl & _ & Hq).
  by exists tc.
Qed.

(** X9.  An enumerated task without a row coordinate stops the push before it
    calls anything: a missing [rowid] entry raises [KeyError], a null one
    [TypeError]. *)
Theorem push_task_without_rowid col_mapping pre task post (w : World Table) :
  Forall (λ task, has_rowid task) pre →
  has_rowid task = false →
  _create_tasks_from_table is_media_type fromstring project
    col_mapping (pre ++ task :: post) w
  = (w, Raise (match meta_rowid task with
               | RowidNull => TypeError
               | _ => KeyError "rowid"
               end)).
Proof.
  intros Hpre Htask. unfold _create_tasks_from_table.
  assert (map_result meta_rowid_tuple (pre ++ task :: post)
          = Raise (match meta_rowid task with
                   | RowidNull => TypeError
                   | _ => KeyError "rowid"
                   end)) as ->; [|done].
  induction Hpre as [|t0 pre Ht0 _ IH]; simpl.
  - unfold meta_rowid_tuple at 1. unfold has_rowid in Htask.
    by destruct (meta_rowid task).
  - unfold meta_rowid_tuple at 1. unfold has_rowid in Ht0.
    destruct (meta_rowid t0); try done. simpl. by rewrite IH.
Qed.

(** *** The single-media path *)

Lemma upload_row_new (S : gset (list Z)) n row file id ids (w : World Table) :
  rowid row ∉ S →
  local_path_of row = Some file →
  import_file_ids project (remote_calls w) file = id :: ids →
  upload_row project S n row w
  = (add_remote w (upload_calls file id row), Ok (Datatypes.S n)).
Proof.
  intros Hnew Hfile Hid. unfold upload_row.
  rewrite bool_decide_eq_true_2 by done. unfold local_path_of in Hfile.
  destruct (last (vals row)) as [[]|] eqn:Hlast; simplify_eq.
  unfold_m. unfold list_last, list_get. rewrite Hlast. simpl.
  rewrite Hid. simpl. unfold add_remote. simpl. by rewrite <- app_assoc.
Qed.

Lemma upload_row_old (S : gset (list Z)) n row (w : World Table) :
  ¬ (rowid row ∉ S) → upload_row project S n row w = (w, Ok n).
Proof.
  intros Hold. unfold upload_row. by rewrite bool_decide_eq_false_2.
Qed.

Lemma upload_rows_run (S : gset (list Z)) rows :
  (∀ history file, import_file_ids project history file ≠ []) →
  Forall (λ row, rowid row ∉ S → is_Some (local_path_of row)) rows →
  ∀ n (w : World Table),
    ∃ new,
      upload_rows project S n rows w
      = (add_remote w new,
         Ok (n + length (filter (λ row, rowid row ∉ S) rows))%nat)
      ∧ uploads project (remote_calls w) (filter (λ row, rowid row ∉ S) rows) new.
Proof.
  intros Hids. induction 1 as [|row rows Hrow _ IH]; intros n w.
  - exists []. simpl. unfold_m. rewrite add_remote_nil, Nat.add_0_r.
    split; [done|constructor].
  - cbn [upload_rows]. rewrite filter_cons.
    destruct (decide (rowid row ∉ S)) as [Hnew|Hold].
    + destruct (Hrow Hnew) as [file Hfile].
      destruct (import_file_ids project (remote_calls w) file) as [|id ids] eqn:Hid;
        [by apply Hids in Hid|].
      rewrite (bind_ok _ _ _ _ _ (upload_row_new S n row file id ids w Hnew Hfile Hid)).
      destruct (IH (Datatypes.S n)
                  (add_remote w (upload_calls file id row))) as (new & Hrun & Hup).
      exists (upload_calls file id row ++ new). split.
      * rewrite Hrun, add_remote_app. simpl. do 2 f_equal. lia.
      * by econstructor.
    + rewrite (bind_ok _ _ _ _ _ (upload_row_old S n row w Hold)).
      destruct (IH n w) as (new & Hrun & Hup). by exists new.
Qed.

Lemma upload_row_no_id (S : gset (list Z)) n row file (w : World Table) :
  rowid row ∉ S →
  local_path_of row = Some file →
  import_file_ids project (remote_calls w) file = [] →
  upload_row project S n row w
  = (add_remote w [ImportTasksFile file], Raise IndexError).
Proof.
  intros Hnew Hfile Hid. unfold upload_row.
  rewrite bool_decide_eq_true_2 by done. unfold local_path_of in Hfile.
  destruct (last (vals row)) as [[]|] eqn:Hlast; simplify_eq.
  unfold_m. unfold list_last, list_get. rewrite Hlast. simpl.
  by rewrite Hid.
Qed.

Lemma upload_rows_no_id (S : gset (list Z)) rows :
  ∀ n (w : World Table) row rest file,
    filter (λ row, rowid row ∉ S) rows = row :: rest →
    local_path_of row = Some file →
    import_file_ids project (remote_calls w) file = [] →
    upload_rows project S n rows w
    = (add_remote w [ImportTasksFile file], Raise IndexError).
Proof.
  induction rows as [|r0 rows IH]; intros n w row rest file Hfilter Hfile Hid;
    [done|].
  rewrite filter_cons in Hfilter. cbn [upload_rows].
  destruct (decide (rowid r0 ∉ S)) as [Hnew|Hold].
  - injection Hfilter as -> _.
    by rewrite (bind_raise _ _ _ _ _ (upload_row_no_id S n row file w Hnew Hfile Hid)).
  - rewrite (bind_ok _ _ _ _ _ (upload_row_old S n r0 w Hold)).
    by apply (IH n w row rest file).
Qed.

Lemma push_single_media_run col_mapping existing_tasks pc c col (w : World Table) :
  Forall (λ task, has_rowid task) existing_tasks →
  _parse_project_config fromstring (label_config project) = Ok pc →
  (push_cols pc col_mapping).*1 = [c] →
  columns (tbl w) !! c = Some col →
  is_media_type (col_type col) = true →
  is_stored col = true →
  _create_tasks_from_table is_media_type fromstring project
    col_mapping existing_tasks w
  = (tasks_created ←
       upload_rows project (list_to_set (remote_rowids existing_tasks)) 0
         (select_exec (tbl w) [ColRef c; LocalPath c]);
     r ← repr project;
     emit (PrintCreated tasks_created r))
      (add_table_calls (after_push_reads col_mapping w)
         [TSelect [ColRef c; LocalPath c]]).
Proof.
  intros Hrows Hpc Hcols Hc Hmedia Hstored.
  destruct (push_reads_run is_media_type fromstring project
              col_mapping existing_tasks pc w Hrows Hpc)
    as (r_push_cols & _ & _ & ->).
  rewrite Hcols. cbv zeta.
  assert (Forall (λ c0, is_Some (columns (tbl w) !! c0)) [c]) as Hex.
  { constructor; [by eexists|constructor]. }
  rewrite (bind_ok _ _ _ _ _
             (check_loop_ok is_media_type [c] (after_push_reads col_mapping w) Hex
                ltac:(constructor; [|constructor];
                      unfold column_not_stored; simpl; rewrite Hc, Hstored;
                      by destruct (is_media_type _)))).
  rewrite (bind_ok _ _ _ _ _
             (single_media_run is_media_type (tbl w) [c]
                (after_push_reads col_mapping w) Hex)).
  unfold single_media, column_is_media. rewrite Hc, Hmedia.
  change (list_get [c] 0) with (Ok c). rewrite bind_lift_ok.
  rewrite (bind_ok _ _ _ _ _
             (t_getitem_ok c col (after_push_reads col_mapping w) Hc)).
  by rewrite (bind_ok _ _ _ _ _ (t_select_run _ _)).
Qed.

(** X13.  With exactly one push column, a stored media column, local paths for
    the rows left to push and an upload that always answers with an id, the
    push returns; between the reads of the project parameters and the one
    for the report it issues, for each row left to push in table order, an
    upload of the row's local path followed by an update tagging the task
    just created with the row's rowid; it prints the number of these
    rows. *)
Theorem push_single_media_uploads col_mapping existing_tasks pc c col
    (w : World Table) :
  Forall (λ task, has_rowid task) existing_tasks →
  _parse_project_config fromstring (label_config project) = Ok pc →
  (push_cols pc col_mapping).*1 = [c] →
  columns (tbl w) !! c = Some col →
  is_media_type (col_type col) = true →
  is_stored col = true →
  (∀ history file, import_file_ids project history file ≠ []) →
  Forall (λ row, is_Some (local_path_of row))
    (filter (λ row, rowid row ∉ remote_rowids existing_tasks)
       (select_exec (tbl w) [ColRef c; LocalPath c])) →
  ∃ w' new,
    _create_tasks_from_table is_media_type fromstring project
      col_mapping existing_tasks w = (w', Ok tt)
    ∧ remote_calls w'
      = remote_calls w ++ replicate (length col_mapping) GetParams
          ++ new ++ [GetParams]
    ∧ uploads project
        (remote_calls w ++ replicate (length col_mapping) GetParams)
        (filter (λ row, rowid row ∉ remote_rowids existing_tasks)
           (select_exec (tbl w) [ColRef c; LocalPath c]))
        new
    ∧ log w'
      = log w
          ++ [PrintCreated
                (length (filter (λ row, rowid row ∉ remote_rowids existing_tasks)
                           (select_exec (tbl w) [ColRef c; LocalPath c])))
                ("LabelStudioProject `" +:+ title project +:+ "`")].
Proof.
  intros Hrows Hpc Hcols Hc Hmedia Hstored Hids Hpaths.
  rewrite (push_single_media_run col_mapping existing_tasks pc c col w
             Hrows Hpc Hcols Hc Hmedia Hstored).
  rewrite <- (list_filter_iff
                (λ row, rowid row ∉ (list_to_set (remote_rowids existing_tasks)
                                     : gset (list Z)))
                (λ row, rowid row ∉ remote_rowids existing_tasks))
    in Hpaths |- * by (intros row; by rewrite elem_of_list_to_set).
  destruct (upload_rows_run (list_to_set (remote_rowids existing_tasks))
              (select_exec (tbl w) [ColRef c; LocalPath c]) Hids) with
    (n := 0%nat)
    (w := add_table_calls (after_push_reads col_mapping w)
            [TSelect [ColRef c; LocalPath c]])
    as (new & Hrun & Hup).
  { apply Forall_forall. intros row Hrow Hnew.
    apply (proj1 (Forall_forall _ _) Hpaths row).
    by apply list_elem_of_filter. }
  rewrite (bind_ok _ _ _ _ _ Hrun).
  rewrite (bind_ok _ _ _ _ _ (repr_run _ _)).
  eexists _, new. split; [reflexivity|]. simpl.
  rewrite <- !app_assoc. by split_and!.
Qed.

(** X14.  On the single-media path, when the upload for the first row left to
    push answers with no id, the push raises [IndexError] right after that
    upload: the file is uploaded and no update tags a task with the row's
    rowid. *)
Theorem push_upload_without_id col_mapping existing_tasks pc c col
    (w : World Table) row rest file :
  Forall (λ task, has_rowid task) existing_tasks →
  _parse_project_config fromstring (label_config project) = Ok pc →
  (push_cols pc col_mapping).*1 = [c] →
  columns (tbl w) !! c = Some col →
  is_media_type (col_type col) = true →
  is_stored col = true →
  filter (λ row, rowid row ∉ remote_rowids existing_tasks)
    (select_exec (tbl w) [ColRef c; LocalPath c]) = row :: rest →
  local_path_of row = Some file →
  import_file_ids project
    (remote_calls w ++ replicate (length col_mapping) GetParams) file = [] →
  ∃ w',
    _create_tasks_from_table is_media_type fromstring project
      col_mapping existing_tasks w = (w', Raise IndexError)
    ∧ remote_calls w'
      = remote_calls w ++ replicate (length col_mapping) GetParams
          ++ [ImportTasksFile file]
    ∧ log w' = log w.
Proof.
  intros Hrows Hpc Hcols Hc Hmedia Hstored Hfilter Hfile Hid.
  rewrite (push_single_media_run col_mapping existing_tasks pc c col w
             Hrows Hpc Hcols Hc Hmedia Hstored).
  rewrite <- (list_filter_iff
                (λ row, rowid row ∉ (list_to_set (remote_rowids existing_tasks)
                                     : gset (list Z)))
                (λ row, rowid row ∉ remote_rowids existing_tasks))
    in Hfilter by (intros row0; by rewrite elem_of_list_to_set).
  rewrite (bind_raise _ _ _ _ _
             (upload_rows_no_id _ _ 0%nat
                (add_table_calls (after_push_reads col_mapping w)
                   [TSelect [ColRef c; LocalPath c]])
                row rest file Hfilter Hfile Hid)).
  eexists. split; [reflexivity|]. simpl. by rewrite <- app_assoc.
Qed.

(** *** The push columns *)

(** X10.  The push columns are the local columns of the column mapping whose
    remote name the project config declares, in the order of the mapping; a
    mapped column whose remote name the config does not declare is left out
    without an error.  Computing them reads the project parameters once per
    item of the mapping. *)
Theorem push_columns_are_declared col_mapping pc (w : World Table) :
  _parse_project_config fromstring (label_config project) = Ok pc →
  ∃ cols,
    select_push_cols fromstring project col_mapping w
    = (add_remote w (replicate (length col_mapping) GetParams), Ok cols)
    ∧ cols = (filter (λ kv, is_Some (pc !! kv.2)) col_mapping).*1
    ∧ ∀ c, c ∈ cols ↔ ∃ r, (c, r) ∈ col_mapping ∧ is_Some (pc !! r).
Proof.
  intros Hpc. exists (push_cols pc col_mapping).*1.
  split; [by apply select_push_cols_ok|]. split; [done|].
  intros c. unfold push_cols. rewrite list_elem_of_fmap. split.
  - intros ([c' r] & -> & Hin). apply list_elem_of_filter in Hin as [Hr Hin].
    by exists r.
  - intros (r & Hin & Hr). exists (c, r). split; [done|].
    by apply list_elem_of_filter.
Qed.

(** X11.  A project config that the parser rejects makes the push fail with the
    parser's error right after the first read of the project parameters,
    when the column mapping is not empty: no row is selected and nothing is
    created. *)
Theorem push_config_error col_mapping existing_tasks e (w : World Table) :
  Forall (λ task, has_rowid task) existing_tasks →
  col_mapping ≠ [] →
  _parse_project_config fromstring (label_config project) = Raise e →
  _create_tasks_from_table is_media_type fromstring project
    col_mapping existing_tasks w
  = (add_remote (add_table_calls w [TColumnTypes]) [GetParams], Raise e).
Proof.
  intros Hrows Hne Hpc. unfold _create_tasks_from_table.
  rewrite (map_result_meta_rowids_ok _ Hrows), bind_lift_ok.
  rewrite (bind_ok _ _ _ _ _ (t_column_types_run w)).
  destruct col_mapping as [|[c r] items]; [done|].
  cbn [select_push_cols]. unfold get_push_columns, get_params.
  unfold_m. simpl. by rewrite Hpc.
Qed.

(** X12.  With an empty column mapping the push makes no remote call at
    all, whatever its outcome: the project parameters are never read, so the
    config is not looked at, and no task is created or updated; the table is
    as it was; and the push returns only when every local rowid is carried
    by an enumerated task. *)
Theorem push_empty_mapping existing_tasks (w : World Table) :
  remote_calls (_create_tasks_from_table is_media_type fromstring project
                  [] existing_tasks w).1 = remote_calls w
  ∧ tbl (_create_tasks_from_table is_media_type fromstring project
           [] existing_tasks w).1 = tbl w
  ∧ ((_create_tasks_from_table is_media_type fromstring project
        [] existing_tasks w).2 = Ok tt →
     rowids (tbl w) ⊆ remote_rowids existing_tasks).
Proof.
  destruct (_create_tasks_from_table is_media_type fromstring project
              [] existing_tasks w) as [w' r] eqn:Hrun.
  unfold _create_tasks_from_table in Hrun. cbn [fst snd].
  bind_inv_with @bind_inv Hrun; apply lift_inv in Hm as [-> Hids]; [|done].
  symmetry in Hids. apply map_result_meta_rowids in Hids as ->.
  rewrite (bind_ok _ _ _ _ _ (t_column_types_run w)) in Hrun.
  cbn [select_push_cols map_result for_each map_m] in Hrun.
  unfold t_select in Hrun. unfold_m_in Hrun.
  cbn [map_result for_each map_m] in Hrun.
  unfold mret, M_ret in Hrun. cbv beta iota zeta in Hrun.
  cbn [tbl add_table_calls remote_calls table_calls log] in Hrun.
  apply for_each_push_page_stops in Hrun as [-> Hok].
  2:{ eapply Forall_impl; [apply batched_aux_sizes, page_size_pos|].
      intros page [Hlen _] ->. simpl in Hlen. lia. }
  split_and!; [done..|].
  intros ->. specialize (Hok eq_refl).
  pose proof (batched_concat
                (filter (λ row, rowid row ∉ (list_to_set (remote_rowids existing_tasks) : gset (list Z)))
                   (select_exec (tbl w) []))
                _PAGE_SIZE page_size_pos) as Hcat.
  rewrite Hok in Hcat. simpl in Hcat.
  pose proof (filter_missing (tbl w) existing_tasks []) as Hmiss.
  rewrite <- Hcat in Hmiss. simpl in Hmiss.
  intros rid Hrid.
  destruct (decide (rid ∈ remote_rowids existing_tasks)) as [|Hnot]; [done|].
  assert (rid ∈ missing_rowids (tbl w) existing_tasks) as Hin
    by (unfold missing_rowids; by apply list_elem_of_filter).
  rewrite <- Hmiss in Hin. by apply elem_of_nil in Hin.
Qed.

End PushEffects.

Lemma push_task_without_rowid_witness :
  _create_tasks_from_table Sample.is_media
    (Sample.parses_to Sample.tree_prompt_img)
    (Sample.project_with Sample.config_prompt_img [])
    Sample.mapping_prompt_img [Sample.task_1; Sample.task_null; Sample.task_4]
    Sample.world_4
  = (Sample.world_4, Raise TypeError).
Proof.
  apply (push_task_without_rowid Sample.is_media
           (Sample.parses_to Sample.tree_prompt_img)
           (Sample.project_with Sample.config_prompt_img [])
           Sample.mapping_prompt_img [Sample.task_1] Sample.task_null
           [Sample.task_4] Sample.world_4).
  - by_decide.
  - reflexivity.
Defined.

Lemma push_single_media_uploads_witness :
  ∃ w',
    _create_tasks_from_table Sample.is_media
      (Sample.parses_to MoreSamples.tree_img)
      (Sample.project_with "<View/>" [])
      MoreSamples.mapping_img Sample.three_tasks Sample.world_4
    = (w', Ok tt)
    ∧ log w' = [PrintCreated 1 "LabelStudioProject `demo`"].
Proof.
  destruct (push_single_media_uploads Sample.is_media
              (Sample.parses_to MoreSamples.tree_img)
              (Sample.project_with "<View/>" [])
              MoreSamples.mapping_img Sample.three_tasks MoreSamples.schema_img
              "img" (mkColumn ImageType true) Sample.world_4)
    as (w' & new & Hrun & _ & _ & Hlog).
  - by_decide.
  - by vm_compute.
  - by vm_compute.
  - by vm_compute.
  - reflexivity.
  - reflexivity.
  - intros history file. done.
  - by_decide.
  - exists w'. split; [exact Hrun|]. rewrite Hlog. by vm_compute.
Defined.

Lemma push_upload_without_id_witness :
  ∃ w',
    _create_tasks_from_table Sample.is_media
      (Sample.parses_to MoreSamples.tree_img) MoreSamples.project_no_ids
      MoreSamples.mapping_img Sample.three_tasks Sample.world_4
    = (w', Raise IndexError)
    ∧ remote_calls w' = [GetParams; ImportTasksFile "/media/img-4"].
Proof.
  destruct (push_upload_without_id Sample.is_media
              (Sample.parses_to MoreSamples.tree_img) MoreSamples.project_no_ids
              MoreSamples.mapping_img Sample.three_tasks MoreSamples.schema_img
              "img" (mkColumn ImageType true) Sample.world_4
              (mkRow [4] [VStr "img-4"; VStr "/media/img-4"]) []
              "/media/img-4")
    as (w' & Hrun & Hcalls & _).
  - by_decide.
  - by vm_compute.
  - by vm_compute.
  - by vm_compute.
  - reflexivity.
  - reflexivity.
  - by vm_compute.
  - reflexivity.
  - reflexivity.
  - exists w'. split; [exact Hrun|]. rewrite Hcalls. by vm_compute.
Defined.

Lemma push_columns_are_declared_witness :
  (select_push_cols (Sample.parses_to Sample.tree_prompt_img)
     (Sample.project_with Sample.config_prompt_img [])
     Sample.mapping_prompt_img Sample.world_4).2
  = Ok ["prompt"; "img"].
Proof.
  destruct (push_columns_are_declared
              (Sample.parses_to Sample.tree_prompt_img)
              (Sample.project_with Sample.config_prompt_img [])
              Sample.mapping_prompt_img Sample.schema_prompt_img Sample.world_4)
    as (cols & Hrun & Hcols & _).
  - by vm_compute.
  - rewrite Hrun, Hcols. by vm_compute.
Defined.

Lemma push_config_error_witness :
  _create_tasks_from_table Sample.is_media
    (Sample.parses_to Sample.tree_lower_view)
    (Sample.project_with "<view/>" [])
    MoreSamples.mapping_img Sample.three_tasks Sample.world_4
  = (add_remote (add_table_calls Sample.world_4 [TColumnTypes]) [GetParams],
     Raise AssertionError).
Proof.
  apply (push_config_error Sample.is_media
           (Sample.parses_to Sample.tree_lower_view)
           (Sample.project_with "<view/>" [])).
  - by_decide.
  - done.
  - reflexivity.
Defined.

(** ** [sync] *)

Lemma filter_page_requests first n :
  filter (λ c, is_page_request c) (page_requests first n) = page_requests first n.
Proof.
  unfold page_requests. induction (seq first (S n)) as [|p l IH]; [done|].
  rewrite fmap_cons, filter_cons. simpl. by rewrite IH.
Qed.

Lemma filter_no_page_requests (l : list RemoteCall) :
  Forall (λ c, is_page_request c = false) l →
  filter (λ c, is_page_request c) l = [].
Proof.
  intros Hl. apply filter_none. intros c Hc Hp.
  rewrite (proj1 (Forall_forall _ _) Hl c Hc) in Hp. done.
Qed.

Lemma remote_rowids_filter (l : list Task) :
  remote_rowids (filter (λ task, has_rowid task) l) = remote_rowids l.
Proof.
  unfold remote_rowids. induction l as [|task l IH]; [done|].
  rewrite filter_cons. destruct (decide (has_rowid task)) as [Hh|Hh];
    unfold has_rowid in Hh; cbn [omap list_omap];
    destruct (meta_rowid task); try done; by f_equal.
Qed.

Section SyncProperties.

Context {Table : Type} `{TableAdapter Table}.
Variable is_media_type : ColumnType → bool.
Variable fromstring : string → Result Element.
Variable project : Project.

Lemma get_all_tasks_run (pages : list (list Task)) (fuel : nat) (w : World Table) :
  serves project pages →
  (length pages < fuel)%nat →
  _get_all_tasks project fuel w
  = (after_scan project pages w,
     Ok (Some (filter (λ task, has_rowid task) (concat pages)))).
Proof.
  intros [Hpages Hend] Hfuel. unfold _get_all_tasks.
  unfold mbind at 1, M_bind at 1.
  rewrite (pages_loop_scan project pages 1 0 fuel w); [|done..]. simpl.
  unfold after_scan.
  destruct (0 <? dropped_count pages)%nat; unfold project_title, get_params;
    unfold_m; simpl; rewrite ?app_nil_r, <- ?app_assoc; done.
Qed.

Lemma project_title_run (w : World Table) :
  project_title project w = (add_remote w [GetParams], Ok (title project)).
Proof. reflexivity. Qed.

Lemma t_get_name_run (w : World Table) :
  t_get_name w = (add_table_calls w [TGetName], Ok (get_name (tbl w))).
Proof. reflexivity. Qed.

Lemma emit_run ev (w : World Table) :
  emit ev w
  = (mkWorld (remote_calls w) (table_calls w) (log w ++ [ev]) (tbl w), Ok tt).
Proof. reflexivity. Qed.

(** [sync] once the scan has returned the tasks of [pages]. *)
Lemma sync_run (pages : list (list Task)) (fuel : nat) col_mapping
    (push pull : bool) (w : World Table) :
  serves project pages →
  (length pages < fuel)%nat →
  sync is_media_type fromstring project fuel col_mapping push pull w
  = ((if pull
      then _update_table_from_tasks project col_mapping
             (filter (λ task, has_rowid task) (concat pages))
      else mret tt);;
     (if push
      then _create_tasks_from_table is_media_type fromstring project col_mapping
             (filter (λ task, has_rowid task) (concat pages))
      else mret tt);;
     mret (Some tt))
      (after_scan project pages (after_sync_start project push pull w)).
Proof.
  intros Hserves Hfuel. unfold sync.
  rewrite (bind_ok _ _ _ _ _ (project_title_run w)).
  rewrite (bind_ok _ _ _ _ _ (t_get_name_run _)).
  rewrite (bind_ok _ _ _ _ _ (emit_run _ _)).
  by rewrite (bind_ok _ _ _ _ _ (get_all_tasks_run pages fuel _ Hserves Hfuel)).
Qed.

(** X15.  With neither push nor pull, [sync] only looks: it reads the project
    title, asks for the table name, scans the pages once, and leaves the
    table alone. *)
Theorem sync_without_push_and_pull (pages : list (list Task)) (fuel : nat)
    col_mapping (w : World Table) :
  serves project pages →
  (length pages < fuel)%nat →
  ∃ w',
    sync is_media_type fromstring project fuel col_mapping false false w
    = (w', Ok (Some tt))
    ∧ tbl w' = tbl w
    ∧ table_calls w' = table_calls w ++ [TGetName]
    ∧ remote_calls w'
      = remote_calls w ++ [GetParams] ++ page_requests 1 (length pages)
          ++ (if (0 <? dropped_count pages)%nat then [GetParams] else []).
Proof.
  intros Hserves Hfuel.
  rewrite (sync_run pages fuel col_mapping false false w Hserves Hfuel).
  eexists. split; [reflexivity|]. simpl. by rewrite <- app_assoc.
Qed.

(** X16.  With pull asked for and no annotations field among the values of the
    column mapping, [sync] fails the pull's assertion after the scan, and
    the push never runs, asked for or not: no task is created and the table
    is as it was. *)
Theorem sync_pull_assertion_stops_push (pages : list (list Task)) (fuel : nat)
    col_mapping (push : bool) (w : World Table) :
  serves project pages →
  (length pages < fuel)%nat →
  ANNOTATIONS_COLUMN ∉ col_mapping.*2 →
  ∃ w',
    sync is_media_type fromstring project fuel col_mapping push true w
    = (w', Raise AssertionError)
    ∧ tbl w' = tbl w
    ∧ remote_calls w'
      = remote_calls w ++ [GetParams] ++ page_requests 1 (length pages)
          ++ (if (0 <? dropped_count pages)%nat then [GetParams] else []).
Proof.
  intros Hserves Hfuel Hno.
  rewrite (sync_run pages fuel col_mapping push true w Hserves Hfuel).
  eexists. split.
  - apply bind_raise. unfold _update_table_from_tasks.
    by rewrite bool_decide_eq_false_2.
  - simpl. by rewrite <- app_assoc.
Qed.

(** X17.  A push-only [sync] creates nothing when every local rowid is carried by
    one of the tasks the scan returned: whatever its outcome, none of its
    remote calls creates or updates a task. *)
Theorem sync_push_creates_nothing_new (pages : list (list Task)) (fuel : nat)
    col_mapping (w : World Table) :
  serves project pages →
  (length pages < fuel)%nat →
  rowids (tbl w) ⊆ remote_rowids (concat pages) →
  ∃ new,
    remote_calls
      (sync is_media_type fromstring project fuel col_mapping true false w).1
    = remote_calls w ++ new
    ∧ Forall (λ c, is_create_or_update c = false) new.
Proof.
  intros Hserves Hfuel Hsub.
  rewrite (sync_run pages fuel col_mapping true false w Hserves Hfuel).
  assert (remote_rowids (filter (λ task, has_rowid task) (concat pages))
          = remote_rowids (concat pages)) as Hsame.
  { apply remote_rowids_filter. }
  rewrite (bind_ok _ _ _ _ _ (eq_refl : (mret tt : M Table unit) _ = (_, Ok tt))).
  destruct (_create_tasks_from_table is_media_type fromstring project col_mapping
              (filter (λ task, has_rowid task) (concat pages))
              (after_scan project pages (after_sync_start project true false w)))
    as [w1 r] eqn:Hpush.
  destruct (push_inv _ _ _ _ _ _ _ _ Hpush) as (new & Hcalls & _ & _ & Hnil & _).
  assert (Forall (λ c, is_create_or_update c = false) new) as Hq.
  { apply Hnil. unfold missing_rowids. apply filter_none.
    intros rid Hin Hnot. apply Hnot. rewrite Hsame. by apply Hsub. }
  exists ([GetParams] ++ page_requests 1 (length pages)
            ++ (if (0 <? dropped_count pages)%nat then [GetParams] else [])
            ++ new).
  split.
  - destruct r as [[]|e].
    + rewrite (bind_ok _ _ _ _ _ Hpush). simpl. rewrite Hcalls. simpl.
      rewrite <- ?app_assoc. simpl. by rewrite <- ?app_assoc.
    + rewrite (bind_raise _ _ _ _ _ Hpush). simpl. rewrite Hcalls. simpl.
      rewrite <- ?app_assoc. simpl. by rewrite <- ?app_assoc.
  - constructor; [done|]. apply Forall_app. split.
    + apply Forall_forall. by intros c [p [-> _]]%list_elem_of_fmap.
    + apply Forall_app. split; [|done]. by destruct (0 <? _)%nat; repeat constructor.
Qed.

(** X18.  Whatever is asked for and whatever the outcome, [sync] scans the pages
    once: its page requests are those of one scan, and pull and push work
    from the tasks it returned. *)
Theorem sync_scans_once (pages : list (list Task)) (fuel : nat) col_mapping
    (push pull : bool) (w : World Table) :
  serves project pages →
  (length pages < fuel)%nat →
  ∃ new,
    remote_calls
      (sync is_media_type fromstring project fuel col_mapping push pull w).1
    = remote_calls w ++ new
    ∧ filter (λ c, is_page_request c) new = page_requests 1 (length pages).
Proof.
  intros Hserves Hfuel.
  rewrite (sync_run pages fuel col_mapping push pull w Hserves Hfuel).
  set (tasks := filter (λ task, has_rowid task) (concat pages)).
  set (w0 := after_scan project pages (after_sync_start project push pull w)).
  set (scan := [GetParams] ++ page_requests 1 (length pages)
                 ++ (if (0 <? dropped_count pages)%nat then [GetParams] else [])).
  assert (remote_calls w0 = remote_calls w ++ scan) as Hw0.
  { unfold w0, scan. simpl. by rewrite <- app_assoc. }
  assert (filter (λ c, is_page_request c) scan = page_requests 1 (length pages))
    as Hscan.
  { unfold scan. rewrite !filter_app, filter_page_requests.
    rewrite (filter_no_page_requests [GetParams]) by (by repeat constructor).
    rewrite filter_no_page_requests; [by rewrite app_nil_r|].
    by destruct (0 <? _)%nat; repeat constructor. }
  assert (∃ w1 r1 new1,
            (if pull then _update_table_from_tasks project col_mapping tasks
             else mret tt) w0 = (w1, r1)
            ∧ remote_calls w1 = remote_calls w0 ++ new1
            ∧ Forall (λ c, is_page_request c = false) new1)
    as (w1 & r1 & new1 & Hpull & Hc1 & Hq1).
  { destruct pull.
    - destruct (pull_remote_calls project col_mapping tasks w0)
        as (new1 & Hc & Hnew).
      destruct (_update_table_from_tasks project col_mapping tasks w0)
        as [w1 r1]. exists w1, r1, new1. split; [done|]. split; [done|].
      by destruct Hnew as [-> | ->]; repeat constructor.
    - exists w0, (Ok tt), []. rewrite app_nil_r. by split_and!. }
  destruct r1 as [[]|e].
  2:{ rewrite (bind_raise _ _ _ _ _ Hpull). exists (scan ++ new1). cbn [fst].
      rewrite Hc1, Hw0, <- app_assoc. split; [done|].
      by rewrite filter_app, Hscan, filter_no_page_requests, app_nil_r. }
  rewrite (bind_ok _ _ _ _ _ Hpull).
  assert (∃ w2 r2 new2,
            (if push
             then _create_tasks_from_table is_media_type fromstring project
                    col_mapping tasks
             else mret tt) w1 = (w2, r2)
            ∧ remote_calls w2 = remote_calls w1 ++ new2
            ∧ Forall (λ c, is_page_request c = false) new2)
    as (w2 & r2 & new2 & Hpush & Hc2 & Hq2).
  { destruct push.
    - destruct (_create_tasks_from_table is_media_type fromstring project
                  col_mapping tasks w1) as [w2 r2] eqn:Hrun.
      destruct (push_effects _ _ _ _ _ _ _ _ Hrun)
        as (new2 & tc & Hc & _ & _ & Hq & _).
      by exists w2, r2, new2.
    - exists w1, (Ok tt), []. rewrite app_nil_r. by split_and!. }
  exists (scan ++ new1 ++ new2). split.
  - destruct r2 as [[]|e].
    + rewrite (bind_ok _ _ _ _ _ Hpush). unfold mret, M_ret. cbn [fst].
      by rewrite Hc2, Hc1, Hw0, <- !app_assoc.
    + rewrite (bind_raise _ _ _ _ _ Hpush). cbn [fst].
      by rewrite Hc2, Hc1, Hw0, <- !app_assoc.
  - rewrite !filter_app, Hscan, !filter_no_page_requests by done.
    by rewrite !app_nil_r.
Qed.

(** When the fuel runs out during the scan, [sync] has neither pulled nor
    pushed. *)
Lemma sync_out_of_fuel (fuel : nat) col_mapping (push pull : bool) (w : World Table) :
  (∀ page, end_pagination (get_paginated_tasks project page _PAGE_SIZE) = false) →
  sync is_media_type fromstring project fuel col_mapping push pull w
  = (add_remote (after_sync_start project push pull w)
       ((λ p, GetPaginatedTasks p _PAGE_SIZE) <$> seq 1 fuel),
     Ok None).
Proof.
  intros Hno. unfold sync.
  rewrite (bind_ok _ _ _ _ _ (project_title_run w)).
  rewrite (bind_ok _ _ _ _ _ (t_get_name_run _)).
  rewrite (bind_ok _ _ _ _ _ (emit_run _ _)).
  assert (_get_all_tasks project fuel (after_sync_start project push pull w)
          = (add_remote (after_sync_start project push pull w)
               ((λ p, GetPaginatedTasks p _PAGE_SIZE) <$> seq 1 fuel),
             Ok None)) as Hscan.
  { unfold _get_all_tasks. unfold mbind, M_bind.
    by rewrite (pages_loop_no_end project fuel Hno). }
  by rewrite (bind_ok _ _ _ _ _ Hscan).
Qed.

End SyncProperties.

Lemma paged_service_serves config (pages : list (list Task)) :
  serves (Sample.project_with config pages) pages.
Proof.
  split.
  - intros i page_tasks Hi. simpl. by rewrite Hi.
  - simpl. by rewrite (proj2 (lookup_ge_None pages (length pages))).
Qed.

Lemma sync_without_push_and_pull_witness :
  ∃ w',
    sync Sample.is_media (Sample.parses_to Sample.tree_prompt_img)
      (Sample.project_with Sample.config_prompt_img Sample.two_pages)
      3 Sample.mapping_prompt_img false false Sample.world_4
    = (w', Ok (Some tt))
    ∧ tbl w' = Sample.table_4
    ∧ table_calls w' = [TGetName].
Proof.
  destruct (sync_without_push_and_pull Sample.is_media
              (Sample.parses_to Sample.tree_prompt_img)
              (Sample.project_with Sample.config_prompt_img Sample.two_pages)
              Sample.two_pages 3 Sample.mapping_prompt_img Sample.world_4)
    as (w' & Hrun & Htbl & Htc & _).
  - apply paged_service_serves.
  - simpl. lia.
  - exists w'. by split_and!.
Defined.

Lemma sync_pull_assertion_stops_push_witness :
  ∃ w',
    sync Sample.is_media (Sample.parses_to MoreSamples.tree_img)
      (Sample.project_with "<View/>" Sample.two_pages)
      3 MoreSamples.mapping_img true true Sample.world_4
    = (w', Raise AssertionError)
    ∧ tbl w' = Sample.table_4.
Proof.
  destruct (sync_pull_assertion_stops_push Sample.is_media
              (Sample.parses_to MoreSamples.tree_img)
              (Sample.project_with "<View/>" Sample.two_pages)
              Sample.two_pages 3 MoreSamples.mapping_img true Sample.world_4)
    as (w' & Hrun & Htbl & _).
  - apply paged_service_serves.
  - simpl. lia.
  - by_decide.
  - exists w'. by split.
Defined.

Lemma sync_push_creates_nothing_new_witness :
  ∃ new,
    remote_calls
      (sync Sample.is_media (Sample.parses_to Sample.tree_prompt_img)
         (Sample.project_with Sample.config_prompt_img MoreSamples.page_all)
         2 Sample.mapping_prompt_img true false Sample.world_4).1
    = new
    ∧ Forall (λ c, is_create_or_update c = false) new.
Proof.
  destruct (sync_push_creates_nothing_new Sample.is_media
              (Sample.parses_to Sample.tree_prompt_img)
              (Sample.project_with Sample.config_prompt_img MoreSamples.page_all)
              MoreSamples.page_all 2 Sample.mapping_prompt_img Sample.world_4)
    as (new & Hcalls & Hq).
  - apply paged_service_serves.
  - simpl. lia.
  - intros rid Hrid. vm_compute in Hrid |- *. set_solver.
  - exists new. split; [by rewrite Hcalls|done].
Defined.

Lemma sync_scans_once_witness :
  ∃ new,
    remote_calls
      (sync Sample.is_media (Sample.parses_to Sample.tree_prompt_img)
         (Sample.project_with Sample.config_prompt_img Sample.two_pages)
         3 Sample.mapping_prompt_img true true Sample.world_4).1
    = new
    ∧ filter (λ c, is_page_request c) new
      = [GetPaginatedTasks 1 100; GetPaginatedTasks 2 100;
         GetPaginatedTasks 3 100].
Proof.
  destruct (sync_scans_once Sample.is_media
              (Sample.parses_to Sample.tree_prompt_img)
              (Sample.project_with Sample.config_prompt_img Sample.two_pages)
              Sample.two_pages 3 Sample.mapping_prompt_img true true
              Sample.world_4)
    as (new & Hcalls & Hscan).
  - apply paged_service_serves.
  - simpl. lia.
  - exists new. split; [by rewrite Hcalls|]. rewrite Hscan. reflexivity.
Defined.

(** ** The project handle *)

Section HandleProperties.

Variable get_project : list PyVal → PyVal → LSHandle.ClientResult.
Variable py_str : PyVal → string.

Lemma accesses_resolved (n : nat) (self : LSHandle.Handle) requests p :
  LSHandle._project self = Some p →
  LSHandle.accesses get_project py_str n self requests
  = (self, requests, replicate n (Ok p)).
Proof.
  intros Hp. induction n as [|n IH]; [done|].
  cbn [LSHandle.accesses]. unfold LSHandle.project at 1. rewrite Hp, IH.
  reflexivity.
Qed.

(** X19.  The project is resolved at most once: when the client finds it at the
    first access, that access and every later one return it, and the client
    is asked only that one time. *)
Theorem project_resolved_once (n : nat) (self : LSHandle.Handle) requests p :
  LSHandle._project self = None →
  get_project requests (LSHandle.project_id self) = LSHandle.Found p →
  LSHandle.accesses get_project py_str (S n) self requests
  = (LSHandle.mkHandle (LSHandle.project_id self) (Some p),
     requests ++ [LSHandle.project_id self],
     replicate (S n) (Ok p)).
Proof.
  intros Hnone Hfound. cbn [LSHandle.accesses].
  unfold LSHandle.project at 1. rewrite Hnone, Hfound.
  by rewrite (accesses_resolved n _ _ p).
Qed.

(** X20.  A failed resolution is not remembered: when the client raises
    [HTTPError], the access raises the error that names the project id and
    the object stays unresolved, so the next access asks the client again
    and, when the client then finds the project, returns it. *)
Theorem project_failure_not_cached (self : LSHandle.Handle) requests p :
  LSHandle._project self = None →
  get_project requests (LSHandle.project_id self) = LSHandle.HTTPError →
  get_project (requests ++ [LSHandle.project_id self]) (LSHandle.project_id self)
  = LSHandle.Found p →
  LSHandle.project get_project py_str self requests
  = (self, requests ++ [LSHandle.project_id self],
     Raise (Error (LSHandle.locate_error py_str (LSHandle.project_id self))))
  ∧ LSHandle.accesses get_project py_str 2 self requests
    = (LSHandle.mkHandle (LSHandle.project_id self) (Some p),
       requests ++ [LSHandle.project_id self; LSHandle.project_id self],
       [Raise (Error (LSHandle.locate_error py_str (LSHandle.project_id self)));
        Ok p]).
Proof.
  intros Hnone Hfail Hfound.
  assert (LSHandle.project get_project py_str self requests
          = (self, requests ++ [LSHandle.project_id self],
             Raise (Error (LSHandle.locate_error py_str
                             (LSHandle.project_id self))))) as Hfirst.
  { unfold LSHandle.project. by rewrite Hnone, Hfail. }
  split; [done|]. cbn [LSHandle.accesses]. rewrite Hfirst.
  unfold LSHandle.project. rewrite Hnone, Hfound.
  by rewrite <- app_assoc.
Qed.

(** An exception of the client other than [HTTPError] is passed on as it
    is, and is not remembered either. *)
Theorem project_other_error_propagates (self : LSHandle.Handle) requests e :
  LSHandle._project self = None →
  get_project requests (LSHandle.project_id self) = LSHandle.OtherError e →
  LSHandle.project get_project py_str self requests
  = (self, requests ++ [LSHandle.project_id self], Raise e).
Proof.
  intros Hnone Hother. unfold LSHandle.project. by rewrite Hnone, Hother.
Qed.

End HandleProperties.

(** X21.  Serialization keeps the project id and nothing else: reading back what
    [to_dict] wrote gives an object with the same id and no resolved
    project, whatever the original had resolved; reading a record gives an
    object that writes the record's [project_id] entry; a record without
    that entry raises [KeyError]. *)
Theorem handle_round_trip (self : LSHandle.Handle) (md : gmap string PyVal) :
  LSHandle.from_dict (LSHandle.to_dict self)
  = Ok (LSHandle.mkHandle (LSHandle.project_id self) None)
  ∧ (∀ v, md !! "project_id" = Some v →
       ∃ h, LSHandle.from_dict md = Ok h
            ∧ LSHandle._project h = None
            ∧ LSHandle.to_dict h = {["project_id" := v]}
            ∧ LSHandle.to_dict h ⊆ md)
  ∧ (md !! "project_id" = None →
     LSHandle.from_dict md = Raise (KeyError "project_id")).
Proof.
  split_and!.
  - unfold LSHandle.from_dict, LSHandle.to_dict, dict_get.
    by rewrite lookup_singleton_eq.
  - intros v Hv. exists (LSHandle.init v).
    unfold LSHandle.from_dict, dict_get. rewrite Hv. split_and!; [done..|].
    unfold LSHandle.to_dict. simpl. by apply map_singleton_subseteq_l.
  - intros Hnone. unfold LSHandle.from_dict, dict_get. by rewrite Hnone.
Qed.

Lemma project_resolved_once_witness :
  LSHandle.accesses (λ _ _, LSHandle.Found MoreSamples.project_ending)
    MoreSamples.str_of 3 (LSHandle.init (VInt 7)) []
  = (LSHandle.mkHandle (VInt 7) (Some MoreSamples.project_ending),
     [VInt 7],
     [Ok MoreSamples.project_ending; Ok MoreSamples.project_ending;
      Ok MoreSamples.project_ending]).
Proof.
  apply (project_resolved_once
           (λ _ _, LSHandle.Found MoreSamples.project_ending)
           MoreSamples.str_of 2 (LSHandle.init (VInt 7)) []
           MoreSamples.project_ending); reflexivity.
Defined.

Lemma project_failure_not_cached_witness :
  LSHandle.project (MoreSamples.flaky_client MoreSamples.project_ending)
    MoreSamples.str_of (LSHandle.init (VInt 7)) []
  = (LSHandle.init (VInt 7), [VInt 7],
     Raise (Error ("Could not locate Label Studio project: 7 "
                   +:+ "(cannot connect to server or project no longer exists)"))).
Proof.
  apply (project_failure_not_cached
           (MoreSamples.flaky_client MoreSamples.project_ending)
           MoreSamples.str_of (LSHandle.init (VInt 7)) []
           MoreSamples.project_ending); reflexivity.
Defined.

Lemma project_other_error_propagates_witness :
  LSHandle.project (λ _ _, LSHandle.OtherError TypeError)
    MoreSamples.str_of (LSHandle.init (VInt 7)) []
  = (LSHandle.init (VInt 7), [VInt 7], Raise TypeError).
Proof.
  apply (project_other_error_propagates (λ _ _, LSHandle.OtherError TypeError)
           MoreSamples.str_of (LSHandle.init (VInt 7)) [] TypeError);
    reflexivity.
Defined.

Lemma handle_round_trip_witness :
  LSHandle.from_dict {["project_id" := VInt 7; "extra" := VNone]}
  = Ok (LSHandle.init (VInt 7))
  ∧ LSHandle.from_dict {["extra" := VNone]} = Raise (KeyError "project_id").
Proof.
  destruct (handle_round_trip (LSHandle.init (VInt 7))
              {["project_id" := VInt 7; "extra" := VNone]})
    as (_ & Hsome & _).
  destruct (handle_round_trip (LSHandle.init (VInt 7)) {["extra" := VNone]})
    as (_ & _ & Hnone).
  split.
  - destruct (Hsome (VInt 7)) as (h & Hh & _); [by vm_compute|].
    rewrite Hh. vm_compute in Hh. by injection Hh as <-.
  - apply Hnone. by vm_compute.
Defined.
